(** * CogServer network layer: line scanner, WebSocket codec, registry

    A shallow embedding of [opencog/network/ServerSocket.cc] and
    [opencog/network/WebSocket.cc].

    Conventions.
    - A byte ([unsigned char], or the bit pattern of a [char]) is a [Z]
      in [0, 256).  A [std::string] or wire buffer is a [list Z].
    - Fixed-width C++ integers are [Z] with their wrap-around written
      out where an operation can overflow.
    - The host is little-endian (the code is Linux-only: [prctl],
      [gettid]); this only matters where [get_websocket_data] reads the
      mask key into a [uint32_t] and aliases the payload as [uint32_t*].
    - A method of [ServerSocket] is a state transformer on the object and
      the logger, returning a value, a thrown exception or [Undefined]
      (a null [_socket] dereferenced). *)

From Stdlib Require Import ZArith Lia Ascii String.
From stdpp Require Import base list strings gmap sorting.

Local Open Scope Z_scope.
Local Arguments Nat.modulo : simpl never.
Set Warnings "-clear-no-such-hyp".

(** ** Bytes and byte strings *)

Definition byte_of_ascii (a : ascii) : Z := Z.of_N (N_of_ascii a).

Definition bytes (s : string) : list Z :=
  map byte_of_ascii (list_ascii_of_string s).

Definition CRLF : list Z := [13; 10].

(** [unsigned char c = x] for an [x] of a wider type. *)
Definition to_uchar (x : Z) : Z := x mod 256.

(** * Telnet-aware delimiter scanner ([ServerSocket.cc]) *)

Module Scanner.

Definition IAC : Z := 0xff.

(** The body of the [while (i != end)] loop of [match_eol_or_escape].
    [bs] is the range [[i, end)], [i] the offset of the iterator from
    [begin]; the result is the returned pair, the iterator as its offset
    from [begin]. *)
Fixpoint scan (telnet_mode : bool) (i : nat) (bs : list Z) : nat * bool :=
  match bs with
  | [] => (i, false)
  | c :: bs' =>
      let telnet_mode := if c =? IAC then true else telnet_mode in
      if (c =? 10) || (c =? 0x04) || (telnet_mode && (c <=? 0xf0))
      then (S i, true)
      else scan telnet_mode (S i) bs'
  end.

(** [match_eol_or_escape(begin, end)]: [telnet_mode] is a local of the
    call, initialised to [false]. *)
Definition match_eol_or_escape (bs : list Z) : nat * bool :=
  scan false 0 bs.

(** The flag after a stretch of bytes none of which ends the unit. *)
Fixpoint flag_after (tm : bool) (bs : list Z) : bool :=
  match bs with
  | [] => tm
  | c :: bs' => flag_after (if c =? IAC then true else tm) bs'
  end.

End Scanner.

(** * Exceptions, logging and the connection object *)

(** The values of [boost::system::error_code] the code tells apart; every
    other value is [errc n]. *)
Inductive error_code :=
  | success | eof | connection_reset | not_connected
  | broken_pipe | bad_descriptor | errc (n : Z).

Global Instance error_code_eq_dec : EqDecision error_code.
Proof. solve_decision. Defined.

Inductive exn :=
  | SilentException
  | system_error (ec : error_code)
  | AssertionException.

Inductive level := Debug | Info | Warn | Error.

Global Instance level_eq_dec : EqDecision level.
Proof. solve_decision. Defined.

(** A call of [logger().<level>(fmt, ...)]: the level and the format. *)
Definition log_entry : Type := level * string.

(** What running a piece of code gives: a value, an exception in flight,
    [Undefined] where C++ gives no meaning (a null [_socket] used), or
    [OutOfFuel] for a loop cut short by the model (shown unreachable for
    the frame codec, and for the read loop of a consumer that leaves the
    inbound stream alone). *)
Inductive outcome (A : Type) :=
  | Ok (a : A) | Throw (e : exn) | Undefined | OutOfFuel.
Arguments Ok {A} a.
Arguments Throw {A} e.
Arguments Undefined {A}.
Arguments OutOfFuel {A}.

(** What the transport hands over on one receive: some bytes, or an error
    raised once. *)
Inductive arrival :=
  | Bytes (bs : list Z)
  | Fault (ec : error_code).

(** The TCP socket behind [_socket], seen from the server.
    [rx]: what the peer's side delivers, in order, before the peer closes
    (after which every receive reports [eof]);
    [tx]: the buffers [boost::asio::write] accepted, oldest first;
    [wr_error]: what [write] reports ([success] while the peer listens);
    [close_error]: what [shutdown]/[close] throws, if they throw. *)
Record tcp_socket := {
  rx : list arrival;
  tx : list (list Z);
  wr_error : error_code;
  close_error : option error_code
}.

(** The data members of [ServerSocket] the two files use. *)
Record ServerSocket := {
  _socket : option tcp_socket;
  _start_time : Z;
  _tid : Z;
  _status : string;
  _got_first_line : bool;
  _got_http_header : bool;
  _got_websock_header : bool;
  _do_frame_io : bool;
  _url : list Z;
  _webkey : list Z
}.

(** The state a method runs in: its object and the process-wide log. *)
Record ctx := {
  this : ServerSocket;
  logged : list log_entry
}.

Definition set_socket (o : option tcp_socket) (ss : ServerSocket) : ServerSocket :=
  {| _socket := o; _start_time := _start_time ss; _tid := _tid ss;
     _status := _status ss; _got_first_line := _got_first_line ss;
     _got_http_header := _got_http_header ss;
     _got_websock_header := _got_websock_header ss;
     _do_frame_io := _do_frame_io ss; _url := _url ss; _webkey := _webkey ss |}.

Definition set_status (st : string) (ss : ServerSocket) : ServerSocket :=
  {| _socket := _socket ss; _start_time := _start_time ss; _tid := _tid ss;
     _status := st; _got_first_line := _got_first_line ss;
     _got_http_header := _got_http_header ss;
     _got_websock_header := _got_websock_header ss;
     _do_frame_io := _do_frame_io ss; _url := _url ss; _webkey := _webkey ss |}.

Definition set_tid (t : Z) (ss : ServerSocket) : ServerSocket :=
  {| _socket := _socket ss; _start_time := _start_time ss; _tid := t;
     _status := _status ss; _got_first_line := _got_first_line ss;
     _got_http_header := _got_http_header ss;
     _got_websock_header := _got_websock_header ss;
     _do_frame_io := _do_frame_io ss; _url := _url ss; _webkey := _webkey ss |}.

Definition set_start_time (t : Z) (ss : ServerSocket) : ServerSocket :=
  {| _socket := _socket ss; _start_time := t; _tid := _tid ss;
     _status := _status ss; _got_first_line := _got_first_line ss;
     _got_http_header := _got_http_header ss;
     _got_websock_header := _got_websock_header ss;
     _do_frame_io := _do_frame_io ss; _url := _url ss; _webkey := _webkey ss |}.

Definition set_got_first_line (b : bool) (ss : ServerSocket) : ServerSocket :=
  {| _socket := _socket ss; _start_time := _start_time ss; _tid := _tid ss;
     _status := _status ss; _got_first_line := b;
     _got_http_header := _got_http_header ss;
     _got_websock_header := _got_websock_header ss;
     _do_frame_io := _do_frame_io ss; _url := _url ss; _webkey := _webkey ss |}.

Definition set_got_http_header (b : bool) (ss : ServerSocket) : ServerSocket :=
  {| _socket := _socket ss; _start_time := _start_time ss; _tid := _tid ss;
     _status := _status ss; _got_first_line := _got_first_line ss;
     _got_http_header := b;
     _got_websock_header := _got_websock_header ss;
     _do_frame_io := _do_frame_io ss; _url := _url ss; _webkey := _webkey ss |}.

Definition set_got_websock_header (b : bool) (ss : ServerSocket) : ServerSocket :=
  {| _socket := _socket ss; _start_time := _start_time ss; _tid := _tid ss;
     _status := _status ss; _got_first_line := _got_first_line ss;
     _got_http_header := _got_http_header ss;
     _got_websock_header := b;
     _do_frame_io := _do_frame_io ss; _url := _url ss; _webkey := _webkey ss |}.

Definition set_do_frame_io (b : bool) (ss : ServerSocket) : ServerSocket :=
  {| _socket := _socket ss; _start_time := _start_time ss; _tid := _tid ss;
     _status := _status ss; _got_first_line := _got_first_line ss;
     _got_http_header := _got_http_header ss;
     _got_websock_header := _got_websock_header ss;
     _do_frame_io := b; _url := _url ss; _webkey := _webkey ss |}.

Definition set_url (u : list Z) (ss : ServerSocket) : ServerSocket :=
  {| _socket := _socket ss; _start_time := _start_time ss; _tid := _tid ss;
     _status := _status ss; _got_first_line := _got_first_line ss;
     _got_http_header := _got_http_header ss;
     _got_websock_header := _got_websock_header ss;
     _do_frame_io := _do_frame_io ss; _url := u; _webkey := _webkey ss |}.

Definition set_webkey (k : list Z) (ss : ServerSocket) : ServerSocket :=
  {| _socket := _socket ss; _start_time := _start_time ss; _tid := _tid ss;
     _status := _status ss; _got_first_line := _got_first_line ss;
     _got_http_header := _got_http_header ss;
     _got_websock_header := _got_websock_header ss;
     _do_frame_io := _do_frame_io ss; _url := _url ss; _webkey := k |}.

Definition set_rx (bs : list arrival) (s : tcp_socket) : tcp_socket :=
  {| rx := bs; tx := tx s; wr_error := wr_error s; close_error := close_error s |}.

Definition set_tx (bufs : list (list Z)) (s : tcp_socket) : tcp_socket :=
  {| rx := rx s; tx := bufs; wr_error := wr_error s; close_error := close_error s |}.

Definition on_this (f : ServerSocket -> ServerSocket) (c : ctx) : ctx :=
  {| this := f (this c); logged := logged c |}.

Definition add_log (e : log_entry) (c : ctx) : ctx :=
  {| this := this c; logged := logged c ++ [e] |}.

(** ** The monad of methods *)

Definition M (A : Type) : Type := ctx -> outcome A * ctx.

Global Instance M_ret : MRet M := fun A a c => (Ok a, c).

Global Instance M_bind : MBind M := fun A B f m c =>
  match m c with
  | (Ok a, c') => f a c'
  | (Throw e, c') => (Throw e, c')
  | (Undefined, c') => (Undefined, c')
  | (OutOfFuel, c') => (OutOfFuel, c')
  end.

Definition throw {A} (e : exn) : M A := fun c => (Throw e, c).

Definition modify (f : ServerSocket -> ServerSocket) : M unit :=
  fun c => (Ok tt, on_this f c).

Definition get_this : M ServerSocket := fun c => (Ok (this c), c).

(** [logger().debug/info/warn/error(fmt, ...)]. *)
Definition logger (l : level) (fmt : string) : M unit :=
  fun c => (Ok tt, add_log (l, fmt) c).

(** Receiving exactly [n] bytes: chunks are consumed until [n] bytes are
    in hand; a fault on the way, or the end of the stream, is the error. *)
Fixpoint recv (n : nat) (r : list arrival) : (list Z + error_code) * list arrival :=
  match n with
  | O => (inl [], r)
  | S _ =>
      match r with
      | [] => (inr eof, [])
      | Fault ec :: r' => (inr ec, r')
      | Bytes bs :: r' =>
          if decide (n <= length bs)%nat
          then (inl (take n bs), Bytes (drop n bs) :: r')
          else match recv (n - length bs) r' with
               | (inl got, r'') => (inl (bs ++ got), r'')
               | (inr ec, r'') => (inr ec, r'')
               end
      end
  end.

(** The bytes that arrive before the next fault or the end of the stream. *)
Fixpoint pending (r : list arrival) : list Z :=
  match r with
  | Bytes bs :: r' => bs ++ pending r'
  | _ => []
  end.

Definition with_rx (r : list arrival) (c : ctx) : ctx :=
  match _socket (this c) with
  | Some s => on_this (set_socket (Some (set_rx r s))) c
  | None => c
  end.

(** [boost::asio::read] on [_socket] into a buffer of [n] bytes: blocks
    until [n] bytes have arrived; throws [system_error] with the
    transport's error otherwise. *)
Definition asio_read (n : nat) : M (list Z) := fun c =>
  match _socket (this c) with
  | None => (Undefined, c)
  | Some s =>
      match recv n (rx s) with
      | (inl got, r') => (Ok got, with_rx r' c)
      | (inr ec, r') => (Throw (system_error ec), with_rx r' c)
      end
  end.

(** The errors [Send] does not log. *)
Definition send_harmless (e : error_code) : bool :=
  bool_decide (e = success) || bool_decide (e = not_connected) ||
  bool_decide (e = broken_pipe) || bool_decide (e = bad_descriptor) ||
  bool_decide (e = connection_reset).

(** [ServerSocket::Send(const std::string&)].  The [const_buffer] overload
    used by [WebSocket.cc] is declared in [ServerSocket.h]; it is taken
    to write its buffer the same way. *)
Definition Send (cmd : list Z) : M unit := fun c =>
  match _socket (this c) with
  | None => (Throw AssertionException, c)
  | Some s =>
      match wr_error s with
      | success =>
          (Ok tt, on_this (set_socket (Some (set_tx (tx s ++ [cmd]) s))) c)
      | e =>
          (Ok tt, if send_harmless e then c
                  else add_log (Warn, "ServerSocket::Send(): %s on thread 0x%x
Attempted to send: %s"%string) c)
      end
  end.

(** The two virtual hooks a subclass implements. *)
Class Consumer := {
  OnConnection : M unit;
  OnLine : list Z -> M unit
}.

(** * WebSocket frame codec ([WebSocket.cc]) *)

Module WebSocket.

(** ** Integers in memory (little-endian host) *)

(** The value of an unsigned integer whose bytes in memory are [bs]. *)
Fixpoint le_combine (bs : list Z) : Z :=
  match bs with
  | [] => 0
  | b :: bs' => Z.lor b (Z.shiftl (le_combine bs') 8)
  end.

(** The [n] bytes in memory of the unsigned integer [w]. *)
Fixpoint le_split (n : nat) (w : Z) : list Z :=
  match n with
  | O => []
  | S n' => Z.land w 0xff :: le_split n' (Z.shiftr w 8)
  end.

Definition ntohs (x : Z) : Z :=
  Z.lor (Z.shiftl (Z.land x 0xff) 8) (Z.land (Z.shiftr x 8) 0xff).

Definition ntohl (x : Z) : Z :=
  Z.lor (Z.lor (Z.shiftl (Z.land x 0xff) 24)
               (Z.shiftl (Z.land (Z.shiftr x 8) 0xff) 16))
        (Z.lor (Z.shiftl (Z.land (Z.shiftr x 16) 0xff) 8)
               (Z.land (Z.shiftr x 24) 0xff)).

(** [boost::asio::read] into the [n] bytes of an unsigned variable. *)
Definition read_uint (n : nat) : M Z :=
  bs ← asio_read n; mret (le_combine bs).

(** [data[k]] and [data[k] = v] on a [char*]. *)
Definition byte_at (data : list Z) (k : Z) : Z := default 0 (data !! Z.to_nat k).
Definition set_byte (data : list Z) (k v : Z) : list Z := <[Z.to_nat k := v]> data.

(** [*dp] and [*dp = w] for [dp = (uint32_t* ) (data + i)], four bytes
    inside [data]. *)
Definition load32 (data : list Z) (i : Z) : Z :=
  le_combine (take 4 (drop (Z.to_nat i) data)).
Definition store32 (data : list Z) (i w : Z) : list Z :=
  take (Z.to_nat i) data ++ le_split 4 w ++ drop (Z.to_nat i + 4) data.

(** [while (i <= paylen-4) { *dp = *dp ^ mask; ++dp; i += 4; }].
    [dp] is [data + i] throughout.  The loop runs [paylen / 4] times;
    [fuel] is at least that. *)
Fixpoint unmask_bulk (fuel : nat) (paylen mask i : Z) (data : list Z) : Z * list Z :=
  match fuel with
  | O => (i, data)
  | S fuel' =>
      if i <=? paylen - 4
      then unmask_bulk fuel' paylen mask (i + 4)
             (store32 data i (Z.lxor (load32 data i) mask))
      else (i, data)
  end.

(** [for (unsigned int j=0; j<paylen%4; j++)
       data[i+j] = data[i+j] ^ ((mask >> (8*j)) & 0xff);] *)
Definition unmask_rest (paylen mask i : Z) (data : list Z) : list Z :=
  foldl (fun data j =>
           set_byte data (i + j)
             (to_uchar (Z.lxor (byte_at data (i + j))
                               (Z.land (Z.shiftr mask (8 * j)) 0xff))))
        data (seqZ 0 (Z.rem paylen 4)).

(** The [if (126 == paybyte) ... else if (127 == paybyte) ...] statement
    of [get_websocket_data]: the extended length is read, and the result
    is the value of [paylen] behind the statement.  [paybyte] is an
    [int8_t] holding [mpay & 0x7f]; [lung] is a [uint64_t]. *)
Definition read_paylen (paybyte : Z) : M Z :=
  if paybyte =? 126 then
    shore ← read_uint 2;
    mret (ntohs shore)
  else if paybyte =? 127 then
    lunghi ← read_uint 4;
    lunglo ← read_uint 4;
    let lung := ntohl lunghi in
    let lung := Z.lor (Z.shiftl lung 32 mod 2 ^ 64) (ntohl lunglo) in
    if Z.shiftl 1 40 <? lung then
      logger Warn "Websocket insane length %lu
";;
      throw SilentException
    else mret lung
  else mret paybyte.

(** [std::string ServerSocket::get_websocket_data(void)]; the
    allocation in [blob.resize(paylen+1)] is taken to succeed. *)
Definition get_websocket_data : M (list Z) :=
  mpay ← read_uint 1;
  let maskbit := negb (Z.land mpay 0x80 =? 0) in
  let paybyte := Z.land mpay 0x7f in
  paylen ← read_paylen paybyte;
  if negb maskbit then
    logger Warn "WebSocket received unmasked data!";;
    throw SilentException
  else
    mask ← read_uint 4;
    (* blob.resize(paylen+1); then paylen bytes are read into it *)
    payload ← asio_read (Z.to_nat paylen);
    let data := payload ++ [0] in
    let '(i, data) := unmask_bulk (Z.to_nat paylen) paylen mask 0 data in
    let data := unmask_rest paylen mask i data in
    let data := set_byte data paylen 0x0 in
    mret data.

(** One turn of the [while (9 == opcode or 0xa == opcode)] loop of
    [get_websocket_line]: the payload is read, a ping is answered, and
    the first byte of the next frame is read; the result is the new
    [opcode].  [paylen] is a [size_t], [header[1]] a [char]. *)
Definition ping_turn (opcode : Z) : M Z :=
  pingd ← get_websocket_data;
  (if opcode =? 9 then
     let paylen := (Z.of_nat (length pingd) - 1) mod 2 ^ 64 in
     Send [0x8a; to_uchar paylen];;
     if 0 <? paylen then Send (take (Z.to_nat paylen) pingd)
     else mret tt
   else mret tt);;
  fop ← read_uint 1;
  mret (Z.land fop 0xf).

(** [while (9 == opcode or 0xa == opcode) { ... }].  Every turn takes at
    least two bytes off the socket, so a [fuel] above the number of
    bytes still to arrive is never used up. *)
Fixpoint ping_loop (fuel : nat) (opcode : Z) : M Z :=
  if (opcode =? 9) || (opcode =? 0xa) then
    match fuel with
    | O => fun c => (OutOfFuel, c)
    | S fuel' => opcode ← ping_turn opcode; ping_loop fuel' opcode
    end
  else mret opcode.

(** All bytes of all chunks still to arrive. *)
Fixpoint rx_size (r : list arrival) : nat :=
  match r with
  | [] => 0
  | Bytes bs :: r' => length bs + rx_size r'
  | Fault _ :: r' => rx_size r'
  end.

Definition bytes_to_arrive (c : ctx) : nat :=
  match _socket (this c) with
  | Some s => rx_size (rx s)
  | None => O
  end.

(** The body of [get_websocket_line], its loop bounded by [fuel]. *)
Definition websocket_line (fuel : nat) : M (list Z) :=
  fop ← read_uint 1;
  opcode ← ping_loop fuel (Z.land fop 0xf);
  if opcode =? 8 then
    logger Info "Received WebSocket close";;
    throw SilentException
  else if negb (opcode =? 1) then
    logger Warn "Not expecting binary websocket data; opcode=%d";;
    throw SilentException
  else get_websocket_data.

(** [std::string ServerSocket::get_websocket_line()] *)
Definition get_websocket_line : M (list Z) := fun c =>
  websocket_line (bytes_to_arrive c) c.

(** [void ServerSocket::send_websocket_pong()] *)
Definition send_websocket_pong : M unit :=
  Send [0x8a; 0].

(** [void ServerSocket::send_websocket(const std::string& cmd)];
    [paylen] is a [size_t]. *)
Definition send_websocket (cmd : list Z) : M unit :=
  let paylen := Z.of_nat (length cmd) in
  (if paylen <? 126 then
     Send [0x81; to_uchar paylen]
   else if paylen <? 65536 then
     Send [0x81; 126; Z.land (Z.shiftr paylen 8) 0xff; Z.land paylen 0xff]
   else
     Send [0x81; 127;
           Z.land (Z.shiftr paylen 56) 0xff; Z.land (Z.shiftr paylen 48) 0xff;
           Z.land (Z.shiftr paylen 40) 0xff; Z.land (Z.shiftr paylen 32) 0xff;
           Z.land (Z.shiftr paylen 24) 0xff; Z.land (Z.shiftr paylen 16) 0xff;
           Z.land (Z.shiftr paylen 8) 0xff; Z.land paylen 0xff]);;
  Send (take (Z.to_nat paylen) cmd).

(** The header [send_websocket] writes for a payload of [n] bytes. *)
Definition frame_header (paylen : Z) : list Z :=
  if paylen <? 126 then [0x81; to_uchar paylen]
  else if paylen <? 65536 then
    [0x81; 126; Z.land (Z.shiftr paylen 8) 0xff; Z.land paylen 0xff]
  else
    [0x81; 127;
     Z.land (Z.shiftr paylen 56) 0xff; Z.land (Z.shiftr paylen 48) 0xff;
     Z.land (Z.shiftr paylen 40) 0xff; Z.land (Z.shiftr paylen 32) 0xff;
     Z.land (Z.shiftr paylen 24) 0xff; Z.land (Z.shiftr paylen 16) 0xff;
     Z.land (Z.shiftr paylen 8) 0xff; Z.land paylen 0xff].

(** A method that comes back, with a value or an exception, whatever
    the state: its loops are never cut short. *)
Definition returns {A} (m : M A) : Prop := forall c, fst (m c) <> OutOfFuel.

End WebSocket.

(** * SHA-1

    [WebSocket.cc] calls OpenSSL's [SHA1(d, n, md)], which is not part of
    the sources.  It computes the SHA-1 digest of FIPS 180-4, transcribed
    here from the standard so that the handshake can be evaluated. *)

Module SHA1.

Definition add32 (a b : Z) : Z := (a + b) mod 2 ^ 32.

Definition rotl (n x : Z) : Z :=
  Z.lor (Z.shiftl x n mod 2 ^ 32) (Z.shiftr x (32 - n)).

Definition be_combine (bs : list Z) : Z :=
  foldl (fun acc b => Z.lor (Z.shiftl acc 8) b) 0 bs.

Fixpoint be_split (n : nat) (w : Z) : list Z :=
  match n with
  | O => []
  | S n' => Z.land (Z.shiftr w (8 * Z.of_nat n')) 0xff :: be_split n' w
  end.

(** Message, one [1] bit, zeros up to 56 mod 64, the bit length on 64 bits. *)
Definition pad (msg : list Z) : list Z :=
  let l := Z.of_nat (length msg) in
  msg ++ [0x80] ++ replicate (Z.to_nat ((55 - l) mod 64)) 0 ++ be_split 8 (8 * l).

Fixpoint split_every (k n : nat) (l : list Z) : list (list Z) :=
  match n with
  | O => []
  | S n' => take k l :: split_every k n' (drop k l)
  end.

Definition blocks (m : list Z) : list (list Z) :=
  split_every 64 (length m / 64) m.

Definition words (blk : list Z) : list Z :=
  map be_combine (split_every 4 16 blk).

Definition extend (w : list Z) : list Z :=
  let t := length w in
  w ++ [rotl 1 (Z.lxor (Z.lxor (Z.lxor (w !!! (t - 3)%nat) (w !!! (t - 8)%nat))
                               (w !!! (t - 14)%nat))
                       (w !!! (t - 16)%nat))].

Definition schedule (blk : list Z) : list Z := Nat.iter 64 extend (words blk).

Definition f (t : nat) (b c d : Z) : Z :=
  if (t <? 20)%nat then Z.lor (Z.land b c) (Z.land (Z.lxor b 0xffffffff) d)
  else if (t <? 40)%nat then Z.lxor (Z.lxor b c) d
  else if (t <? 60)%nat then Z.lor (Z.lor (Z.land b c) (Z.land b d)) (Z.land c d)
  else Z.lxor (Z.lxor b c) d.

Definition K (t : nat) : Z :=
  if (t <? 20)%nat then 0x5a827999
  else if (t <? 40)%nat then 0x6ed9eba1
  else if (t <? 60)%nat then 0x8f1bbcdc
  else 0xca62c1d6.

Definition hash_state : Type := Z * Z * Z * Z * Z.

Definition round (st : hash_state) (tw : nat * Z) : hash_state :=
  let '(a, b, c, d, e) := st in
  let '(t, w) := tw in
  let temp := add32 (add32 (add32 (add32 (rotl 5 a) (f t b c d)) e) (K t)) w in
  (temp, a, rotl 30 b, c, d).

Definition compress (h : hash_state) (blk : list Z) : hash_state :=
  let '(h0, h1, h2, h3, h4) := h in
  let '(a, b, c, d, e) := foldl round h (zip (seq 0 80) (schedule blk)) in
  (add32 h0 a, add32 h1 b, add32 h2 c, add32 h3 d, add32 h4 e).

Definition init : hash_state :=
  (0x67452301, 0xefcdab89, 0x98badcfe, 0x10325476, 0xc3d2e1f0).

Definition SHA1 (d : list Z) : list Z :=
  let '(h0, h1, h2, h3, h4) := foldl compress init (blocks (pad d)) in
  be_split 4 h0 ++ be_split 4 h1 ++ be_split 4 h2 ++ be_split 4 h3 ++ be_split 4 h4.

Definition SHA_DIGEST_LENGTH : Z := 20.

End SHA1.

(** * WebSocket handshake ([WebSocket.cc]) *)

Module Handshake.

(** ** The [std::string] operations used *)

Definition npos : Z := 2 ^ 64 - 1.

(** [0 == line.compare(pos, len, str)]: the substring of [line] from [pos],
    of at most [len] characters, equals [str]. *)
Definition compare_eq (line : list Z) (pos len : nat) (str : list Z) : bool :=
  bool_decide (take len (drop pos line) = str).

(** [line.find(ch, pos)] for a one-character needle. *)
Definition find (line : list Z) (ch : Z) (pos : nat) : Z :=
  match list_find (fun c => c = ch) (drop pos line) with
  | Some (k, _) => Z.of_nat (pos + k)
  | None => npos
  end.

(** [line.substr(pos, count)] for [pos <= line.size()] (which holds where
    the handshake calls it, after a successful [compare]): the count is
    cut down to what is left of the string. *)
Definition substr (line : list Z) (pos : nat) (count : Z) : list Z :=
  take (Z.to_nat (Z.min count (Z.of_nat (length line) - Z.of_nat pos)))
       (drop pos line).

(** ** Base64 *)

Definition b64_table : list Z :=
  bytes "ABCDEFGHIJKLMNOPQRSTUVWXYZabcdefghijklmnopqrstuvwxyz0123456789+/".

Definition b64_char (k : Z) : Z := default 0 (b64_table !! Z.to_nat k).

(** [while (valb >= 0) { out.push_back(table[(val>>valb)&0x3F]); valb -= 6; }]
    The loop runs [valb / 6 + 1] times from a [valb >= 0]; [fuel] is at
    least that. *)
Fixpoint b64_emit (fuel : nat) (val valb : Z) (out : list Z) : Z * list Z :=
  match fuel with
  | O => (valb, out)
  | S fuel' =>
      if 0 <=? valb
      then b64_emit fuel' val (valb - 6)
             (out ++ [b64_char (Z.land (Z.shiftr val valb) 0x3F)])
      else (valb, out)
  end.

(** [while (out.size()%4) out.push_back('=');], at most three turns. *)
Fixpoint b64_pad (fuel : nat) (out : list Z) : list Z :=
  match fuel with
  | O => out
  | S fuel' =>
      if negb (Z.of_nat (length out) mod 4 =? 0)
      then b64_pad fuel' (out ++ bytes "=")
      else out
  end.

(** The body of [for (int i=0; i<len; i++)]; [val] is an [unsigned int]. *)
Definition b64_step (st : Z * Z * list Z) (c : Z) : Z * Z * list Z :=
  let '(val, valb, out) := st in
  let val := (Z.shiftl val 8 + c) mod 2 ^ 32 in
  let valb := valb + 8 in
  let '(valb, out) := b64_emit (Z.to_nat (valb + 6)) val valb out in
  (val, valb, out).

(** [static std::string base64_encode(unsigned char* buf, int len)] *)
Definition base64_encode (buf : list Z) (len : Z) : list Z :=
  let '(val, valb, out) := foldl b64_step (0, -6, []) (take (Z.to_nat len) buf) in
  let out :=
    if -6 <? valb
    then out ++ [b64_char (Z.land (Z.shiftr (Z.shiftl val 8 mod 2 ^ 32) (valb + 8)) 0x3F)]
    else out in
  b64_pad 3 out.

(** ** The handshake *)

Definition GUID : list Z := bytes "258EAFA5-E914-47DA-95CA-C5AB0DC85B11".

Definition not_implemented_501 : list Z :=
  bytes "HTTP/1.1 501 Not Implemented" ++ CRLF ++
  bytes "Server: CogServer" ++ CRLF ++
  CRLF.

Definition switching_protocols_101 (b64hash : list Z) : list Z :=
  (bytes "HTTP/1.1 101 Switching Protocols" ++ CRLF ++
   bytes "Upgrade: websocket" ++ CRLF ++
   bytes "Connection: Upgrade" ++ CRLF ++
   bytes "Sec-WebSocket-Accept: ") ++
  b64hash ++
  (CRLF ++ CRLF).

Definition upg : list Z := bytes "Upgrade: websocket".
Definition key : list Z := bytes "Sec-WebSocket-Key: ".

(** [void ServerSocket::HandshakeLine(const std::string& line)] *)
Definition HandshakeLine `{Consumer} (line : list Z) : M unit :=
  ss ← get_this;
  if negb (_got_first_line ss) then
    modify (set_got_first_line true);;
    if negb (compare_eq line 0 4 (bytes "GET ")) then
      Send not_implemented_501;;
      throw SilentException
    else
      modify (set_url (substr line 4 ((find line 32 4 - 4) mod 2 ^ 64)))
  else
    (if negb (_got_http_header ss) && bool_decide (length line = 0%nat)
     then modify (set_got_http_header true)
     else mret tt);;
    ss ← get_this;
    if negb (_got_http_header ss) then
      if compare_eq line 0 (length upg) upg then
        modify (set_got_websock_header true)
      else if compare_eq line 0 (length key) key then
        modify (set_webkey (substr line (length key) npos))
      else mret tt
    else
      OnConnection;;
      ss ← get_this;
      if negb (_got_websock_header ss) then throw SilentException
      else
        modify (fun ss => set_webkey (_webkey ss ++ GUID) ss);;
        ss ← get_this;
        let hash := SHA1.SHA1 (_webkey ss) in
        let b64hash := base64_encode hash SHA1.SHA_DIGEST_LENGTH in
        Send (switching_protocols_101 b64hash);;
        modify (set_do_frame_io true).

(** The lines of a request handed to [HandshakeLine] one after the other. *)
Fixpoint feed `{Consumer} (lines : list (list Z)) : M unit :=
  match lines with
  | [] => mret tt
  | line :: lines' => HandshakeLine line;; feed lines'
  end.

End Handshake.

(** * Connection registry and object lifetime ([ServerSocket.cc]) *)

Module Registry.

(** The process: the live [ServerSocket] objects by address, the static
    [_sock_list] (a [std::set<ServerSocket*>]) and the log.  [_sock_lock]
    serialises the three functions below, each of which is one step here. *)
Record process := {
  heap : gmap Z ServerSocket;
  _sock_list : gset Z;
  plog : list log_entry
}.

Definition start : process := {| heap := ∅; _sock_list := ∅; plog := [] |}.

(** [static void add_sock(ServerSocket* ss)] *)
Definition add_sock (ss : Z) (p : process) : process :=
  {| heap := heap p; _sock_list := {[ss]} ∪ _sock_list p; plog := plog p |}.

(** [static void rem_sock(ServerSocket* ss)] *)
Definition rem_sock (ss : Z) (p : process) : process :=
  {| heap := heap p; _sock_list := _sock_list p ∖ {[ss]}; plog := plog p |}.

(** Calling a method on the object at address [a]. *)
Definition call {A} (a : Z) (m : M A) (p : process) : outcome A * process :=
  match heap p !! a with
  | None => (Undefined, p)
  | Some ss =>
      let '(r, c) := m {| this := ss; logged := plog p |} in
      (r, {| heap := <[a := this c]> (heap p);
             _sock_list := _sock_list p;
             plog := logged c |})
  end.

(** [void ServerSocket::SetCloseAndDelete()]; [_asio_crash] makes it one
    step.  [shutdown] then [close]; a [system_error] from either is caught
    and logged unless it is [not_connected] or [bad_descriptor]. *)
Definition closed (s : tcp_socket) : tcp_socket :=
  {| rx := []; tx := tx s; wr_error := bad_descriptor;
     close_error := Some bad_descriptor |}.

Definition SetCloseAndDelete : M unit :=
  logger Debug "ServerSocket::SetCloseAndDelete()";;
  ss ← get_this;
  match _socket ss with
  | None => fun c => (Undefined, c)
  | Some s =>
      match close_error s with
      | None => modify (set_socket (Some (closed s)))
      | Some e =>
          if bool_decide (e ≠ not_connected) && bool_decide (e ≠ bad_descriptor)
          then logger Error "ServerSocket::handle_connection(): Error closing socket: %s"
          else mret tt
      end
  end.

(** [void ServerSocket::set_connection(boost::asio::ip::tcp::socket* sock)] *)
Definition set_connection (sock : tcp_socket) : M unit :=
  modify (set_socket (Some sock)).

(** The constructor's effect on the object: the members it assigns; the
    others keep what the storage [raw] held ([ServerSocket.h], with their
    initialisers, is not part of the sources).  [now] is [time(nullptr)]. *)
Definition constructed (now : Z) (raw : ServerSocket) : ServerSocket :=
  set_status "start" (set_tid 0 (set_start_time now (set_socket None raw))).

(** [new ServerSocket] yielding address [a]: [ServerSocket::ServerSocket()]
    runs on fresh storage and ends with [add_sock(this)].  An allocator
    does not hand out the storage of a live object. *)
Definition new_ServerSocket (a now : Z) (raw : ServerSocket) (p : process)
  : outcome unit * process :=
  if decide (a ∈ dom (heap p)) then (Undefined, p)
  else (Ok tt, add_sock a {| heap := <[a := constructed now raw]> (heap p);
                             _sock_list := _sock_list p;
                             plog := plog p |}).

(** The destructor up to [rem_sock]. *)
Definition destructor_body : M unit :=
  modify (set_status "close");;
  logger Debug "ServerSocket::~ServerSocket()";;
  SetCloseAndDelete;;
  modify (set_socket None).

(** [delete ss] (as [delete this] at the end of [handle_connection]):
    [ServerSocket::~ServerSocket()] runs, ends with [rem_sock(this)], and
    the storage is released. *)
Definition delete_ServerSocket (a : Z) (p : process) : outcome unit * process :=
  match call a destructor_body p with
  | (Ok _, p') =>
      let p'' := rem_sock a p' in
      (Ok tt, {| heap := delete a (heap p'');
                 _sock_list := _sock_list p'';
                 plog := plog p'' |})
  | (r, p') => (r, p')
  end.

Section Stats.

(** [strftime(buff, 20, "%d %b %H:%M:%S", gmtime_r(t))] and the [%8d] of
    [snprintf]: the C library's formatting. *)
Variable strftime_gm : Z -> list Z.
Variable fmt_8d : Z -> list Z.

(** [std::string ServerSocket::connection_header(void)] *)
Definition connection_header : list Z := bytes "DATE             THREAD STATE".

(** [std::string ServerSocket::connection_stats(void)]; [snprintf] into
    [char bf[60]] keeps at most 59 characters. *)
Definition connection_stats (ss : ServerSocket) : list Z :=
  take 59 (strftime_gm (_start_time ss) ++ bytes " " ++
           fmt_8d (_tid ss) ++ bytes " " ++ bytes (_status ss)).

(** The body of [for (ServerSocket* ss : _sock_list)]; a pointer to a dead
    object has no meaning. *)
Definition stats_row (p : process) (acc : option (list Z * bool)) (a : Z)
  : option (list Z * bool) :=
  '(rc, hdr) ← acc;
  ss ← heap p !! a;
  let rc := if negb hdr then rc ++ connection_header ++ [10] else rc in
  Some (rc ++ connection_stats ss ++ [10], true).

(** [std::string ServerSocket::display_stats(void)]: the set is walked in
    the order of the pointers. *)
Definition display_stats (p : process) : outcome (list Z) :=
  match foldl (stats_row p) (Some ([], false))
              (merge_sort Z.le (elements (_sock_list p))) with
  | Some (rc, _) => Ok rc
  | None => Undefined
  end.

End Stats.

(** ** Lifetimes as traces *)

Inductive event :=
  | New (a now : Z) (raw : ServerSocket)
  | SetConnection (a : Z) (sock : tcp_socket)
  | Delete (a : Z).

Definition step (e : event) (p : process) : outcome unit * process :=
  match e with
  | New a now raw => new_ServerSocket a now raw p
  | SetConnection a sock => call a (set_connection sock) p
  | Delete a => delete_ServerSocket a p
  end.

(** A connection: its address, creation time, storage and socket. *)
Definition connection : Type := Z * Z * ServerSocket * tcp_socket.

Definition address (k : connection) : Z := k.1.1.1.

(** The listener creates the object and installs the accepted socket. *)
Definition open_connection (k : connection) : list event :=
  let '(a, now, raw, sock) := k in [New a now raw; SetConnection a sock].

(** [conns] are created, then closed in the order [closing]. *)
Definition lifetimes (conns : list connection) (closing : list Z) : list event :=
  concat (map open_connection conns) ++ map Delete closing.

Fixpoint run (evs : list event) (p : process) : outcome unit * process :=
  match evs with
  | [] => (Ok tt, p)
  | e :: evs' =>
      match step e p with
      | (Ok _, p') => run evs' p'
      | (r, p') => (r, p')
      end
  end.

(** Whether the object at [a] is between the end of its constructor and
    its destructor once [evs] have happened, given whether it was
    [before]. *)
Definition lives (evs : list event) (a : Z) (before : bool) : bool :=
  foldl (fun b e =>
           match e with
           | New a' _ _ => if decide (a' = a) then true else b
           | Delete a' => if decide (a' = a) then false else b
           | SetConnection _ _ => b
           end) before evs.

(** The registry holds exactly the addresses of the live objects. *)
Definition registered_iff_live (p : process) : Prop :=
  _sock_list p = dom (heap p).

(** Every live object has its socket installed. *)
Definition all_connected (p : process) : Prop :=
  forall a ss, heap p !! a = Some ss -> is_Some (_socket ss).

End Registry.

(** * The read loop ([ServerSocket.cc]) *)

Module Connection.
Import Scanner.

(** [boost::asio::read_until(socket, b, match_condition)], from the Boost
    documentation: the condition is tried on the buffered bytes from
    [search_position] on; without a match the next receive is appended to
    [b] and the condition is tried again from where it stopped.  The
    result is the count of bytes up to the match, or the error thrown;
    [b] keeps what was received in either case. *)
Fixpoint read_until (r : list arrival) (b : list Z) (search_position : nat)
  : (nat + error_code) * list arrival * list Z :=
  let '(i, found) := match_eol_or_escape (drop search_position b) in
  if found then (inl (search_position + i)%nat, r, b)
  else match r with
       | [] => (inr eof, [], b)
       | Fault ec :: r' => (inr ec, r', b)
       | Bytes bs :: r' => read_until r' (b ++ bs) (search_position + i)%nat
       end.

(** [std::istream is(&b); std::getline(is, line);]: the characters up to
    the first line feed, which is taken off the buffer and dropped; the
    whole buffer when there is none. *)
Definition getline (b : list Z) : list Z * list Z :=
  match list_find (fun c => c = 10) b with
  | Some (k, _) => (take k b, drop (S k) b)
  | None => (b, [])
  end.

(** [if (not line.empty() and line[line.length()-1] == '\r')
       line.erase(line.end()-1);] *)
Definition chomp_cr (line : list Z) : list Z :=
  if bool_decide (line ≠ []) && bool_decide (last line = Some 13)
  then take (length line - 1) line
  else line.

Inductive flow := Continue | Break | Escapes (e : exn) | Stuck | Fuel.

(** The [catch (const boost::system::system_error& e)] clause. *)
Definition catch_system_error (ec : error_code) (c : ctx) : flow * ctx :=
  if decide (ec = eof) then (Break, c)
  else if decide (ec = connection_reset) then (Break, c)
  else if decide (ec = not_connected) then (Break, c)
  else (Continue,
        add_log (Error, "ServerSocket::handle_connection(): Error reading data. Message: %s"%string) c).

(** One turn of [while (true)]: the [try] block and its handler.  [b] is
    the [streambuf], declared outside the loop. *)
Definition loop_body `{Consumer} (b : list Z) (c : ctx) : flow * list Z * ctx :=
  let c := on_this (set_status "iwait") c in
  match _socket (this c) with
  | None => (Stuck, b, c)
  | Some s =>
      let '(res, r', b) := read_until (rx s) b 0 in
      let c := with_rx r' c in
      match res with
      | inr ec => let '(fl, c) := catch_system_error ec c in (fl, b, c)
      | inl _ =>
          let '(line, b) := getline b in
          let line := chomp_cr line in
          let c := on_this (set_status " run ") c in
          match OnLine line c with
          | (Ok _, c) => (Continue, b, c)
          | (Throw (system_error ec), c) =>
              let '(fl, c) := catch_system_error ec c in (fl, b, c)
          | (Throw e, c) => (Escapes e, b, c)
          | (Undefined, c) => (Stuck, b, c)
          | (OutOfFuel, c) => (Fuel, b, c)
          end
      end
  end.

(** [while (true) { ... }], left by [break] or by an exception the
    handler does not catch. *)
Fixpoint loop `{Consumer} (fuel : nat) (b : list Z) (c : ctx) : outcome (list Z) * ctx :=
  match fuel with
  | O => (OutOfFuel, c)
  | S fuel' =>
      match loop_body b c with
      | (Continue, b', c') => loop fuel' b' c'
      | (Break, b', c') => (Ok b', c')
      | (Escapes e, _, c') => (Throw e, c')
      | (Stuck, _, c') => (Undefined, c')
      | (Fuel, _, c') => (OutOfFuel, c')
      end
  end.

(** What is still to arrive bounds the turns of the loop: every turn
    takes an arrival or a buffered byte. *)
Fixpoint rx_weight (r : list arrival) : nat :=
  match r with
  | [] => 0
  | Bytes bs :: r' => S (length bs + rx_weight r')
  | Fault _ :: r' => S (rx_weight r')
  end.

(** [void ServerSocket::handle_connection(void)] up to its last statement,
    [delete this]; [tid] is [gettid()]. *)
Definition handle_connection `{Consumer} (tid : Z) : M unit :=
  modify (set_tid tid);;
  logger Debug "ServerSocket::handle_connection()";;
  OnConnection;;
  ss ← get_this;
  let fuel := match _socket ss with
              | Some s => S (rx_weight (rx s))
              | None => 1%nat
              end in
  b ← loop fuel [];
  let '(line, _) := getline b in
  let line := chomp_cr line in
  (if bool_decide (line ≠ []) then OnLine line else mret tt);;
  logger Debug "ServerSocket::exiting handle_connection()".

(** [handle_connection] run by the thread of the connection at [a],
    with the [delete this] that ends it. *)
Definition serve `{Consumer} (a tid : Z) (p : Registry.process)
  : outcome unit * Registry.process :=
  match Registry.call a (handle_connection tid) p with
  | (Ok _, p') => Registry.delete_ServerSocket a p'
  | (r, p') => (r, p')
  end.

(** The errors on which the loop is left quietly. *)
Definition benign (ec : error_code) : bool :=
  bool_decide (ec = eof) || bool_decide (ec = connection_reset) ||
  bool_decide (ec = not_connected).

(** The line the handler logs for the others. *)
Definition reading_error : log_entry :=
  (Error, "ServerSocket::handle_connection(): Error reading data. Message: %s"%string).

(** What is still to arrive on the socket of [c], as a bound. *)
Definition weight (c : ctx) : nat :=
  match _socket (this c) with
  | Some s => rx_weight (rx s)
  | None => O
  end.

(** A consumer whose [OnLine] comes back and leaves the inbound stream
    alone. *)
Definition tame (H : Consumer) : Prop :=
  forall line c r c',
    OnLine line c = (r, c') -> r <> OutOfFuel /\ (weight c' <= weight c)%nat.

(** A consumer that sends every line back, and nothing on connection. *)
Definition echo : Consumer :=
  {| OnConnection := mret tt; OnLine := fun line => Send line |}.

End Connection.

(** * Sample objects *)

Module Sample.

Definition blank : ServerSocket :=
  {| _socket := None; _start_time := 0; _tid := 0; _status := "";
     _got_first_line := false; _got_http_header := false;
     _got_websock_header := false; _do_frame_io := false;
     _url := []; _webkey := [] |}.

Definition idle : tcp_socket :=
  {| rx := []; tx := []; wr_error := success; close_error := None |}.

(** A healthy socket on which [r] is still to arrive. *)
Definition sample_socket (r : list arrival) : tcp_socket :=
  {| rx := r; tx := []; wr_error := success; close_error := None |}.

(** A connection just accepted, with an empty log. *)
Definition sample_ctx (r : list arrival) : ctx :=
  {| this := {| _socket := Some (sample_socket r);
                _start_time := 0; _tid := 0; _status := "start";
                _got_first_line := false; _got_http_header := false;
                _got_websock_header := false; _do_frame_io := false;
                _url := []; _webkey := [] |};
     logged := [] |}.

(** The text "hello" as a client sends it, masked with 37 fa 21 3d. *)
Definition hello_frame : list Z :=
  [0x81; 0x85; 0x37; 0xfa; 0x21; 0x3d; 0x5f; 0x9f; 0x4d; 0x51; 0x58].

(** Behind the first byte of a frame: a masked header declaring
    2^40 + 1 payload bytes, then the mask key and one payload byte. *)
Definition oversize_tail : list Z :=
  [0xff; 0; 0; 1; 0; 0; 0; 0; 1] ++ [0x37; 0xfa; 0x21; 0x3d; 0x5f].

(** Behind the first byte of a frame: "hello" masked with 37 fa 21 3d,
    its length 5 declared in the 16-bit form. *)
Definition hello_tail_16 : list Z :=
  [0xfe; 0; 5] ++ [0x37; 0xfa; 0x21; 0x3d; 0x5f; 0x9f; 0x4d; 0x51; 0x58].


End Sample.

(** * Frames on the wire

    The vocabulary in which the codec is specified: what RFC 6455 and the
    specification say a frame is, independently of the decoder. *)

Module Wire.

Definition is_byte (b : Z) : Prop := 0 <= b < 256.

Global Instance is_byte_dec b : Decision (is_byte b).
Proof. unfold is_byte. apply _. Defined.

(** The number written big-endian as the bytes [bs]. *)
Definition be_value (bs : list Z) : Z := foldl (fun acc b => acc * 256 + b) 0 bs.

(** Masking: byte [k] of the payload XOR byte [k mod 4] of the key. *)
Definition xor_mask (key payload : list Z) : list Z :=
  imap (fun k b => Z.lxor b (default 0 (key !! (k mod 4)%nat))) payload.

(** The payload length a header declares: a length code of at most 125 is
    the length; 126 is followed by two bytes, 127 by eight, holding it
    big-endian. *)
Definition declared_length (code : Z) (ext : list Z) : option Z :=
  if code <=? 125 then
    if bool_decide (ext = []) then Some code else None
  else if code =? 126 then
    if bool_decide (length ext = 2%nat) then Some (be_value ext) else None
  else if code =? 127 then
    if bool_decide (length ext = 8%nat) then Some (be_value ext) else None
  else None.

(** The bytes of the header of an unmasked frame: two, four or ten. *)
Definition header_length (frame : list Z) : nat :=
  match frame with
  | _ :: b1 :: _ =>
      if Z.land b1 0x7f =? 126 then 4%nat
      else if Z.land b1 0x7f =? 127 then 10%nat
      else 2%nat
  | _ => length frame
  end.

(** What a client does to send an unmasked frame as its own: it sets the
    mask bit, puts the key behind the header and masks the payload. *)
Definition client_mask (key frame : list Z) : list Z :=
  match take (header_length frame) frame with
  | b0 :: b1 :: ext =>
      b0 :: Z.lor b1 0x80 :: ext ++ key ++
      xor_mask key (drop (header_length frame) frame)
  | short => short
  end.

(** All the bytes written to the socket so far. *)
Definition sent (c : ctx) : list Z :=
  match _socket (this c) with
  | Some s => concat (tx s)
  | None => []
  end.

(** The buffers written to the socket so far. *)
Definition sends (c : ctx) : list (list Z) :=
  match _socket (this c) with
  | Some s => tx s
  | None => []
  end.

(** [text] is sent by [send_websocket], masked by the client with [key]
    and given back to the server, which has read the first byte and
    decodes the rest with [get_websocket_data]. *)
Definition round_trip (key text : list Z) : outcome (list Z) :=
  let frame := sent (snd (WebSocket.send_websocket text (Sample.sample_ctx []))) in
  let back := client_mask key frame in
  fst (WebSocket.get_websocket_data (Sample.sample_ctx [Bytes (drop 1 back)])).

(** [c] after one more buffer has been written. *)
Definition with_sent (buf : list Z) (c : ctx) : ctx :=
  match _socket (this c) with
  | Some s => on_this (set_socket (Some (set_tx (tx s ++ [buf]) s))) c
  | None => c
  end.

(** [c] after the answer to a ping of payload [payload]: the two-byte
    header, and the payload when there is one. *)
Definition with_pong (payload : list Z) (c : ctx) : ctx :=
  let c1 := with_sent [0x8a; to_uchar (Z.of_nat (length payload))] c in
  if bool_decide (payload = []) then c1 else with_sent payload c1.

(** The warning logged for a length above 2^40. *)
Definition insane_length : log_entry := (Warn, "Websocket insane length %lu
"%string).


(** A frame as a client puts it on the wire, in its parts: the first
    byte, the byte with the mask bit and the length code, the extended
    length, the mask key, and the payload as masked. *)
Record wire_frame := {
  f_fop : Z;
  f_mpay : Z;
  f_ext : list Z;
  f_key : list Z;
  f_data : list Z
}.


Definition opcode_of (f : wire_frame) : Z := Z.land (f_fop f) 0xf.


(** A frame the decoder reads to its end: the mask bit is set, the key
    has four bytes, and the length declared, of at most 2^40, is that of
    the data. *)
Definition accepted (f : wire_frame) : Prop :=
  Z.land (f_mpay f) 0x80 <> 0 /\
  declared_length (Z.land (f_mpay f) 0x7f) (f_ext f) = Some (Z.of_nat (length (f_data f))) /\
  Z.of_nat (length (f_data f)) <= 2 ^ 40 /\
  length (f_key f) = 4%nat.

Global Instance accepted_dec f : Decision (accepted f).
Proof. unfold accepted. apply _. Defined.

(** A ping or a pong. *)
Definition is_control (f : wire_frame) : Prop := opcode_of f = 9 \/ opcode_of f = 0xa.

Global Instance is_control_dec f : Decision (is_control f).
Proof. unfold is_control. apply _. Defined.


(** No control frame stands at the head of [bs]. *)
Definition other_first (bs : list Z) : Prop :=
  match bs with
  | fop :: _ => Z.land fop 0xf <> 9 /\ Z.land fop 0xf <> 0xa
  | [] => True
  end.

Global Instance other_first_dec bs : Decision (other_first bs).
Proof. unfold other_first. destruct bs; apply _. Defined.

End Wire.

(** * Further vocabulary

    Descriptions of streams, frames and requests that do not depend on
    the code they are compared with in the later parts of the file. *)

Module Reference.
Import Scanner.

(** ** Streams *)

(** A byte of ordinary text: no line feed, no EOT, no IAC. *)
Definition plain (c : Z) : Prop := c <> 10 /\ c <> 4 /\ c <> 0xff.

Global Instance plain_dec c : Decision (plain c).
Proof. unfold plain. apply _. Defined.

(** Byte [k] of [bs] ends a unit: it is a line feed, an EOT (ctrl-D), or
    a byte of at most 0xF0 with an IAC somewhere before it. *)
Definition ends_unit (bs : list Z) (k : nat) : Prop :=
  match bs !! k with
  | Some c => c = 10 \/ c = 4 \/ (c <= 0xf0 /\ IAC ∈ take k bs)
  | None => False
  end.

Global Instance ends_unit_dec bs k : Decision (ends_unit bs k).
Proof. unfold ends_unit. destruct (bs !! k); apply _. Defined.

(** How a stream that runs dry ends: the error the receive that finds it
    dry reports ([eof] once the peer has closed), and what is left to
    arrive behind it. *)
Fixpoint ending (r : list arrival) : error_code * list arrival :=
  match r with
  | [] => (eof, [])
  | Fault ec :: r' => (ec, r')
  | Bytes _ :: r' => ending r'
  end.

(** All the bytes of a stream, the transport's errors left out. *)
Fixpoint all_bytes (r : list arrival) : list Z :=
  match r with
  | [] => []
  | Bytes bs :: r' => bs ++ all_bytes r'
  | Fault _ :: r' => all_bytes r'
  end.

(** The errors of a stream, in order. *)
Fixpoint faults (r : list arrival) : list error_code :=
  match r with
  | [] => []
  | Bytes _ :: r' => faults r'
  | Fault ec :: r' => ec :: faults r'
  end.

(** Lines of text with their line feeds, and what follows the last. *)
Definition text_stream (lines : list (list Z)) (tail : list Z) : list Z :=
  concat (map (fun l => l ++ [10]) lines) ++ tail.

(** What is still to be read on the socket of [c] before the stream
    breaks. *)
Definition unread (c : ctx) : list Z :=
  match _socket (this c) with
  | Some s => pending (rx s)
  | None => []
  end.

(** ** Log entries *)

(** The warning [Send] logs for a write error it does not take for
    harmless. *)
Definition send_warning : log_entry :=
  (Warn, "ServerSocket::Send(): %s on thread 0x%x
Attempted to send: %s"%string).

(** What [SetCloseAndDelete] logs when closing the socket fails. *)
Definition closing_error : log_entry :=
  (Error, "ServerSocket::handle_connection(): Error closing socket: %s"%string).

(** The warning for a frame whose mask bit is clear. *)
Definition unmasked_data : log_entry :=
  (Warn, "WebSocket received unmasked data!"%string).

(** The write errors that only tell that the peer has gone. *)
Definition peer_gone_error (e : error_code) : Prop :=
  e ∈ [not_connected; broken_pipe; bad_descriptor; connection_reset].

Global Instance peer_gone_error_dec e : Decision (peer_gone_error e).
Proof. unfold peer_gone_error. apply _. Defined.

(** What a failed write leaves in the log. *)
Definition write_failure (e : error_code) : list log_entry :=
  if decide (peer_gone_error e) then [] else [send_warning].

(** ** Frames *)

(** What a client puts on the wire to send [text] under the mask [key]:
    the frame [send_websocket] writes, masked. *)
Definition client_frame (key text : list Z) : list Z :=
  Wire.client_mask key
    (Wire.sent (snd (WebSocket.send_websocket text (Sample.sample_ctx [])))).

(** A message a client may send, as a key and a text: four key bytes,
    and a text of bytes no longer than the decoder accepts. *)
Definition sendable (m : list Z * list Z) : Prop :=
  length m.1 = 4%nat /\ Forall Wire.is_byte m.1 /\ Forall Wire.is_byte m.2 /\
  Z.of_nat (length m.2) <= 2 ^ 40.

Global Instance sendable_dec m : Decision (sendable m).
Proof. unfold sendable. apply _. Defined.

(** [n] calls of [get_websocket_line], one after the other. *)
Fixpoint read_units (n : nat) : M (list (list Z)) :=
  match n with
  | O => mret []
  | S n' =>
      u ← WebSocket.get_websocket_line;
      us ← read_units n';
      mret (u :: us)
  end.

(** A control frame as a client sends it, given as (ping?, key,
    payload): a ping (opcode 9) or a pong (opcode 0xa) with the FIN bit,
    the payload length with the mask bit, the key and the masked
    payload. *)
Definition control_frame (k : bool * list Z * list Z) : list Z :=
  let '(ping, key, payload) := k in
  (if ping then 0x89 else 0x8a) :: Z.lor (Z.of_nat (length payload)) 0x80
    :: key ++ Wire.xor_mask key payload.

(** A control frame within the limits of RFC 6455: four key bytes and at
    most 125 payload bytes. *)
Definition controlling (k : bool * list Z * list Z) : Prop :=
  length k.1.2 = 4%nat /\ Forall Wire.is_byte k.1.2 /\ Forall Wire.is_byte k.2 /\
  Z.of_nat (length k.2) <= 125.

Global Instance controlling_dec k : Decision (controlling k).
Proof. unfold controlling. apply _. Defined.

(** The pong frames that answer the pings among [ks]. *)
Definition pongs (ks : list (bool * list Z * list Z)) : list Z :=
  concat (map (fun k : bool * list Z * list Z =>
                 if k.1.1 then 0x8a :: Z.of_nat (length k.2) :: k.2 else []) ks).

(** ** Base64 *)

(** Base64 as RFC 4648 defines it: three bytes give four characters of
    the alphabet, six bits each; one or two bytes left over give two or
    three characters, zero bits filling the last, and padding
    characters up to four. *)
Fixpoint rfc4648 (buf : list Z) : list Z :=
  match buf with
  | a :: b :: c :: rest =>
      [Handshake.b64_char (a / 4); Handshake.b64_char (a mod 4 * 16 + b / 16);
       Handshake.b64_char (b mod 16 * 4 + c / 64); Handshake.b64_char (c mod 64)]
      ++ rfc4648 rest
  | [a; b] =>
      [Handshake.b64_char (a / 4); Handshake.b64_char (a mod 4 * 16 + b / 16);
       Handshake.b64_char (b mod 16 * 4)] ++ bytes "="
  | [a] => [Handshake.b64_char (a / 4); Handshake.b64_char (a mod 4 * 16)] ++ bytes "=="
  | [] => []
  end.

(** ** Requests *)

(** A header line that asks for the upgrade, or that carries the key:
    the line starts with the header, case and spacing as written. *)
Definition is_upgrade_line (l : list Z) : Prop :=
  take (length Handshake.upg) l = Handshake.upg.

Definition is_key_line (l : list Z) : Prop :=
  take (length Handshake.key) l = Handshake.key.

Global Instance is_upgrade_line_dec l : Decision (is_upgrade_line l).
Proof. unfold is_upgrade_line. apply _. Defined.

Global Instance is_key_line_dec l : Decision (is_key_line l).
Proof. unfold is_key_line. apply _. Defined.

(** The key a header offers: what follows the key header on the last
    line that starts with it; [k0] when there is none. *)
Definition offered_key (k0 : list Z) (hs : list (list Z)) : list Z :=
  foldl (fun k l => if decide (is_key_line l) then drop (length Handshake.key) l else k)
        k0 hs.

(** A line of the header proper: not the empty line that ends it, and of
    a length a [std::string] can have. *)
Definition header_line (l : list Z) : Prop :=
  l <> [] /\ Z.of_nat (length l) < 2 ^ 64.

Global Instance header_line_dec l : Decision (header_line l).
Proof. unfold header_line. apply _. Defined.

(** What the header lines [hs] leave in the object. *)
Definition noted (hs : list (list Z)) (ss : ServerSocket) : ServerSocket :=
  set_webkey (offered_key (_webkey ss) hs)
    (set_got_websock_header
       (_got_websock_header ss || bool_decide (Exists is_upgrade_line hs)) ss).

(** ** Consumers *)

(** A consumer that ends the connection on the first unit it is handed,
    the way the hooks are told to: by throwing [SilentException]. *)
Definition hangup : Consumer :=
  {| OnConnection := mret tt; OnLine := fun _ => throw SilentException |}.

(** ** Sample data *)

(** Two connections opened one after the other, the higher address
    first. *)
Definition two_open : Registry.process :=
  snd (Registry.run
         (Registry.lifetimes [(96, 5, Sample.blank, Sample.idle);
                              (32, 6, Sample.blank, Sample.idle)] [])
         Registry.start).

(** A clock and a number format that always print the same. *)
Definition fixed_date (_ : Z) : list Z := bytes "01 Jan 00:00:00".
Definition fixed_tid (_ : Z) : list Z := bytes "       0".

(** A socket whose [close] fails with an error of its own, and one whose
    peer has gone. *)
Definition failing_close : tcp_socket :=
  {| rx := []; tx := []; wr_error := success; close_error := Some (errc 5) |}.

Definition peer_gone : tcp_socket :=
  {| rx := []; tx := []; wr_error := broken_pipe; close_error := None |}.

(** A socket whose writes fail with an error of their own. *)
Definition failing_write : tcp_socket :=
  {| rx := []; tx := []; wr_error := errc 28; close_error := None |}.

(** A process with the one object [ss], at address 64. *)
Definition one_object (ss : ServerSocket) : Registry.process :=
  {| Registry.heap := {[ 64 := ss ]};
     Registry._sock_list := {[ 64 ]};
     Registry.plog := [] |}.

(** A session of text: a line ended by CR LF, an empty line, a timeout
    reported by the transport in the middle of a line, and text without
    a line feed before the peer closes. *)
Definition text_session : list arrival :=
  [Bytes (bytes "he");
   Bytes (bytes "llo" ++ [13; 10; 10] ++ bytes "wor");
   Fault (errc 110);
   Bytes (bytes "ld" ++ [10] ++ bytes "bye")].

(** A ping carrying two bytes, a pong, and the text [hello]. *)
Definition control_session : list arrival :=
  [Bytes (control_frame (true, [0x37; 0xfa; 0x21; 0x3d], bytes "hi"));
   Bytes (control_frame (false, [1; 2; 3; 4], []));
   Bytes (client_frame [9; 8; 7; 6] (bytes "hello"))].




(** Two text frames, the head of a close frame behind them. *)
Definition two_texts : list arrival :=
  [Bytes (client_frame [0x37; 0xfa; 0x21; 0x3d] (bytes "hi"));
   Bytes (client_frame [1; 2; 3; 4] (bytes "yo") ++ [0x88])].

(** The header of a request for the upgrade, the key before the upgrade
    line and other lines between; and a header that asks for the upgrade
    in lower case only. *)
Definition upgrade_headers : list (list Z) :=
  [bytes "Host: example.org";
   bytes "Sec-WebSocket-Key: dGhlIHNhbXBsZSBub25jZQ==";
   bytes "Origin: null";
   bytes "Upgrade: websocket"].

Definition other_headers : list (list Z) :=
  [bytes "Host: example.org"; bytes "upgrade: websocket"].

End Reference.

(** * Checks of the embedding on known values *)

Module Checks.
Import Scanner SHA1 Handshake.

Example scan_lf : match_eol_or_escape (bytes "ab" ++ [10] ++ bytes "cd") = (3%nat, true).
Proof. reflexivity. Qed.

Example scan_none : match_eol_or_escape (bytes "abcd") = (4%nat, false).
Proof. reflexivity. Qed.

Example scan_iac_ip : match_eol_or_escape [0x61; 0xff; 0xf4; 0xff; 0xfd; 0x06] = (6%nat, true).
Proof. reflexivity. Qed.

(** FIPS 180 test vector: the digest of "abc". *)
Example sha1_abc :
  SHA1 (bytes "abc") =
  [0xa9; 0x99; 0x3e; 0x36; 0x47; 0x06; 0x81; 0x6a; 0xba; 0x3e;
   0x25; 0x71; 0x78; 0x50; 0xc2; 0x6c; 0x9c; 0xd0; 0xd8; 0x9d].
Proof. vm_compute. reflexivity. Qed.

(** FIPS 180 test vector: a message of 56 bytes, two blocks after padding. *)
Example sha1_two_blocks :
  SHA1 (bytes "abcdbcdecdefdefgefghfghighijhijkijkljklmklmnlmnomnopnopq") =
  [0x84; 0x98; 0x3e; 0x44; 0x1c; 0x3b; 0xd2; 0x6e; 0xba; 0xae;
   0x4a; 0xa1; 0xf9; 0x51; 0x29; 0xe5; 0xe5; 0x46; 0x70; 0xf1].
Proof. vm_compute. reflexivity. Qed.

Example base64_foobar : base64_encode (bytes "foobar") 6 = bytes "Zm9vYmFy".
Proof. vm_compute. reflexivity. Qed.

Example base64_fo : base64_encode (bytes "fo") 2 = bytes "Zm8=".
Proof. vm_compute. reflexivity. Qed.

Example base64_f : base64_encode (bytes "f") 1 = bytes "Zg==".
Proof. vm_compute. reflexivity. Qed.

(** The reply "pong-test" on the wire: 81 09 and the nine characters. *)
Example send_pong_test :
  Wire.sent (snd (WebSocket.send_websocket (bytes "pong-test") (Sample.sample_ctx [])))
  = [0x81; 0x09] ++ bytes "pong-test".
Proof. reflexivity. Qed.

(** A telnet session: a line ended by CR LF, then an interrupt
    (IAC IP) with no line feed behind it, then the peer closes.  The
    line is echoed without its CR; what is left in the buffer when the
    loop ends is handed on as a last unit. *)
Example handle_connection_echo :
  Wire.sends (snd (@Connection.handle_connection Connection.echo 42
                     (Sample.sample_ctx [Bytes (bytes "ls" ++ CRLF); Bytes [0xff; 0xf4]])))
  = [bytes "ls"; [0xff; 0xf4]].
Proof. reflexivity. Qed.

End Checks.

(** * Running methods *)

Module MonadFacts.

Lemma bind_ok {A B} (m : M A) (f : A -> M B) c a c' :
  m c = (Ok a, c') -> (m ≫= f) c = f a c'.
Proof. intros H. unfold mbind, M_bind. rewrite H. reflexivity. Qed.

Lemma bind_throw {A B} (m : M A) (f : A -> M B) c e c' :
  m c = (Throw e, c') -> (m ≫= f) c = (Throw e, c').
Proof. intros H. unfold mbind, M_bind. rewrite H. reflexivity. Qed.

Lemma bind_inv_ok {A B} (m : M A) (f : A -> M B) c b c' :
  (m ≫= f) c = (Ok b, c') ->
  exists a c1, m c = (Ok a, c1) /\ f a c1 = (Ok b, c').
Proof.
  unfold mbind, M_bind. destruct (m c) as [[a| | |] c1]; try discriminate.
  eauto.
Qed.

Lemma bind_assoc {A B C} (m : M A) (f : A -> M B) (g : B -> M C) c :
  ((m ≫= f) ≫= g) c = (m ≫= (fun a => f a ≫= g)) c.
Proof. unfold mbind, M_bind. destruct (m c) as [[a| | |] c1]; reflexivity. Qed.

Lemma bind_ext {A B} (m : M A) (f g : A -> M B) c :
  (forall a c1, m c = (Ok a, c1) -> f a c1 = g a c1) ->
  (m ≫= f) c = (m ≫= g) c.
Proof.
  intros H. unfold mbind, M_bind. destruct (m c) as [[a| | |] c1]; auto.
Qed.

End MonadFacts.

(** * Scanner lemmas *)

Module ScannerFacts.
Import Scanner.

Lemma scan_offset tm i bs :
  scan tm i bs = (i + fst (scan tm 0 bs), snd (scan tm 0 bs))%nat.
Proof.
  revert tm i. induction bs as [|c bs IH]; intros tm i; simpl.
  - f_equal. lia.
  - destruct ((c =? 10) || (c =? 4) || _) eqn:E.
    + simpl. f_equal. lia.
    + rewrite (IH _ (S i)), (IH _ 1%nat). simpl. f_equal. lia.
Qed.

Lemma scan_bound tm i bs : (i <= fst (scan tm i bs) <= i + length bs)%nat.
Proof.
  revert tm i. induction bs as [|c bs IH]; intros tm i; simpl; [lia|].
  destruct ((c =? 10) || (c =? 4) || _); simpl; [lia|].
  specialize (IH (if c =? IAC then true else tm) (S i)). lia.
Qed.

Lemma scan_no_match_end tm i bs :
  snd (scan tm i bs) = false -> fst (scan tm i bs) = (i + length bs)%nat.
Proof.
  revert tm i. induction bs as [|c bs IH]; intros tm i; simpl; [lia|].
  destruct ((c =? 10) || (c =? 4) || _); simpl; [discriminate|].
  intros H. rewrite (IH _ _ H). lia.
Qed.

(** The part of the range behind the returned iterator is never looked at. *)
Lemma scan_prefix tm i bs :
  snd (scan tm i bs) = true ->
  forall tail, scan tm i (take (fst (scan tm i bs) - i) bs ++ tail) = scan tm i bs.
Proof.
  revert tm i. induction bs as [|c bs IH]; intros tm i; simpl; [discriminate|].
  destruct ((c =? 10) || (c =? 4) || _) eqn:E; simpl; intros H tail.
  - replace (S i - i)%nat with 1%nat by lia. simpl. rewrite E. reflexivity.
  - set (tm' := if c =? IAC then true else tm) in *.
    pose proof (scan_bound tm' (S i) bs) as Hb.
    replace (fst (scan tm' (S i) bs) - i)%nat
      with (S (fst (scan tm' (S i) bs) - S i)) by lia.
    simpl. fold tm'. rewrite E. apply IH, H.
Qed.

Lemma scan_app tm i pre post :
  snd (scan tm i pre) = false ->
  scan tm i (pre ++ post) = scan (flag_after tm pre) (i + length pre) post.
Proof.
  revert tm i. induction pre as [|c pre IH]; intros tm i; simpl.
  - intros _. f_equal. lia.
  - destruct ((c =? 10) || (c =? 4) || _); simpl; [discriminate|].
    intros H. rewrite (IH _ _ H). f_equal. lia.
Qed.

Lemma flag_after_true bs : flag_after true bs = true.
Proof.
  induction bs as [|x l IHl]; simpl; [reflexivity|].
  destruct (x =? IAC); exact IHl.
Qed.

Lemma flag_after_iac tm bs : IAC ∈ bs -> flag_after tm bs = true.
Proof.
  revert tm. induction bs as [|c bs IH]; intros tm Hin.
  - inversion Hin.
  - simpl. destruct (Z.eqb_spec c IAC) as [->|Hne].
    + apply flag_after_true.
    + apply IH. inversion Hin; subst; [contradiction|assumption].
Qed.

End ScannerFacts.

(** * Properties of the scanner *)

Module ScannerClaims.
Import Scanner ScannerFacts.

Lemma scan_match_gt tm i bs :
  snd (scan tm i bs) = true -> (i < fst (scan tm i bs))%nat.
Proof.
  revert tm i. induction bs as [|c bs IH]; intros tm i; simpl; [discriminate|].
  destruct ((c =? 10) || (c =? 4) || _); simpl; [lia|].
  intros H. apply IH in H. lia.
Qed.


Lemma scan_after_iac pre mid c post :
  snd (match_eol_or_escape pre) = false ->
  Forall (fun x => 0xf0 < x) mid ->
  c <= 0xf0 ->
  match_eol_or_escape (pre ++ IAC :: mid ++ c :: post)
  = (length pre + length mid + 2, true)%nat.
Proof.
  intros Hpre Hmid Hc. unfold match_eol_or_escape in *.
  rewrite scan_app by assumption. simpl.
  assert (forall k, scan true k (mid ++ c :: post) = (k + length mid + 1, true)%nat) as Hscan.
  { clear -Hmid Hc. induction Hmid as [|x mid Hx _ IH]; intros k; simpl.
    - destruct (c =? IAC); simpl;
        replace (c <=? 240) with true by (symmetry; apply Z.leb_le; exact Hc);
        rewrite orb_true_r; f_equal; lia.
    - replace (x =? 10) with false by (symmetry; apply Z.eqb_neq; lia).
      replace (x =? 4) with false by (symmetry; apply Z.eqb_neq; lia).
      replace (x <=? 240) with false by (symmetry; apply Z.leb_gt; lia).
      destruct (x =? IAC); simpl; rewrite IH; f_equal; lia. }
  change (IAC =? IAC) with true. simpl.
  rewrite Hscan. f_equal. lia.
Qed.

Lemma scan_terminator pre c post :
  snd (match_eol_or_escape pre) = false ->
  c = 10 \/ c = 4 ->
  match_eol_or_escape (pre ++ c :: post) = (S (length pre), true).
Proof.
  intros Hpre Hc. unfold match_eol_or_escape in *.
  rewrite scan_app by assumption. simpl.
  destruct Hc as [-> | ->]; reflexivity.
Qed.

(** A line feed ends the scan, whatever the flag: the match is at or
    before it. *)
Lemma scan_lf_bound tm i pre post :
  snd (scan tm i (pre ++ 10 :: post)) = true /\
  Nat.le (fst (scan tm i (pre ++ 10 :: post))) (i + S (length pre)).
Proof.
  revert tm i. induction pre as [|c pre IH]; intros tm i; simpl.
  - split; [reflexivity|lia].
  - destruct ((c =? 10) || (c =? 4) || _); simpl.
    + split; [reflexivity|lia].
    + destruct (IH (if c =? IAC then true else tm) (S i)) as [H1 H2].
      split; [exact H1|lia].
Qed.

(** C6, as stated, fails: a sequence that contains a line feed is not
    always matched at its first line feed; an earlier end-of-transmission
    byte takes the match. *)
Lemma scanner_first_lf_counterexample :
  ~ (forall pre post : list Z,
       10 ∉ pre ->
       match_eol_or_escape (pre ++ 10 :: post) = (S (length pre), true)).
Proof.
  intros H. specialize (H [4] []).
  assert (10 ∉ [4]) as Hn by (intros Hin; apply list_elem_of_In in Hin; simpl in Hin; intuition lia).
  specialize (H Hn). vm_compute in H. discriminate.
Qed.

(** C6 (amended): within one call, a sequence containing a line feed is
    matched at or before its first line feed, at that line feed when no
    byte before it ends the unit, and the answer does not depend on the
    bytes behind the match; a lone 0x04 byte is matched at once, as is a
    0x04 byte behind bytes none of which ends the unit; [0xFF, 0x05] is
    matched at the second byte;
    [0xFF, 0xFF] is not matched, and is matched at the next byte when that
    byte is at most 0xF0. *)
Theorem scanner_match_positions (pre post : list Z) :
  (snd (match_eol_or_escape pre) = false ->
   match_eol_or_escape (pre ++ 10 :: post) = (S (length pre), true)) /\
  (snd (match_eol_or_escape (pre ++ 10 :: post)) = true /\
   Nat.le (fst (match_eol_or_escape (pre ++ 10 :: post))) (S (length pre)) /\
   forall tail,
     match_eol_or_escape
       (take (fst (match_eol_or_escape (pre ++ 10 :: post))) (pre ++ 10 :: post) ++ tail)
     = match_eol_or_escape (pre ++ 10 :: post)) /\
  match_eol_or_escape (4 :: post) = (1%nat, true) /\
  (snd (match_eol_or_escape pre) = false ->
   match_eol_or_escape (pre ++ 4 :: post) = (S (length pre), true)) /\
  match_eol_or_escape [0xff; 0x05] = (2%nat, true) /\
  match_eol_or_escape [0xff; 0xff] = (2%nat, false) /\
  (forall c, c <= 0xf0 ->
     match_eol_or_escape ([0xff; 0xff] ++ c :: post) = (3%nat, true)).
Proof.
  split; [|split; [|split; [|split; [|split; [|split]]]]].
  - intros H. apply scan_terminator; auto.
  - destruct (scan_lf_bound false 0 pre post) as [H1 H2].
    split; [exact H1|]. split; [exact H2|].
    intros tail. unfold match_eol_or_escape in *.
    pose proof (scan_prefix false 0 (pre ++ 10 :: post) H1 tail) as Hp.
    rewrite Nat.sub_0_r in Hp. exact Hp.
  - reflexivity.
  - intros H. apply scan_terminator; auto.
  - reflexivity.
  - reflexivity.
  - intros c Hc.
    apply (scan_after_iac [] [0xff] c post); [reflexivity| |exact Hc].
    constructor; [lia|constructor].
Qed.

Lemma scanner_match_positions_witness :
  match_eol_or_escape (bytes "ab" ++ 10 :: bytes "cd") = (3%nat, true) /\
  match_eol_or_escape (bytes "ab" ++ 4 :: bytes "cd") = (3%nat, true) /\
  match_eol_or_escape ([0xff; 0xff] ++ 0x41 :: bytes "cd") = (3%nat, true).
Proof.
  destruct (scanner_match_positions (bytes "ab") (bytes "cd"))
    as (H1 & _ & _ & H3 & _ & _ & H6).
  split; [apply H1; reflexivity|].
  split; [apply H3; reflexivity|].
  apply H6. lia.
Defined.




End ScannerClaims.

(** * Properties of the registry *)

Module RegistryFacts.
Import Registry Sample.

Lemma call_heap {A} a (m : M A) p r p' :
  call a m p = (r, p') ->
  _sock_list p' = _sock_list p /\ dom (heap p') = dom (heap p).
Proof.
  unfold call. destruct (heap p !! a) as [ss|] eqn:E.
  - destruct (m _) as [r0 c]. intros H. inversion H; subst; simpl.
    split; [reflexivity|].
    rewrite dom_insert_L.
    assert (a ∈ dom (heap p)) by (apply elem_of_dom; eauto).
    set_solver.
  - intros H. inversion H; subst. auto.
Qed.

Lemma step_registered e p r p' :
  registered_iff_live p -> step e p = (r, p') -> registered_iff_live p'.
Proof.
  unfold registered_iff_live. intros Hinv.
  destruct e as [a now raw|a sock|a]; simpl.
  - unfold new_ServerSocket. destruct (decide (a ∈ dom (heap p))).
    + intros H; inversion H; subst; assumption.
    + intros H; inversion H; subst; simpl.
      rewrite dom_insert_L, Hinv. reflexivity.
  - intros H. apply call_heap in H as [H1 H2]. congruence.
  - unfold delete_ServerSocket.
    destruct (call a destructor_body p) as [r0 p0] eqn:E.
    apply call_heap in E as [H1 H2].
    destruct r0; intros H; inversion H; subst; simpl; try congruence.
    rewrite dom_delete_L. congruence.
Qed.

Lemma run_registered evs p r p' :
  registered_iff_live p -> run evs p = (r, p') -> registered_iff_live p'.
Proof.
  revert p. induction evs as [|e evs IH]; intros p Hinv; simpl.
  - intros H; inversion H; subst; assumption.
  - destruct (step e p) as [r0 p0] eqn:E.
    pose proof (step_registered _ _ _ _ Hinv E) as Hinv0.
    destruct r0; try (intros H; inversion H; subst; assumption).
    apply IH, Hinv0.
Qed.

Lemma run_app evs1 evs2 p p1 :
  run evs1 p = (Ok tt, p1) -> run (evs1 ++ evs2) p = run evs2 p1.
Proof.
  revert p. induction evs1 as [|e evs1 IH]; intros p; simpl.
  - intros H; inversion H; reflexivity.
  - destruct (step e p) as [r0 p0]. destruct r0; try discriminate.
    apply IH.
Qed.

(** The destructor of a connected object returns. *)
Lemma destructor_body_ok ss s lg :
  _socket ss = Some s ->
  exists c', destructor_body {| this := ss; logged := lg |} = (Ok tt, c').
Proof.
  intros Hs. unfold destructor_body, SetCloseAndDelete.
  unfold mbind, M_bind, modify, logger, get_this, on_this, add_log. simpl.
  rewrite Hs. destruct (close_error s) as [e|]; simpl.
  - destruct (bool_decide (e ≠ not_connected) && bool_decide (e ≠ bad_descriptor));
      simpl; eauto.
  - eauto.
Qed.

Lemma delete_ok a p ss :
  heap p !! a = Some ss -> is_Some (_socket ss) ->
  exists p', delete_ServerSocket a p = (Ok tt, p') /\
             heap p' = delete a (heap p) /\
             _sock_list p' = _sock_list p ∖ {[a]}.
Proof.
  intros Ha [s Hs]. unfold delete_ServerSocket, call. rewrite Ha.
  destruct (destructor_body_ok ss s (plog p) Hs) as [c' Hc]. rewrite Hc. simpl.
  eexists. split; [reflexivity|]. simpl. split; [|reflexivity].
  apply delete_insert_eq.
Qed.

Lemma open_ok k p :
  address k ∉ dom (heap p) ->
  exists p' ss,
    run (open_connection k) p = (Ok tt, p') /\
    heap p' = <[address k := ss]> (heap p) /\ is_Some (_socket ss) /\
    _sock_list p' = {[address k]} ∪ _sock_list p.
Proof.
  destruct k as [[[a now] raw] sock]. unfold address. simpl. intros Hfresh.
  unfold new_ServerSocket. destruct (decide (a ∈ dom (heap p))); [contradiction|].
  unfold call, add_sock. simpl. rewrite lookup_insert_eq. simpl.
  eexists _, _. split; [reflexivity|]. simpl.
  split; [apply insert_insert_eq|]. split; [|reflexivity]. simpl. eauto.
Qed.

Lemma opens_ok conns p :
  registered_iff_live p -> all_connected p ->
  NoDup (map address conns) ->
  (forall a, a ∈ map address conns -> a ∉ dom (heap p)) ->
  exists p',
    run (concat (map open_connection conns)) p = (Ok tt, p') /\
    registered_iff_live p' /\ all_connected p' /\
    dom (heap p') = dom (heap p) ∪ list_to_set (map address conns).
Proof.
  revert p. induction conns as [|k conns IH]; intros p Hreg Hcon Hnd Hfresh.
  - exists p. simpl. repeat split; auto. set_solver.
  - simpl in Hnd. apply NoDup_cons in Hnd as [Hk Hnd].
    destruct (open_ok k p) as (p1 & ss & Hrun & Hheap & Hss & Hsl).
    { apply Hfresh. simpl. left. }
    assert (registered_iff_live p1) as Hreg1.
    { unfold registered_iff_live in *. rewrite Hsl, Hheap, dom_insert_L, Hreg. reflexivity. }
    assert (all_connected p1) as Hcon1.
    { intros a ss'. rewrite Hheap. intros Hl.
      apply lookup_insert_Some in Hl as [[_ <-]|[_ Hl]]; [assumption|eauto]. }
    destruct (IH p1 Hreg1 Hcon1 Hnd) as (p' & Hrun' & Hreg' & Hcon' & Hdom').
    { intros a Ha. rewrite Hheap, dom_insert_L.
      assert (a ≠ address k) by (intros ->; contradiction).
      assert (a ∉ dom (heap p)) by (apply Hfresh; simpl; right; assumption).
      set_solver. }
    exists p'. simpl. rewrite (run_app _ _ _ _ Hrun).
    split; [exact Hrun'|]. split; [exact Hreg'|]. split; [exact Hcon'|].
    rewrite Hdom', Hheap, dom_insert_L. set_solver.
Qed.

Lemma deletes_ok closing p :
  registered_iff_live p -> all_connected p ->
  NoDup closing ->
  (forall a, a ∈ closing -> a ∈ dom (heap p)) ->
  exists p',
    run (map Delete closing) p = (Ok tt, p') /\
    registered_iff_live p' /\ all_connected p' /\
    dom (heap p') = dom (heap p) ∖ list_to_set closing.
Proof.
  revert p. induction closing as [|a closing IH]; intros p Hreg Hcon Hnd Hlive.
  - exists p. simpl. repeat split; auto. set_solver.
  - apply NoDup_cons in Hnd as [Ha Hnd].
    assert (a ∈ dom (heap p)) as Hin by (apply Hlive; left).
    apply elem_of_dom in Hin as [ss Hss].
    destruct (delete_ok a p ss Hss (Hcon _ _ Hss)) as (p1 & Hdel & Hheap & Hsl).
    assert (registered_iff_live p1) as Hreg1.
    { unfold registered_iff_live in *. rewrite Hsl, Hheap, dom_delete_L, Hreg. reflexivity. }
    assert (all_connected p1) as Hcon1.
    { intros b ss'. rewrite Hheap. intros Hl.
      apply lookup_delete_Some in Hl as [_ Hl]. eauto. }
    destruct (IH p1 Hreg1 Hcon1 Hnd) as (p' & Hrun' & Hreg' & Hcon' & Hdom').
    { intros b Hb. rewrite Hheap, dom_delete_L.
      assert (b ≠ a) by (intros ->; contradiction).
      assert (b ∈ dom (heap p)) by (apply Hlive; right; assumption).
      set_solver. }
    exists p'. simpl. rewrite Hdel.
    split; [exact Hrun'|]. split; [exact Hreg'|]. split; [exact Hcon'|].
    rewrite Hdom', Hheap, dom_delete_L. set_solver.
Qed.

Lemma display_stats_empty f g p :
  _sock_list p = ∅ -> display_stats f g p = Ok [].
Proof.
  intros H. unfold display_stats. rewrite H, elements_empty. reflexivity.
Qed.

Lemma step_sock_list e p p' :
  step e p = (Ok tt, p') ->
  _sock_list p' =
  match e with
  | New a _ _ => {[a]} ∪ _sock_list p
  | Delete a => _sock_list p ∖ {[a]}
  | SetConnection _ _ => _sock_list p
  end.
Proof.
  destruct e as [a now raw|a sock|a]; simpl.
  - unfold new_ServerSocket. destruct (decide (a ∈ dom (heap p))); [discriminate|].
    intros H; inversion H; subst. reflexivity.
  - intros H. apply call_heap in H as [H _]. exact H.
  - unfold delete_ServerSocket.
    destruct (call a destructor_body p) as [[[]| | |] p0] eqn:E; try discriminate.
    apply call_heap in E as [H1 _]. intros H; inversion H; subst. simpl.
    rewrite H1. reflexivity.
Qed.

Lemma run_lives evs : forall p p' a,
  run evs p = (Ok tt, p') ->
  (a ∈ _sock_list p' <-> lives evs a (bool_decide (a ∈ _sock_list p)) = true).
Proof.
  induction evs as [|e evs IH]; intros p p' a H; simpl in H.
  - inversion H; subst. unfold lives. simpl. rewrite bool_decide_eq_true. reflexivity.
  - destruct (step e p) as [[[]| | |] p1] eqn:E; try discriminate.
    rewrite (IH p1 p' a H). unfold lives. cbn [foldl].
    rewrite (step_sock_list e p p1 E).
    assert (bool_decide (a ∈ match e with
                             | New a0 _ _ => {[a0]} ∪ _sock_list p
                             | SetConnection _ _ => _sock_list p
                             | Delete a0 => _sock_list p ∖ {[a0]}
                             end)
            = match e with
              | New a' _ _ => if decide (a' = a) then true else bool_decide (a ∈ _sock_list p)
              | SetConnection _ _ => bool_decide (a ∈ _sock_list p)
              | Delete a' => if decide (a' = a) then false else bool_decide (a ∈ _sock_list p)
              end) as ->; [|reflexivity].
    destruct e as [a0 now raw|a0 sock|a0]; [| reflexivity |].
    + destruct (decide (a0 = a)) as [->|Hne].
      * apply bool_decide_eq_true. set_solver.
      * apply bool_decide_ext. set_solver.
    + destruct (decide (a0 = a)) as [->|Hne].
      * apply bool_decide_eq_false. set_solver.
      * apply bool_decide_ext. set_solver.
Qed.

(** C9: at every point of every history of constructions, socket
    installations and destructions, an address is in the registry exactly
    when it holds an object whose constructor has completed and whose
    destructor has not run since; and after any number of connections
    have been created and then all closed, in whatever order, the
    registry is empty and [display_stats] gives the empty report. *)
Theorem registry_membership (evs : list event) (conns : list connection)
    (closing : list Z) :
  (forall p, run evs start = (Ok tt, p) ->
     forall a, a ∈ _sock_list p <-> lives evs a false = true) /\
  (forall r p, run evs start = (r, p) ->
     forall a, a ∈ _sock_list p <-> is_Some (heap p !! a)) /\
  (NoDup (map address conns) ->
   closing ≡ₚ map address conns ->
   (1 <= length conns)%nat ->
   exists p,
     run (lifetimes conns closing) start = (Ok tt, p) /\
     _sock_list p = ∅ /\
     forall strftime_gm fmt_8d, display_stats strftime_gm fmt_8d p = Ok []).
Proof.
  split; [|split].
  - intros p Hrun a. rewrite (run_lives evs start p a Hrun).
    rewrite bool_decide_eq_false_2 by (simpl; set_solver). reflexivity.
  - intros r p Hrun a.
    assert (registered_iff_live start) as H0 by reflexivity.
    pose proof (run_registered _ _ _ _ H0 Hrun) as Hinv.
    unfold registered_iff_live in Hinv. rewrite Hinv. apply elem_of_dom.
  - intros Hnd Hperm _.
    destruct (opens_ok conns start) as (p1 & Hrun1 & Hreg1 & Hcon1 & Hdom1).
    + reflexivity.
    + intros a ss Hl. simpl in Hl. rewrite lookup_empty in Hl. discriminate.
    + exact Hnd.
    + intros a _. simpl. rewrite dom_empty_L. set_solver.
    + destruct (deletes_ok closing p1 Hreg1 Hcon1) as (p2 & Hrun2 & Hreg2 & _ & Hdom2).
      * rewrite Hperm. exact Hnd.
      * intros a Ha. rewrite Hdom1. rewrite Hperm in Ha. set_solver.
      * exists p2. unfold lifetimes. rewrite (run_app _ _ _ _ Hrun1).
        split; [exact Hrun2|].
        assert (_sock_list p2 = ∅) as He.
        { unfold registered_iff_live in Hreg2. rewrite Hreg2, Hdom2, Hdom1.
          simpl. rewrite dom_empty_L.
          assert (list_to_set closing =@{gset Z} list_to_set (map address conns)) as ->
            by (apply list_to_set_perm_L; exact Hperm).
          set_solver. }
        split; [exact He|].
        intros f g. apply display_stats_empty, He.
Qed.

Lemma registry_membership_witness :
  (forall a, a ∈ _sock_list (snd (run [New 64 1700000000 blank] start))
             <-> is_Some (heap (snd (run [New 64 1700000000 blank] start)) !! a)) /\
  exists p,
    run (lifetimes [(64, 1700000000, blank, idle); (32, 1700000001, blank, idle);
                    (96, 1700000002, blank, idle)] [32; 96; 64]) start = (Ok tt, p) /\
    _sock_list p = ∅ /\
    forall strftime_gm fmt_8d, display_stats strftime_gm fmt_8d p = Ok [].
Proof.
  split.
  - apply (proj1 (proj2 (registry_membership [New 64 1700000000 blank] [] []))
             (fst (run [New 64 1700000000 blank] start))).
    apply surjective_pairing.
  - apply (proj2 (proj2 (registry_membership []
             [(64, 1700000000, blank, idle); (32, 1700000001, blank, idle);
              (96, 1700000002, blank, idle)] [32; 96; 64]))).
    + apply (bool_decide_unpack _). vm_compute. reflexivity.
    + simpl. change [32; 96; 64] with ([32; 96] ++ [64]).
      rewrite Permutation_app_comm. reflexivity.
    + simpl. lia.
Defined.

End RegistryFacts.

(** * The read loop ends *)

Module ConnectionFacts.
Import Scanner ScannerFacts Connection MonadFacts Sample.

Lemma catch_system_error_cases ec c :
  catch_system_error ec c =
  if benign ec then (Break, c) else (Continue, add_log reading_error c).
Proof.
  unfold catch_system_error, benign.
  destruct (decide (ec = eof)) as [->|H1]; [reflexivity|].
  destruct (decide (ec = connection_reset)) as [->|H2]; [reflexivity|].
  destruct (decide (ec = not_connected)) as [->|H3]; [reflexivity|].
  rewrite !bool_decide_eq_false_2 by assumption. reflexivity.
Qed.

Lemma read_until_weight r : forall b pos res r' b',
  read_until r b pos = (res, r', b') ->
  (rx_weight r' + length b' <= rx_weight r + length b)%nat /\
  (forall ec, res = inr ec -> benign ec = false ->
     (rx_weight r' + length b' < rx_weight r + length b)%nat) /\
  (forall k, res = inl k -> b' <> []).
Proof.
  induction r as [|[bs|ec] r IH]; intros b pos res r' b' H; simpl in H.
  - destruct (match_eol_or_escape (drop pos b)) as [i found] eqn:E.
    destruct found; inversion H; subst; clear H.
    + split; [(cbn [rx_weight] in *; lia)|]. split; [discriminate|]. intros k _ ->.
      rewrite drop_nil in E. discriminate.
    + split; [(cbn [rx_weight] in *; lia)|]. split; [|discriminate].
      intros ec Hec. inversion Hec; subst. discriminate.
  - destruct (match_eol_or_escape (drop pos b)) as [i found] eqn:E.
    destruct found.
    + inversion H; subst; clear H.
      split; [(cbn [rx_weight] in *; lia)|]. split; [discriminate|]. intros k _ ->.
      rewrite drop_nil in E. discriminate.
    + apply IH in H as (H1 & H2 & H3). rewrite length_app in *.
      split; [(cbn [rx_weight] in *; lia)|]. split; [|exact H3].
      intros ec' Hr Hb. specialize (H2 ec' Hr Hb). (cbn [rx_weight] in *; lia).
  - destruct (match_eol_or_escape (drop pos b)) as [i found] eqn:E.
    destruct found; inversion H; subst; clear H.
    + split; [(cbn [rx_weight] in *; lia)|]. split; [discriminate|]. intros k _ ->.
      rewrite drop_nil in E. discriminate.
    + split; [(cbn [rx_weight] in *; lia)|]. split; [|discriminate]. intros; (cbn [rx_weight] in *; lia).
Qed.

Lemma getline_shorter b line b' :
  b <> [] -> getline b = (line, b') -> (length b' < length b)%nat.
Proof.
  intros Hb. unfold getline.
  destruct (list_find _ b) as [[k x]|] eqn:E; intros H; inversion H; subst.
  - apply list_find_Some in E as (Hk & _ & _).
    apply lookup_lt_Some in Hk. rewrite length_drop. lia.
  - destruct line; [contradiction|]. simpl. lia.
Qed.

Lemma weight_with_rx r c s :
  _socket (this c) = Some s -> weight (with_rx r c) = rx_weight r.
Proof. intros Hs. unfold weight, with_rx. rewrite Hs. reflexivity. Qed.

Lemma loop_body_measure `{Consumer} b c fl b' c' :
  tame _ ->
  loop_body b c = (fl, b', c') ->
  fl <> Fuel /\
  (fl = Continue -> (weight c' + length b' < weight c + length b)%nat).
Proof.
  intros Htame. unfold loop_body.
  destruct (_socket (this (on_this (set_status "iwait") c))) as [s|] eqn:Hs.
  2:{ intros H0; inversion H0; subst. split; discriminate. }
  assert (weight c = rx_weight (rx s)) as Hw.
  { unfold weight. simpl in Hs. rewrite Hs. reflexivity. }
  destruct (read_until (rx s) b 0) as [[res r'] b1] eqn:Hr.
  apply read_until_weight in Hr as (H1 & H2 & H3).
  pose proof (weight_with_rx r' _ s Hs) as Hw'.
  destruct res as [k|ec].
  - destruct (getline b1) as [line b2] eqn:Hg.
    apply getline_shorter in Hg; [|eapply H3; reflexivity].
    set (c1 := on_this (set_status " run ") (with_rx r' (on_this (set_status "iwait") c))).
    assert (weight c1 = rx_weight r') as Hw1 by (subst c1; exact Hw').
    destruct (OnLine (chomp_cr line) c1) as [ro c2] eqn:Ho.
    apply Htame in Ho as [Hne Hle].
    destruct ro as [[]|e| |]; try contradiction.
    + intros H0; inversion H0; subst. split; [discriminate|]. intros _. lia.
    + destruct e as [|ec|].
      * intros H0; inversion H0; subst. split; discriminate.
      * rewrite catch_system_error_cases.
        destruct (benign ec); intros H0; inversion H0; subst;
          (split; [discriminate|]); [discriminate|].
        intros _. unfold weight in *. simpl. lia.
      * intros H0; inversion H0; subst. split; discriminate.
    + intros H0; inversion H0; subst. split; discriminate.
  - rewrite catch_system_error_cases.
    destruct (benign ec) eqn:Hb; intros H0; inversion H0; subst;
      (split; [discriminate|]); [discriminate|].
    intros _. specialize (H2 ec eq_refl Hb).
    unfold weight in *. simpl in *. rewrite Hs in *. simpl. lia.
Qed.

Lemma loop_total `{Consumer} fuel : forall b c,
  tame _ ->
  (weight c + length b < fuel)%nat ->
  fst (loop fuel b c) <> OutOfFuel.
Proof.
  induction fuel as [|fuel IH]; intros b c Htame Hf; [lia|].
  cbn [loop]. destruct (loop_body b c) as [[fl b'] c'] eqn:E.
  apply loop_body_measure in E as [Hne Hlt]; [|exact Htame].
  destruct fl; try discriminate; [|contradiction].
  apply IH; [exact Htame|]. specialize (Hlt eq_refl). lia.
Qed.

Lemma echo_tame : tame echo.
Proof.
  intros line c r c'. simpl. unfold Send, weight.
  destruct (_socket (this c)) as [s|] eqn:Hs.
  - destruct (wr_error s); intros H0; inversion H0; subst; simpl;
      rewrite ?Hs; (split; [discriminate|]); try lia;
      destruct (send_harmless _); simpl; rewrite Hs; lia.
  - intros H0; inversion H0; subst. rewrite Hs. split; [discriminate|lia].
Qed.

(** With such a consumer, [handle_connection] leaves its loop: the fuel
    it is given is never used up. *)
Lemma handle_connection_total `{Consumer} tid c :
  tame _ ->
  (forall c0, fst (OnConnection c0) <> OutOfFuel) ->
  fst (handle_connection tid c) <> OutOfFuel.
Proof.
  intros Htame Hconn. unfold handle_connection.
  unfold mbind, M_bind, modify, logger, get_this. cbn beta iota.
  set (c0 := add_log _ (on_this (set_tid tid) c)).
  specialize (Hconn c0).
  destruct (OnConnection c0) as [[[]|e| |] c1]; try discriminate; [|contradiction].
  set (fuel := match _socket (this c1) with
               | Some s => S (rx_weight (rx s))
               | None => 1%nat
               end).
  pose proof (loop_total fuel [] c1 Htame) as Hl.
  assert ((weight c1 + length (@nil Z) < fuel)%nat) as Hf.
  { subst fuel. unfold weight. destruct (_socket (this c1)); simpl; lia. }
  specialize (Hl Hf).
  destruct (loop fuel [] c1) as [[b| | |] c2]; try discriminate; [|contradiction].
  destruct (getline b) as [line rest].
  destruct (bool_decide (chomp_cr line <> [])).
  - destruct (OnLine (chomp_cr line) c2) as [ro c3] eqn:Eo.
    apply Htame in Eo as [Hne _].
    destruct ro as [[]| | |]; try discriminate. contradiction.
  - discriminate.
Qed.

End ConnectionFacts.

(** * Properties of the read loop *)

Module ConnectionClaims.
Import Connection ConnectionFacts Sample.

(** C2, as stated, fails: a transport error other than the three benign
    ones is logged, but the loop is not left; the next line that arrives
    is still read and handed to [OnLine] (here: echoed). *)
Lemma read_error_exit_counterexample :
  ~ (forall (H : Consumer) fuel b c s ec r' b',
       _socket (this c) = Some s ->
       read_until (rx s) b 0 = (inr ec, r', b') ->
       benign ec = false ->
       @loop H (S fuel) b c
       = (Ok b', add_log reading_error (with_rx r' (on_this (set_status "iwait") c)))) /\
  fst (fst (@loop_body echo []
              (sample_ctx [Fault (errc 110); Bytes (bytes "x" ++ [10])]))) = Continue /\
  (tx <$> _socket (this (snd (@loop echo 3 []
              (sample_ctx [Fault (errc 110); Bytes (bytes "x" ++ [10])])))))
  = Some [bytes "x"].
Proof.
  split; [|split; reflexivity].
  intros H.
  specialize (H echo 2%nat [] (sample_ctx [Fault (errc 110); Bytes (bytes "x" ++ [10])])
                (sample_socket [Fault (errc 110); Bytes (bytes "x" ++ [10])])
                (errc 110) [Bytes (bytes "x" ++ [10])] []
                eq_refl eq_refl eq_refl).
  vm_compute in H. discriminate.
Qed.

(** C2 (amended): when [read_until] raises a transport error in the read
    loop, the three benign errors (end of stream, connection reset, not
    connected) end the loop with nothing logged; any other error is
    logged at error level and the loop goes on with the next read on the
    same connection. *)
Theorem read_error_handling `{Consumer} (fuel : nat) (b : list Z) (c : ctx)
    (s : tcp_socket) (ec : error_code) (r' : list arrival) (b' : list Z) :
  _socket (this c) = Some s ->
  read_until (rx s) b 0 = (inr ec, r', b') ->
  loop (S fuel) b c =
  if benign ec
  then (Ok b', with_rx r' (on_this (set_status "iwait") c))
  else loop fuel b'
         (add_log reading_error (with_rx r' (on_this (set_status "iwait") c))).
Proof.
  intros Hs Hr. simpl. unfold loop_body. simpl. rewrite Hs, Hr.
  rewrite catch_system_error_cases.
  destruct (benign ec); reflexivity.
Qed.

Lemma read_error_handling_witness :
  @loop echo 1 [] (sample_ctx [Fault connection_reset; Bytes (bytes "x" ++ [10])])
  = (Ok [], with_rx [Bytes (bytes "x" ++ [10])]
              (on_this (set_status "iwait")
                 (sample_ctx [Fault connection_reset; Bytes (bytes "x" ++ [10])]))) /\
  @loop echo 3 [] (sample_ctx [Fault (errc 110); Bytes (bytes "x" ++ [10])])
  = @loop echo 2 []
      (add_log reading_error
         (with_rx [Bytes (bytes "x" ++ [10])]
            (on_this (set_status "iwait")
               (sample_ctx [Fault (errc 110); Bytes (bytes "x" ++ [10])])))).
Proof.
  split.
  - rewrite (@read_error_handling echo 0 []
               (sample_ctx [Fault connection_reset; Bytes (bytes "x" ++ [10])])
               (sample_socket [Fault connection_reset; Bytes (bytes "x" ++ [10])])
               connection_reset [Bytes (bytes "x" ++ [10])] [] eq_refl eq_refl).
    change (benign connection_reset) with true. cbv iota. reflexivity.
  - rewrite (@read_error_handling echo 2 []
               (sample_ctx [Fault (errc 110); Bytes (bytes "x" ++ [10])])
               (sample_socket [Fault (errc 110); Bytes (bytes "x" ++ [10])])
               (errc 110) [Bytes (bytes "x" ++ [10])] [] eq_refl eq_refl).
    change (benign (errc 110)) with false. cbv iota. reflexivity.
Defined.

End ConnectionClaims.

(** * Properties of the frame codec *)

Module WebSocketFacts.
Import WebSocket Wire MonadFacts.

(** ** Bytes and words *)

Lemma land_low_shiftl b x : 0 <= b < 256 -> Z.land b (Z.shiftl x 8) = 0.
Proof.
  intros Hb. apply Z.bits_inj'. intros n Hn.
  rewrite Z.land_spec, Z.bits_0.
  destruct (Z.lt_ge_cases n 8) as [Hlt|Hge].
  - rewrite Z.shiftl_spec_low by lia. apply andb_false_r.
  - replace (Z.testbit b n) with false; [reflexivity|].
    symmetry. apply Z.bits_above_log2; [lia|].
    destruct (Z.eq_dec b 0) as [->|Hne]; [simpl; lia|].
    apply Z.log2_lt_pow2; [lia|].
    apply Z.lt_le_trans with (2 ^ 8); [lia|].
    apply Z.pow_le_mono_r; lia.
Qed.

Lemma lor_shiftl_add b x : 0 <= b < 256 -> Z.lor b (Z.shiftl x 8) = b + 256 * x.
Proof.
  intros Hb. rewrite <- Z.lxor_lor by (apply land_low_shiftl; exact Hb).
  rewrite <- Z.add_nocarry_lxor by (apply land_low_shiftl; exact Hb).
  rewrite Z.shiftl_mul_pow2 by lia. lia.
Qed.

Lemma land_ff w : Z.land w 0xff = w mod 256.
Proof. change 0xff with (Z.ones 8). rewrite Z.land_ones by lia. reflexivity. Qed.

Lemma shiftr_8 w : Z.shiftr w 8 = w / 256.
Proof. rewrite Z.shiftr_div_pow2 by lia. reflexivity. Qed.

Lemma le_combine_cons b bs :
  is_byte b -> le_combine (b :: bs) = b + 256 * le_combine bs.
Proof. intros Hb. simpl. apply lor_shiftl_add, Hb. Qed.

Lemma le_combine_nonneg bs : Forall is_byte bs -> 0 <= le_combine bs.
Proof.
  induction 1 as [|b bs Hb _ IH]; [simpl; lia|].
  rewrite le_combine_cons by assumption. unfold is_byte in Hb. lia.
Qed.

Lemma le_combine_bound bs :
  Forall is_byte bs -> 0 <= le_combine bs < 256 ^ Z.of_nat (length bs).
Proof.
  induction 1 as [|b bs Hb _ IH]; [simpl; lia|].
  rewrite le_combine_cons by assumption. unfold is_byte in Hb.
  cbn [length]. rewrite Nat2Z.inj_succ, Z.pow_succ_r by lia. lia.
Qed.

Lemma le_combine_1 b : le_combine [b] = b.
Proof. simpl. rewrite Z.shiftl_0_l. apply Z.lor_0_r. Qed.

Lemma le_combine_2 b0 b1 :
  is_byte b0 -> is_byte b1 -> le_combine [b0; b1] = b0 + 256 * b1.
Proof.
  intros H0 H1. rewrite le_combine_cons, le_combine_1 by assumption. reflexivity.
Qed.

Lemma le_combine_4 b0 b1 b2 b3 :
  is_byte b0 -> is_byte b1 -> is_byte b2 -> is_byte b3 ->
  le_combine [b0; b1; b2; b3] = b0 + 256 * (b1 + 256 * (b2 + 256 * b3)).
Proof.
  intros H0 H1 H2 H3. rewrite !le_combine_cons by assumption. cbn [le_combine]. lia.
Qed.

Lemma byte_div b x : 0 <= b < 256 -> (b + 256 * x) / 256 = x.
Proof. intros. symmetry. apply Z.div_unique with b; lia. Qed.

Lemma byte_mod b x : 0 <= b < 256 -> (b + 256 * x) mod 256 = b.
Proof. intros. symmetry. apply Z.mod_unique with x; lia. Qed.

Lemma ntohs_le b0 b1 :
  is_byte b0 -> is_byte b1 -> ntohs (le_combine [b0; b1]) = be_value [b0; b1].
Proof.
  intros H0 H1. rewrite le_combine_2 by assumption. unfold ntohs, be_value. simpl.
  rewrite !land_ff, shiftr_8. unfold is_byte in *.
  rewrite Z.lor_comm, lor_shiftl_add.
  - rewrite byte_div, byte_mod by lia.
    rewrite (Z.mod_small b1) by lia. lia.
  - apply Z.mod_pos_bound. lia.
Qed.


Lemma land_low_shiftl_k k b x : 0 <= k -> 0 <= b < 2 ^ k -> Z.land b (Z.shiftl x k) = 0.
Proof.
  intros Hk Hb. apply Z.bits_inj'. intros n Hn.
  rewrite Z.land_spec, Z.bits_0.
  destruct (Z.lt_ge_cases n k) as [Hlt|Hge].
  - rewrite Z.shiftl_spec_low by lia. apply andb_false_r.
  - destruct (Z.eq_dec b 0) as [->|Hne]; [rewrite Z.bits_0; reflexivity|].
    replace (Z.testbit b n) with false; [reflexivity|].
    symmetry. apply Z.bits_above_log2; [lia|].
    apply Z.log2_lt_pow2; [lia|].
    apply Z.lt_le_trans with (2 ^ k); [lia|].
    apply Z.pow_le_mono_r; lia.
Qed.

Lemma lor_shiftl_add_k k b x :
  0 <= k -> 0 <= b < 2 ^ k -> Z.lor (Z.shiftl x k) b = x * 2 ^ k + b.
Proof.
  intros Hk Hb. rewrite Z.lor_comm.
  rewrite <- Z.lxor_lor by (apply land_low_shiftl_k; assumption).
  rewrite <- Z.add_nocarry_lxor by (apply land_low_shiftl_k; assumption).
  rewrite Z.shiftl_mul_pow2 by lia. lia.
Qed.


Lemma lor_add_k k a b :
  0 <= k -> a mod 2 ^ k = 0 -> 0 <= b < 2 ^ k -> Z.lor a b = a + b.
Proof.
  intros Hk Ha Hb.
  assert (a = Z.shiftl (a / 2 ^ k) k) as ->.
  { rewrite Z.shiftl_mul_pow2 by lia.
    pose proof (Z.div_mod a (2 ^ k)). lia. }
  rewrite lor_shiftl_add_k by assumption.
  rewrite Z.shiftl_mul_pow2 by lia. reflexivity.
Qed.

Ltac divmod := Z.to_euclidean_division_equations; lia.

Ltac bits_to_arith :=
  rewrite ?land_ff, ?Z.shiftr_div_pow2, ?Z.shiftl_mul_pow2 by lia;
  change (2 ^ 8) with 256 in *; change (2 ^ 16) with 65536 in *;
  change (2 ^ 24) with 16777216 in *; change (2 ^ 32) with 4294967296 in *.

Lemma ntohl_le b0 b1 b2 b3 :
  is_byte b0 -> is_byte b1 -> is_byte b2 -> is_byte b3 ->
  ntohl (le_combine [b0; b1; b2; b3]) = be_value [b0; b1; b2; b3].
Proof.
  intros H0 H1 H2 H3. rewrite le_combine_4 by assumption.
  unfold ntohl, be_value, is_byte in *. simpl.
  set (w := b0 + 256 * (b1 + 256 * (b2 + 256 * b3))).
  bits_to_arith.
  assert (w mod 256 = b0) as -> by (subst w; divmod).
  assert ((w / 256) mod 256 = b1) as -> by (subst w; divmod).
  assert ((w / 65536) mod 256 = b2) as -> by (subst w; divmod).
  assert ((w / 16777216) mod 256 = b3) as -> by (subst w; divmod).
  rewrite (lor_add_k 8 (b2 * 256) b3) by (change (2 ^ 8) with 256; divmod).
  rewrite (lor_add_k 24 (b0 * 16777216) (b1 * 65536))
    by (change (2 ^ 24) with 16777216; divmod).
  rewrite (lor_add_k 16) by (change (2 ^ 16) with 65536; divmod).
  lia.
Qed.

Lemma lung_value hi lo :
  0 <= hi < 2 ^ 32 -> 0 <= lo < 2 ^ 32 ->
  Z.lor (Z.shiftl hi 32 mod 2 ^ 64) lo = hi * 2 ^ 32 + lo.
Proof.
  intros Hhi Hlo. rewrite Z.shiftl_mul_pow2 by lia.
  rewrite Z.mod_small by lia.
  apply (lor_add_k 32); [lia| |lia].
  apply Z_mod_mult.
Qed.

Lemma be_value_snoc l x : be_value (l ++ [x]) = be_value l * 256 + x.
Proof. unfold be_value. rewrite foldl_app. reflexivity. Qed.

Lemma be_value_bound bs :
  Forall is_byte bs -> 0 <= be_value bs < 256 ^ Z.of_nat (length bs).
Proof.
  induction bs as [|x b IH] using rev_ind; intros H.
  - unfold be_value. simpl. lia.
  - apply Forall_app in H as [Hb Hx]. rewrite Forall_singleton in Hx.
    specialize (IH Hb). rewrite be_value_snoc. unfold is_byte in Hx.
    rewrite length_app. simpl. rewrite Nat2Z.inj_add, Z.pow_add_r by lia.
    change (256 ^ Z.of_nat 1) with 256. lia.
Qed.

Lemma land_lxor_distr_l a b m :
  Z.land (Z.lxor a b) m = Z.lxor (Z.land a m) (Z.land b m).
Proof.
  apply Z.bits_inj'. intros n _.
  rewrite !Z.land_spec, !Z.lxor_spec, !Z.land_spec.
  destruct (Z.testbit a n), (Z.testbit b n), (Z.testbit m n); reflexivity.
Qed.

Lemma lxor_byte a b : is_byte a -> is_byte b -> is_byte (Z.lxor a b).
Proof.
  unfold is_byte. intros Ha Hb.
  assert (Z.lxor a b = Z.lxor a b mod 256) as ->.
  { rewrite <- !land_ff. rewrite land_lxor_distr_l, !land_ff.
    rewrite !Z.mod_small by lia. reflexivity. }
  apply Z.mod_pos_bound. lia.
Qed.

Lemma le_split_lxor key data :
  Forall is_byte key -> Forall is_byte data -> length key = length data ->
  le_split (length data) (Z.lxor (le_combine data) (le_combine key))
  = zip_with Z.lxor data key.
Proof.
  intros Hk. revert data. induction Hk as [|k key Hk0 Hk IH]; intros data Hd Hlen.
  - destruct data; [reflexivity|discriminate].
  - destruct data as [|d data]; [discriminate|].
    apply Forall_cons in Hd as [Hd0 Hd]. injection Hlen as Hlen.
    cbn [length le_split zip_with]. rewrite !le_combine_cons by assumption.
    f_equal.
    + rewrite land_lxor_distr_l, !land_ff. unfold is_byte in *.
      rewrite !byte_mod by lia. reflexivity.
    + rewrite Z.shiftr_lxor, !shiftr_8. unfold is_byte in *.
      rewrite !byte_div by lia. apply IH; assumption.
Qed.

(** ** Masking *)

Lemma xor_mask_length key payload : length (xor_mask key payload) = length payload.
Proof. apply length_imap. Qed.

Lemma xor_mask_app key p q :
  (length p mod 4 = 0)%nat ->
  xor_mask key (p ++ q) = xor_mask key p ++ xor_mask key q.
Proof.
  intros Hp. unfold xor_mask. rewrite imap_app. f_equal.
  apply imap_ext. intros k b _. cbv beta.
  replace ((length p + k) mod 4)%nat with (k mod 4)%nat; [reflexivity|].
  rewrite Nat.Div0.add_mod, Hp, Nat.add_0_l, Nat.Div0.mod_mod. reflexivity.
Qed.

Lemma xor_mask_4 k0 k1 k2 k3 a b c d :
  xor_mask [k0; k1; k2; k3] [a; b; c; d] = zip_with Z.lxor [a; b; c; d] [k0; k1; k2; k3].
Proof. reflexivity. Qed.

Lemma default_byte key (j : nat) :
  Forall is_byte key -> is_byte (default 0 (key !! j)).
Proof.
  intros Hk. destruct (key !! j) as [k|] eqn:Ek.
  - exact (Forall_lookup_1 _ _ _ _ Hk Ek).
  - unfold is_byte. simpl. lia.
Qed.

Lemma xor_mask_bytes key payload :
  Forall is_byte key -> Forall is_byte payload -> Forall is_byte (xor_mask key payload).
Proof.
  intros Hk Hp. unfold xor_mask. apply Forall_lookup. intros i x Hx.
  rewrite list_lookup_imap in Hx.
  destruct (payload !! i) as [b|] eqn:Eb; [|discriminate].
  injection Hx as <-. apply lxor_byte.
  - exact (Forall_lookup_1 _ _ _ _ Hp Eb).
  - apply default_byte, Hk.
Qed.

Lemma xor_mask_involutive key payload :
  xor_mask key (xor_mask key payload) = payload.
Proof.
  unfold xor_mask. apply list_eq. intros i.
  rewrite !list_lookup_imap. destruct (payload !! i) as [b|]; [|reflexivity].
  cbn [fmap option_fmap option_map]. f_equal.
  rewrite Z.lxor_assoc, Z.lxor_nilpotent. apply Z.lxor_0_r.
Qed.

Section Unmask.
Variables k0 k1 k2 k3 : Z.
Hypothesis Hk : Forall is_byte [k0; k1; k2; k3].
Let key := [k0; k1; k2; k3].
Let mask := le_combine key.

Lemma store_load_xor done a b c d tl :
  Forall is_byte [a; b; c; d] ->
  store32 (done ++ [a; b; c; d] ++ tl) (Z.of_nat (length done))
    (Z.lxor (load32 (done ++ [a; b; c; d] ++ tl) (Z.of_nat (length done))) mask)
  = done ++ xor_mask key [a; b; c; d] ++ tl.
Proof.
  intros Hd. unfold store32, load32, mask, key. rewrite Nat2Z.id.
  rewrite drop_app_length. change (take 4 ([a; b; c; d] ++ tl)) with [a; b; c; d].
  rewrite take_app_length. f_equal.
  rewrite xor_mask_4.
  rewrite <- (le_split_lxor [k0; k1; k2; k3] [a; b; c; d]) by (assumption || reflexivity).
  f_equal.
  replace (length done + 4)%nat with (length (done ++ [a; b; c; d]))
    by (rewrite length_app; reflexivity).
  rewrite (app_assoc done). rewrite drop_app_length. reflexivity.
Qed.

Lemma unmask_bulk_spec fuel : forall done todo z,
  (length todo <= fuel)%nat ->
  (length done mod 4 = 0)%nat ->
  Forall is_byte todo ->
  exists mid last_,
    todo = mid ++ last_ /\ (length last_ < 4)%nat /\ (length mid mod 4 = 0)%nat /\
    unmask_bulk fuel (Z.of_nat (length done + length todo)) mask
      (Z.of_nat (length done)) (done ++ todo ++ [z])
    = (Z.of_nat (length done + length mid),
       done ++ xor_mask key mid ++ last_ ++ [z]).
Proof.
  induction fuel as [|fuel IH]; intros done todo z Hfuel Hdone Hbytes.
  - destruct todo; [|simpl in Hfuel; lia].
    exists [], []. simpl. repeat split; try lia.
    rewrite Nat.add_0_r. reflexivity.
  - cbn [unmask_bulk].
    destruct (Z.leb_spec (Z.of_nat (length done)) (Z.of_nat (length done + length todo) - 4)) as [Hle|Hgt].
    + destruct todo as [|a [|b [|c [|d todo]]]]; simpl in Hle; try lia.
      apply Forall_cons in Hbytes as [Ha Hbytes].
      apply Forall_cons in Hbytes as [Hb Hbytes].
      apply Forall_cons in Hbytes as [Hc Hbytes].
      apply Forall_cons in Hbytes as [Hd Hbytes].
      change ((a :: b :: c :: d :: todo) ++ [z]) with ([a; b; c; d] ++ (todo ++ [z])).
      rewrite store_load_xor
        by (repeat (apply Forall_cons_2; [assumption|]); apply Forall_nil_2).
      destruct (IH (done ++ xor_mask key [a; b; c; d]) todo z)
        as (mid & last_ & Htodo & Hlast & Hmid & Heq).
      { simpl in Hfuel. lia. }
      { rewrite length_app, xor_mask_length. simpl.
        rewrite Nat.Div0.add_mod, Hdone. reflexivity. }
      { assumption. }
      exists ([a; b; c; d] ++ mid), last_.
      split; [simpl; rewrite Htodo; reflexivity|].
      split; [assumption|].
      split; [rewrite length_app; simpl length;
              rewrite Nat.Div0.add_mod, Hmid; reflexivity|].
      rewrite length_app, xor_mask_length in Heq. simpl length in Heq.
      replace (Z.of_nat (length done) + 4) with (Z.of_nat (length done + 4)) by lia.
      replace (Z.of_nat (length done + length (a :: b :: c :: d :: todo)))
        with (Z.of_nat (length done + 4 + length todo)) by (simpl length; lia).
      rewrite <- app_assoc in Heq. rewrite Heq.
      f_equal; [rewrite length_app; simpl length; f_equal; lia|].
      rewrite xor_mask_app by reflexivity. rewrite <- !app_assoc. reflexivity.
    + exists [], todo. simpl.
      split; [reflexivity|]. split; [lia|]. split; [reflexivity|].
      rewrite Nat.add_0_r. reflexivity.
Qed.

Lemma byte_at_app done l (j : nat) :
  byte_at (done ++ l) (Z.of_nat (length done) + Z.of_nat j) = default 0 (l !! j).
Proof.
  unfold byte_at. rewrite <- Nat2Z.inj_add, Nat2Z.id.
  rewrite lookup_app_r by lia. f_equal. f_equal. lia.
Qed.

Lemma set_byte_app done l (j : nat) v :
  set_byte (done ++ l) (Z.of_nat (length done) + Z.of_nat j) v = done ++ <[j := v]> l.
Proof.
  unfold set_byte. rewrite <- Nat2Z.inj_add, Nat2Z.id.
  rewrite insert_app_r_alt by lia. f_equal. f_equal. lia.
Qed.

Lemma mask_byte_0 : Z.land (Z.shiftr mask (8 * 0)) 0xff = k0.
Proof.
  unfold mask, key.
  apply Forall_cons in Hk as [H0 Hk1]. apply Forall_cons in Hk1 as [H1 Hk2].
  apply Forall_cons in Hk2 as [H2 Hk3]. apply Forall_cons in Hk3 as [H3 _].
  rewrite le_combine_4 by assumption. unfold is_byte in *.
  rewrite Z.shiftr_0_r, land_ff. divmod.
Qed.

Lemma mask_byte_1 : Z.land (Z.shiftr mask (8 * 1)) 0xff = k1.
Proof.
  unfold mask, key.
  apply Forall_cons in Hk as [H0 Hk1]. apply Forall_cons in Hk1 as [H1 Hk2].
  apply Forall_cons in Hk2 as [H2 Hk3]. apply Forall_cons in Hk3 as [H3 _].
  rewrite le_combine_4 by assumption. unfold is_byte in *.
  rewrite Z.shiftr_div_pow2, land_ff by lia. change (2 ^ (8 * 1)) with 256. divmod.
Qed.

Lemma mask_byte_2 : Z.land (Z.shiftr mask (8 * 2)) 0xff = k2.
Proof.
  unfold mask, key.
  apply Forall_cons in Hk as [H0 Hk1]. apply Forall_cons in Hk1 as [H1 Hk2].
  apply Forall_cons in Hk2 as [H2 Hk3]. apply Forall_cons in Hk3 as [H3 _].
  rewrite le_combine_4 by assumption. unfold is_byte in *.
  rewrite Z.shiftr_div_pow2, land_ff by lia. change (2 ^ (8 * 2)) with 65536. divmod.
Qed.

Lemma to_uchar_byte b : is_byte b -> to_uchar b = b.
Proof. unfold is_byte, to_uchar. intros. apply Z.mod_small. lia. Qed.

Lemma unmask_rest_spec done last_ z :
  (length last_ < 4)%nat ->
  (length done mod 4 = 0)%nat ->
  Forall is_byte last_ ->
  unmask_rest (Z.of_nat (length done + length last_)) mask
    (Z.of_nat (length done)) (done ++ last_ ++ [z])
  = done ++ xor_mask key last_ ++ [z].
Proof.
  intros Hlen Hdone Hb. unfold unmask_rest.
  assert (Z.rem (Z.of_nat (length done + length last_)) 4 = Z.of_nat (length last_)) as ->.
  { rewrite Z.rem_mod_nonneg by lia.
    apply (f_equal Z.of_nat) in Hdone. rewrite Nat2Z.inj_mod in Hdone.
    change (Z.of_nat 4) with 4 in Hdone. change (Z.of_nat 0) with 0 in Hdone.
    rewrite Nat2Z.inj_add. divmod. }
  assert (Hk' := Hk).
  apply Forall_cons in Hk' as [H0 Hk1]. apply Forall_cons in Hk1 as [H1 Hk2].
  apply Forall_cons in Hk2 as [H2 _].
  destruct last_ as [|a [|b [|c [|d l]]]]; simpl in Hlen; try lia.
  - reflexivity.
  - apply Forall_cons in Hb as [Ha _].
    change (seqZ 0 (Z.of_nat (length [a]))) with [Z.of_nat 0].
    cbn [foldl]. rewrite byte_at_app, set_byte_app. cbn [lookup list_lookup default].
    change (8 * Z.of_nat 0) with (8 * 0). rewrite mask_byte_0.
    rewrite to_uchar_byte by (apply lxor_byte; assumption). reflexivity.
  - apply Forall_cons in Hb as [Ha Hb]. apply Forall_cons in Hb as [Hb _].
    change (seqZ 0 (Z.of_nat (length [a; b]))) with [Z.of_nat 0; Z.of_nat 1].
    cbn [foldl]. rewrite byte_at_app, set_byte_app. cbn [lookup list_lookup default].
    rewrite byte_at_app, set_byte_app.
    change (8 * Z.of_nat 0) with (8 * 0). change (8 * Z.of_nat 1) with (8 * 1).
    rewrite mask_byte_0, mask_byte_1.
    cbn. rewrite !to_uchar_byte by (apply lxor_byte; assumption). reflexivity.
  - apply Forall_cons in Hb as [Ha Hb]. apply Forall_cons in Hb as [Hb Hc].
    apply Forall_cons in Hc as [Hc _].
    change (seqZ 0 (Z.of_nat (length [a; b; c])))
      with [Z.of_nat 0; Z.of_nat 1; Z.of_nat 2].
    cbn [foldl]. rewrite byte_at_app, set_byte_app. cbn [lookup list_lookup default].
    rewrite byte_at_app, set_byte_app. rewrite byte_at_app, set_byte_app.
    change (8 * Z.of_nat 0) with (8 * 0). change (8 * Z.of_nat 1) with (8 * 1).
    change (8 * Z.of_nat 2) with (8 * 2).
    rewrite mask_byte_0, mask_byte_1, mask_byte_2.
    cbn. rewrite !to_uchar_byte by (apply lxor_byte; assumption). reflexivity.
Qed.

Lemma unmask_correct payload :
  Forall is_byte payload ->
  let paylen := Z.of_nat (length payload) in
  let r := unmask_bulk (Z.to_nat paylen) paylen mask 0 (payload ++ [0]) in
  set_byte (unmask_rest paylen mask (fst r) (snd r)) paylen 0x0
  = xor_mask key payload ++ [0].
Proof.
  intros Hb paylen r. subst r paylen. rewrite Nat2Z.id.
  destruct (unmask_bulk_spec (length payload) [] payload 0)
    as (mid & last_ & Hp & Hlast & Hmid & Heq); [lia|reflexivity|assumption|].
  change (unmask_bulk (length payload) (Z.of_nat (length payload)) mask 0
            (payload ++ [0])
          = (Z.of_nat (length mid), xor_mask key mid ++ last_ ++ [0])) in Heq.
  rewrite Heq. cbn [fst snd].
  assert (Forall is_byte last_) as Hbl by (rewrite Hp in Hb; apply Forall_app in Hb; tauto).
  rewrite (app_assoc _ last_ [0]).
  pose proof (unmask_rest_spec (xor_mask key mid) last_ 0 Hlast) as Hr.
  rewrite xor_mask_length in Hr.
  rewrite <- app_assoc.
  assert (length payload = (length mid + length last_)%nat) as Hl
    by (rewrite Hp, length_app; reflexivity).
  rewrite Hl. rewrite Hr by assumption.
  rewrite Hp, xor_mask_app by assumption.
  rewrite <- (xor_mask_length key mid) at 1. rewrite <- (xor_mask_length key last_) at 1.
  rewrite (app_assoc (xor_mask key mid)).
  rewrite <- length_app.
  replace (Z.of_nat (length (xor_mask key mid ++ xor_mask key last_)))
    with (Z.of_nat (length (xor_mask key mid ++ xor_mask key last_)) + Z.of_nat 0)
    by (simpl; lia).
  rewrite set_byte_app. reflexivity.
Qed.

End Unmask.

(** ** Reading from the socket *)

Lemma recv_0 r : recv 0 r = (inl [], r).
Proof. destruct r; reflexivity. Qed.

Lemma recv_pending r : forall n bs rest,
  pending r = bs ++ rest -> length bs = n ->
  exists r', recv n r = (inl bs, r') /\ pending r' = rest.
Proof.
  induction r as [|[cs|ec] r IH]; intros n bs rest Hp Hn.
  - simpl in Hp. destruct bs; [|discriminate]. simpl in Hn. subst n.
    exists []. split; [reflexivity|exact Hp].
  - destruct n as [|n].
    { destruct bs; [|discriminate]. rewrite recv_0. eauto. }
    cbn [recv]. cbn [pending] in Hp.
    destruct (decide (S n <= length cs)%nat) as [Hle|Hgt].
    + exists (Bytes (drop (S n) cs) :: r).
      assert (bs = take (S n) cs) as ->.
      { apply (f_equal (take (S n))) in Hp.
        rewrite take_app_le in Hp by lia.
        rewrite take_app_ge, Hn, Nat.sub_diag, take_0, app_nil_r in Hp by lia.
        symmetry. exact Hp. }
      split; [reflexivity|]. cbn [pending].
      apply (f_equal (drop (S n))) in Hp.
      rewrite drop_app_le in Hp by lia.
      rewrite drop_app_length' in Hp by (rewrite length_take; lia).
      exact Hp.
    + assert (exists bs', bs = cs ++ bs' /\ pending r = bs' ++ rest) as (bs' & -> & Hp').
      { exists (drop (length cs) bs).
        assert (cs = take (length cs) bs) as Hcs.
        { apply (f_equal (take (length cs))) in Hp.
          rewrite take_app_length in Hp. rewrite take_app_le in Hp by lia. exact Hp. }
        split.
        - rewrite Hcs at 1. symmetry. apply take_drop.
        - apply (f_equal (drop (length cs))) in Hp.
          rewrite drop_app_length in Hp. rewrite drop_app_le in Hp by lia. exact Hp. }
      rewrite length_app in Hn.
      destruct (IH (S n - length cs)%nat bs' rest Hp' ltac:(lia)) as (r' & Hr & Hpr).
      rewrite Hr. exists r'. split; [reflexivity|exact Hpr].
  - simpl in Hp. destruct bs; [|discriminate]. simpl in Hn. subst n.
    rewrite recv_0. eauto.
Qed.

Lemma with_rx_socket r c s :
  _socket (this c) = Some s -> _socket (this (with_rx r c)) = Some (set_rx r s).
Proof. intros H. unfold with_rx. rewrite H. reflexivity. Qed.

Lemma with_rx_with_rx r1 r2 c : with_rx r2 (with_rx r1 c) = with_rx r2 c.
Proof.
  unfold with_rx. destruct (_socket (this c)) as [s|] eqn:E; [|rewrite E; reflexivity].
  reflexivity.
Qed.

Lemma with_rx_id c s : _socket (this c) = Some s -> with_rx (rx s) c = c.
Proof.
  intros H. unfold with_rx. rewrite H. destruct c as [ss lg]. simpl in *.
  destruct ss. simpl in *. subst. destruct s. reflexivity.
Qed.

Lemma asio_read_ok c s r bs rest :
  _socket (this c) = Some s ->
  pending r = bs ++ rest ->
  exists r', asio_read (length bs) (with_rx r c) = (Ok bs, with_rx r' c) /\
             pending r' = rest.
Proof.
  intros Hs Hp. unfold asio_read. rewrite (with_rx_socket r c s Hs). simpl.
  destruct (recv_pending r (length bs) bs rest Hp eq_refl) as (r' & Hr & Hp').
  rewrite Hr. exists r'. rewrite with_rx_with_rx. auto.
Qed.

Lemma read_uint_ok c s r bs rest :
  _socket (this c) = Some s ->
  pending r = bs ++ rest ->
  exists r', read_uint (length bs) (with_rx r c) = (Ok (le_combine bs), with_rx r' c) /\
             pending r' = rest.
Proof.
  intros Hs Hp. destruct (asio_read_ok c s r bs rest Hs Hp) as (r' & Hr & Hp').
  exists r'. split; [|exact Hp']. unfold read_uint.
  rewrite (bind_ok _ _ _ _ _ Hr). reflexivity.
Qed.

Lemma read_paylen_ok c s r code ext rest n :
  _socket (this c) = Some s ->
  pending r = ext ++ rest ->
  Forall is_byte ext ->
  0 <= code <= 127 ->
  declared_length code ext = Some n ->
  n <= 2 ^ 40 ->
  exists r', read_paylen code (with_rx r c) = (Ok n, with_rx r' c) /\ pending r' = rest.
Proof.
  intros Hs Hp Hb Hcode Hd Hn. unfold read_paylen, declared_length in *.
  destruct (Z.leb_spec code 125) as [H125|H125].
  - case_bool_decide as He; [|discriminate]. injection Hd as <-. subst ext.
    rewrite !(proj2 (Z.eqb_neq _ _)) by lia.
    exists r. split; [reflexivity|exact Hp].
  - destruct (Z.eqb_spec code 126) as [->|H126].
    + case_bool_decide as He; [|discriminate]. injection Hd as <-.
      destruct ext as [|b0 [|b1 [|? ?]]]; try discriminate.
      apply Forall_cons in Hb as [H0 Hb]. apply Forall_cons in Hb as [H1 _].
      destruct (read_uint_ok c s r [b0; b1] rest Hs Hp) as (r' & Hr & Hp').
      rewrite (bind_ok _ _ _ _ _ Hr). rewrite ntohs_le by assumption.
      exists r'. split; [reflexivity|exact Hp'].
    + destruct (Z.eqb_spec code 127) as [->|H127]; [|lia].
      case_bool_decide as He; [|discriminate]. injection Hd as <-.
      destruct ext as [|b0 [|b1 [|b2 [|b3 [|b4 [|b5 [|b6 [|b7 [|? ?]]]]]]]]];
        try discriminate.
      repeat (let H := fresh "Hb" in apply Forall_cons in Hb as [H Hb]).
      change [b0; b1; b2; b3; b4; b5; b6; b7] with ([b0; b1; b2; b3] ++ [b4; b5; b6; b7]) in *.
      rewrite <- app_assoc in Hp.
      destruct (read_uint_ok c s r [b0; b1; b2; b3] _ Hs Hp) as (r1 & Hr1 & Hp1).
      destruct (read_uint_ok c s r1 [b4; b5; b6; b7] _ Hs Hp1) as (r2 & Hr2 & Hp2).
      rewrite (bind_ok _ _ _ _ _ Hr1). rewrite (bind_ok _ _ _ _ _ Hr2).
      cbv zeta. rewrite !ntohl_le by assumption.
      pose proof (be_value_bound [b0; b1; b2; b3]
                    ltac:(repeat (apply Forall_cons_2; [assumption|]); apply Forall_nil_2)) as B1.
      pose proof (be_value_bound [b4; b5; b6; b7]
                    ltac:(repeat (apply Forall_cons_2; [assumption|]); apply Forall_nil_2)) as B2.
      change (256 ^ Z.of_nat (length [b0; b1; b2; b3])) with (2 ^ 32) in B1.
      change (256 ^ Z.of_nat (length [b4; b5; b6; b7])) with (2 ^ 32) in B2.
      rewrite lung_value by assumption.
      assert (be_value ([b0; b1; b2; b3] ++ [b4; b5; b6; b7])
              = be_value [b0; b1; b2; b3] * 2 ^ 32 + be_value [b4; b5; b6; b7]) as Hv.
      { unfold be_value. simpl. lia. }
      rewrite Hv in Hn. rewrite Hv.
      change (Z.shiftl 1 40) with (2 ^ 40).
      rewrite (proj2 (Z.ltb_ge _ _)) by lia.
      exists r2. split; [reflexivity|exact Hp2].
Qed.

Lemma read_paylen_insane c s r ext rest :
  _socket (this c) = Some s ->
  pending r = ext ++ rest ->
  Forall is_byte ext ->
  length ext = 8%nat ->
  2 ^ 40 < be_value ext ->
  exists r',
    read_paylen 127 (with_rx r c)
    = (Throw SilentException,
       add_log (Warn, "Websocket insane length %lu
"%string) (with_rx r' c)) /\
    pending r' = rest.
Proof.
  intros Hs Hp Hb Hlen Hn. unfold read_paylen.
  change (127 =? 126) with false. change (127 =? 127) with true. cbv iota.
  destruct ext as [|b0 [|b1 [|b2 [|b3 [|b4 [|b5 [|b6 [|b7 [|? ?]]]]]]]]];
    try discriminate.
  repeat (let H := fresh "Hb" in apply Forall_cons in Hb as [H Hb]).
  change [b0; b1; b2; b3; b4; b5; b6; b7] with ([b0; b1; b2; b3] ++ [b4; b5; b6; b7]) in *.
  rewrite <- app_assoc in Hp.
  destruct (read_uint_ok c s r [b0; b1; b2; b3] _ Hs Hp) as (r1 & Hr1 & Hp1).
  destruct (read_uint_ok c s r1 [b4; b5; b6; b7] _ Hs Hp1) as (r2 & Hr2 & Hp2).
  rewrite (bind_ok _ _ _ _ _ Hr1). rewrite (bind_ok _ _ _ _ _ Hr2).
  cbv zeta. rewrite !ntohl_le by assumption.
  pose proof (be_value_bound [b0; b1; b2; b3]
                ltac:(repeat (apply Forall_cons_2; [assumption|]); apply Forall_nil_2)) as B1.
  pose proof (be_value_bound [b4; b5; b6; b7]
                ltac:(repeat (apply Forall_cons_2; [assumption|]); apply Forall_nil_2)) as B2.
  change (256 ^ Z.of_nat (length [b0; b1; b2; b3])) with (2 ^ 32) in B1.
  change (256 ^ Z.of_nat (length [b4; b5; b6; b7])) with (2 ^ 32) in B2.
  rewrite lung_value by assumption.
  assert (be_value ([b0; b1; b2; b3] ++ [b4; b5; b6; b7])
          = be_value [b0; b1; b2; b3] * 2 ^ 32 + be_value [b4; b5; b6; b7]) as Hv.
  { unfold be_value. simpl. lia. }
  rewrite Hv in Hn.
  change (Z.shiftl 1 40) with (2 ^ 40).
  rewrite (proj2 (Z.ltb_lt _ _)) by lia.
  exists r2. split; [reflexivity|exact Hp2].
Qed.

Lemma land_7f_range m : 0 <= Z.land m 0x7f <= 127.
Proof.
  change (Z.land m 0x7f) with (Z.land m (Z.ones 7)). rewrite Z.land_ones by lia.
  change (2 ^ 7) with 128. pose proof (Z.mod_pos_bound m 128 ltac:(lia)). lia.
Qed.

Lemma get_websocket_data_frame c s mpay ext key payload rest n :
  _socket (this c) = Some s ->
  pending (rx s) = mpay :: ext ++ key ++ payload ++ rest ->
  Forall is_byte ext -> Forall is_byte key -> Forall is_byte payload ->
  Z.land mpay 0x80 <> 0 ->
  declared_length (Z.land mpay 0x7f) ext = Some n ->
  n <= 2 ^ 40 ->
  length key = 4%nat ->
  Z.of_nat (length payload) = n ->
  exists r',
    get_websocket_data c = (Ok (xor_mask key payload ++ [0]), with_rx r' c) /\
    pending r' = rest.
Proof.
  intros Hs Hp Hext Hkey Hpay Hmask Hd Hn Hklen Hplen.
  replace (get_websocket_data c) with (get_websocket_data (with_rx (rx s) c))
    by (rewrite (with_rx_id c s Hs); reflexivity).
  unfold get_websocket_data.
  destruct (read_uint_ok c s (rx s) [mpay] _ Hs Hp) as (r1 & Hr1 & Hp1).
  rewrite (bind_ok _ _ _ _ _ Hr1). rewrite le_combine_1. cbv zeta.
  destruct (read_paylen_ok c s r1 _ ext _ n Hs Hp1 Hext (land_7f_range mpay) Hd Hn)
    as (r2 & Hr2 & Hp2).
  rewrite (bind_ok _ _ _ _ _ Hr2).
  rewrite (proj2 (Z.eqb_neq _ _) Hmask). cbn [negb].
  destruct (read_uint_ok c s r2 key _ Hs Hp2) as (r3 & Hr3 & Hp3).
  rewrite Hklen in Hr3. rewrite (bind_ok _ _ _ _ _ Hr3).
  destruct (asio_read_ok c s r3 payload rest Hs Hp3) as (r4 & Hr4 & Hp4).
  subst n. rewrite Nat2Z.id. rewrite (bind_ok _ _ _ _ _ Hr4).
  cbv zeta.
  destruct key as [|k0 [|k1 [|k2 [|k3 [|? ?]]]]]; try discriminate.
  pose proof (unmask_correct k0 k1 k2 k3 Hkey payload Hpay) as Hu.
  cbv zeta in Hu. rewrite Nat2Z.id in Hu.
  destruct (unmask_bulk (length payload) (Z.of_nat (length payload))
              (le_combine [k0; k1; k2; k3]) 0 (payload ++ [0])) as [i d].
  cbn [fst snd] in Hu. rewrite Hu.
  exists r4. split; [reflexivity|exact Hp4].
Qed.

Lemma get_websocket_data_unmasked c s mpay ext rest n :
  _socket (this c) = Some s ->
  pending (rx s) = mpay :: ext ++ rest ->
  Forall is_byte ext ->
  Z.land mpay 0x80 = 0 ->
  declared_length (Z.land mpay 0x7f) ext = Some n ->
  n <= 2 ^ 40 ->
  exists r',
    get_websocket_data c
    = (Throw SilentException,
       add_log (Warn, "WebSocket received unmasked data!"%string) (with_rx r' c)) /\
    pending r' = rest.
Proof.
  intros Hs Hp Hext Hmask Hd Hn.
  replace (get_websocket_data c) with (get_websocket_data (with_rx (rx s) c))
    by (rewrite (with_rx_id c s Hs); reflexivity).
  unfold get_websocket_data.
  destruct (read_uint_ok c s (rx s) [mpay] _ Hs Hp) as (r1 & Hr1 & Hp1).
  rewrite (bind_ok _ _ _ _ _ Hr1). rewrite le_combine_1. cbv zeta.
  destruct (read_paylen_ok c s r1 _ ext _ n Hs Hp1 Hext (land_7f_range mpay) Hd Hn)
    as (r2 & Hr2 & Hp2).
  rewrite (bind_ok _ _ _ _ _ Hr2).
  rewrite Hmask. cbn [Z.eqb negb].
  exists r2. split; [reflexivity|exact Hp2].
Qed.

Lemma get_websocket_data_insane c s mpay ext rest :
  _socket (this c) = Some s ->
  pending (rx s) = mpay :: ext ++ rest ->
  Forall is_byte ext ->
  Z.land mpay 0x7f = 127 ->
  length ext = 8%nat ->
  2 ^ 40 < be_value ext ->
  exists r',
    get_websocket_data c
    = (Throw SilentException,
       add_log (Warn, "Websocket insane length %lu
"%string) (with_rx r' c)) /\
    pending r' = rest.
Proof.
  intros Hs Hp Hext Hcode Hlen Hn.
  replace (get_websocket_data c) with (get_websocket_data (with_rx (rx s) c))
    by (rewrite (with_rx_id c s Hs); reflexivity).
  unfold get_websocket_data.
  destruct (read_uint_ok c s (rx s) [mpay] _ Hs Hp) as (r1 & Hr1 & Hp1).
  rewrite (bind_ok _ _ _ _ _ Hr1). rewrite le_combine_1. cbv zeta.
  rewrite Hcode.
  destruct (read_paylen_insane c s r1 ext rest Hs Hp1 Hext Hlen Hn) as (r2 & Hr2 & Hp2).
  rewrite (bind_throw _ _ _ _ _ Hr2).
  exists r2. split; [reflexivity|exact Hp2].
Qed.

(** ** What a successful decode has read *)

Lemma recv_inv r : forall n got r',
  recv n r = (inl got, r') -> pending r = got ++ pending r' /\ length got = n.
Proof.
  induction r as [|[cs|ec] r IH]; intros n got r' H.
  - destruct n; simpl in H; [|discriminate]. inversion H; subst. auto.
  - destruct n as [|n]; [rewrite recv_0 in H; inversion H; subst; auto|].
    cbn [recv] in H. destruct (decide (S n <= length cs)%nat) as [Hle|Hgt].
    + inversion H; subst. cbn [pending]. rewrite app_assoc, take_drop.
      split; [reflexivity|]. rewrite length_take. lia.
    + destruct (recv (S n - length cs) r) as [[g|e] r''] eqn:E; [|discriminate].
      inversion H; subst. apply IH in E as [Hp Hl]. cbn [pending].
      rewrite Hp, app_assoc. split; [reflexivity|]. rewrite length_app. lia.
  - destruct n as [|n]; [rewrite recv_0 in H; inversion H; subst; auto|].
    simpl in H. discriminate.
Qed.

Lemma asio_read_inv c s r n got c' :
  _socket (this c) = Some s ->
  asio_read n (with_rx r c) = (Ok got, c') ->
  exists r', c' = with_rx r' c /\ pending r = got ++ pending r' /\ length got = n.
Proof.
  intros Hs. unfold asio_read. rewrite (with_rx_socket r c s Hs). simpl.
  destruct (recv n r) as [[g|e] r'] eqn:E; intros H; inversion H; subst.
  apply recv_inv in E as [Hp Hl]. exists r'. rewrite with_rx_with_rx. auto.
Qed.

Lemma read_uint_inv c s r n v c' :
  _socket (this c) = Some s ->
  read_uint n (with_rx r c) = (Ok v, c') ->
  exists bs r', c' = with_rx r' c /\ pending r = bs ++ pending r' /\
                length bs = n /\ v = le_combine bs.
Proof.
  intros Hs H. unfold read_uint in H.
  apply bind_inv_ok in H as (got & c1 & Hr & Hret).
  apply (asio_read_inv c s) in Hr as (r' & -> & Hp & Hl); [|exact Hs].
  inversion Hret; subst. eauto 10.
Qed.

Lemma read_paylen_inv c s r code n c' :
  _socket (this c) = Some s ->
  0 <= code <= 127 ->
  Forall is_byte (pending r) ->
  read_paylen code (with_rx r c) = (Ok n, c') ->
  exists ext r', c' = with_rx r' c /\ pending r = ext ++ pending r' /\
                 declared_length code ext = Some n /\ 0 <= n <= 2 ^ 40.
Proof.
  intros Hs Hcode Hb H. unfold read_paylen in H. unfold declared_length.
  destruct (Z.eqb_spec code 126) as [->|H126].
  - apply bind_inv_ok in H as (v & c1 & Hr & Hret).
    apply (read_uint_inv c s) in Hr as (bs & r' & -> & Hp & Hl & ->); [|exact Hs].
    inversion Hret; subst. exists bs, r'. split; [reflexivity|]. split; [exact Hp|].
    change (126 <=? 125) with false. cbn [Z.eqb Pos.eqb]. cbv iota.
    rewrite bool_decide_eq_true_2 by exact Hl.
    destruct bs as [|b0 [|b1 [|? ?]]]; try discriminate.
    rewrite Hp in Hb. apply Forall_app in Hb as [Hb _].
    apply Forall_cons in Hb as [H0 Hb]. apply Forall_cons in Hb as [H1 _].
    rewrite ntohs_le by assumption. split; [reflexivity|].
    pose proof (be_value_bound [b0; b1]
                  ltac:(repeat (apply Forall_cons_2; [assumption|]); apply Forall_nil_2)) as B.
    change (256 ^ Z.of_nat (length [b0; b1])) with 65536 in B. lia.
  - destruct (Z.eqb_spec code 127) as [->|H127].
    + apply bind_inv_ok in H as (v1 & c1 & Hr1 & H).
      apply (read_uint_inv c s) in Hr1 as (bs1 & r1 & -> & Hp1 & Hl1 & ->); [|exact Hs].
      apply bind_inv_ok in H as (v2 & c2 & Hr2 & H).
      apply (read_uint_inv c s) in Hr2 as (bs2 & r2 & -> & Hp2 & Hl2 & ->); [|exact Hs].
      cbv zeta in H.
      destruct bs1 as [|b0 [|b1 [|b2 [|b3 [|? ?]]]]]; try discriminate.
      destruct bs2 as [|b4 [|b5 [|b6 [|b7 [|? ?]]]]]; try discriminate.
      rewrite Hp1, Hp2 in Hb.
      apply Forall_app in Hb as [Hb1 Hb]. apply Forall_app in Hb as [Hb2 _].
      assert (Hb1' := Hb1). assert (Hb2' := Hb2).
      repeat (let H := fresh "Hx" in apply Forall_cons in Hb1' as [H Hb1']).
      repeat (let H := fresh "Hy" in apply Forall_cons in Hb2' as [H Hb2']).
      rewrite !ntohl_le in H by assumption.
      pose proof (be_value_bound _ Hb1) as B1. pose proof (be_value_bound _ Hb2) as B2.
      change (256 ^ Z.of_nat (length [b0; b1; b2; b3])) with (2 ^ 32) in B1.
      change (256 ^ Z.of_nat (length [b4; b5; b6; b7])) with (2 ^ 32) in B2.
      rewrite lung_value in H by assumption.
      change (Z.shiftl 1 40) with (2 ^ 40) in H.
      destruct (Z.ltb_spec (2 ^ 40)
                  (be_value [b0; b1; b2; b3] * 2 ^ 32 + be_value [b4; b5; b6; b7]))
        as [Hbig|Hsmall].
      * apply bind_inv_ok in H as (? & ? & _ & H). discriminate.
      * inversion H; subst.
        exists ([b0; b1; b2; b3] ++ [b4; b5; b6; b7]), r2.
        split; [reflexivity|]. split; [rewrite Hp1, Hp2, app_assoc; reflexivity|].
        change (127 <=? 125) with false. cbn [Z.eqb Pos.eqb]. cbv iota.
        rewrite bool_decide_eq_true_2 by reflexivity.
        assert (be_value ([b0; b1; b2; b3] ++ [b4; b5; b6; b7])
                = be_value [b0; b1; b2; b3] * 2 ^ 32 + be_value [b4; b5; b6; b7]) as Hv.
        { unfold be_value. simpl. lia. }
        rewrite Hv. split; [reflexivity|lia].
    + inversion H; subst. exists [], r. split; [reflexivity|]. split; [reflexivity|].
      rewrite (proj2 (Z.leb_le _ _)) by lia.
      rewrite bool_decide_eq_true_2 by reflexivity. split; [reflexivity|lia].
Qed.

(** The shape of what a successful [get_websocket_data] has read. *)
Lemma get_websocket_data_shape c s blob c' :
  _socket (this c) = Some s ->
  Forall is_byte (pending (rx s)) ->
  get_websocket_data c = (Ok blob, c') ->
  exists mpay ext key payload n r',
    c' = with_rx r' c /\
    pending (rx s) = mpay :: ext ++ key ++ payload ++ pending r' /\
    Z.land mpay 0x80 <> 0 /\
    declared_length (Z.land mpay 0x7f) ext = Some n /\ n <= 2 ^ 40 /\
    length key = 4%nat /\ Z.of_nat (length payload) = n.
Proof.
  intros Hs Hb H.
  replace (get_websocket_data c) with (get_websocket_data (with_rx (rx s) c)) in H
    by (rewrite (with_rx_id c s Hs); reflexivity).
  unfold get_websocket_data in H.
  apply bind_inv_ok in H as (v & c1 & Hr1 & H).
  apply (read_uint_inv c s) in Hr1 as (bs & r1 & -> & Hp1 & Hl1 & ->); [|exact Hs].
  destruct bs as [|mpay [|? ?]]; try discriminate.
  rewrite le_combine_1 in H. cbv zeta in H.
  apply bind_inv_ok in H as (n & c2 & Hr2 & H).
  assert (Forall is_byte (pending r1)) as Hb1
    by (rewrite Hp1 in Hb; apply Forall_app in Hb; tauto).
  apply (read_paylen_inv c s) in Hr2 as (ext & r2 & -> & Hp2 & Hd & Hn);
    [|exact Hs|apply land_7f_range|exact Hb1].
  destruct (Z.eqb_spec (Z.land mpay 128) 0) as [Hm|Hm]; cbn [negb] in H.
  { apply bind_inv_ok in H as (? & ? & _ & H). discriminate. }
  apply bind_inv_ok in H as (mask & c3 & Hr3 & H).
  apply (read_uint_inv c s) in Hr3 as (key & r3 & -> & Hp3 & Hl3 & ->); [|exact Hs].
  apply bind_inv_ok in H as (payload & c4 & Hr4 & H).
  apply (asio_read_inv c s) in Hr4 as (r4 & -> & Hp4 & Hl4); [|exact Hs].
  destruct (unmask_bulk _ _ _ _ _) as [i d] in H. inversion H; subst.
  exists mpay, ext, key, payload, n, r4.
  split; [reflexivity|].
  split; [rewrite Hp1, Hp2, Hp3, Hp4; reflexivity|].
  split; [exact Hm|]. split; [exact Hd|]. split; [lia|]. split; [exact Hl3|]. lia.
Qed.

Lemma ping_loop_other fuel op :
  op <> 9 -> op <> 10 -> ping_loop fuel op = mret op.
Proof.
  intros H9 H10. destruct fuel; simpl;
    rewrite (proj2 (Z.eqb_neq _ _) H9), (proj2 (Z.eqb_neq _ _) H10); reflexivity.
Qed.

Lemma get_websocket_line_text_from c s r fop mpay ext key payload rest n :
  _socket (this c) = Some s ->
  pending r = fop :: mpay :: ext ++ key ++ payload ++ rest ->
  Z.land fop 0xf = 1 ->
  Forall is_byte ext -> Forall is_byte key -> Forall is_byte payload ->
  Z.land mpay 0x80 <> 0 ->
  declared_length (Z.land mpay 0x7f) ext = Some n ->
  n <= 2 ^ 40 ->
  length key = 4%nat ->
  Z.of_nat (length payload) = n ->
  exists r',
    get_websocket_line (with_rx r c) = (Ok (xor_mask key payload ++ [0]), with_rx r' c) /\
    pending r' = rest.
Proof.
  intros Hs Hp Hop Hext Hkey Hpay Hmask Hd Hn Hklen Hplen.
  unfold get_websocket_line, websocket_line.
  destruct (read_uint_ok c s r [fop] _ Hs Hp) as (r1 & Hr1 & Hp1).
  rewrite (bind_ok _ _ _ _ _ Hr1). rewrite le_combine_1, Hop.
  rewrite ping_loop_other by lia.
  rewrite (bind_ok (mret 1) _ (with_rx r1 c) 1 (with_rx r1 c) eq_refl).
  cbn [Z.eqb Pos.eqb negb].
  destruct (get_websocket_data_frame (with_rx r1 c) (set_rx r1 s) mpay ext key payload rest n)
    as (r' & Hg & Hp'); auto using with_rx_socket.
  rewrite Hg, with_rx_with_rx. eauto.
Qed.

Lemma get_websocket_line_text c s fop mpay ext key payload rest n :
  _socket (this c) = Some s ->
  pending (rx s) = fop :: mpay :: ext ++ key ++ payload ++ rest ->
  Z.land fop 0xf = 1 ->
  Forall is_byte ext -> Forall is_byte key -> Forall is_byte payload ->
  Z.land mpay 0x80 <> 0 ->
  declared_length (Z.land mpay 0x7f) ext = Some n ->
  n <= 2 ^ 40 ->
  length key = 4%nat ->
  Z.of_nat (length payload) = n ->
  exists r',
    get_websocket_line c = (Ok (xor_mask key payload ++ [0]), with_rx r' c) /\
    pending r' = rest.
Proof.
  intros Hs Hp Hop Hext Hkey Hpay Hmask Hd Hn Hklen Hplen.
  pose proof (get_websocket_line_text_from c s (rx s) fop mpay ext key payload rest n
                Hs Hp Hop Hext Hkey Hpay Hmask Hd Hn Hklen Hplen) as H.
  rewrite (with_rx_id c s Hs) in H. exact H.
Qed.


(** ** Sending *)

Lemma Send_ok c s buf :
  _socket (this c) = Some s -> wr_error s = success ->
  Send buf c = (Ok tt, with_sent buf c).
Proof.
  intros Hs Hw. unfold Send, with_sent. rewrite Hs, Hw. reflexivity.
Qed.

Lemma with_sent_socket buf c s :
  _socket (this c) = Some s ->
  _socket (this (with_sent buf c)) = Some (set_tx (tx s ++ [buf]) s).
Proof. intros Hs. unfold with_sent. rewrite Hs. reflexivity. Qed.

Lemma Send_Send c s b1 b2 :
  _socket (this c) = Some s -> wr_error s = success ->
  (Send b1 ;; Send b2) c = (Ok tt, with_sent b2 (with_sent b1 c)).
Proof.
  intros Hs Hw. rewrite (bind_ok _ _ _ _ _ (Send_ok c s b1 Hs Hw)).
  apply (Send_ok _ _ b2 (with_sent_socket b1 c s Hs)). exact Hw.
Qed.

Lemma send_websocket_sends c s cmd :
  _socket (this c) = Some s -> wr_error s = success ->
  send_websocket cmd c
  = (Ok tt, with_sent cmd (with_sent (frame_header (Z.of_nat (length cmd))) c)).
Proof.
  intros Hs Hw. unfold send_websocket, frame_header. cbv zeta.
  rewrite Nat2Z.id, firstn_all.
  destruct (Z.of_nat (length cmd) <? 126); [|destruct (Z.of_nat (length cmd) <? 65536)];
    apply (Send_Send c s); assumption.
Qed.

Lemma frame_header_declares n :
  0 <= n < 2 ^ 64 ->
  exists b1 ext,
    frame_header n = 0x81 :: b1 :: ext /\
    Z.land b1 0x80 = 0 /\
    declared_length (Z.land b1 0x7f) ext = Some n /\
    (n < 126 -> ext = []) /\
    (126 <= n < 65536 -> length ext = 2%nat) /\
    (65536 <= n -> length ext = 8%nat).
Proof.
  intros Hn. unfold frame_header.
  destruct (Z.ltb_spec n 126) as [H1|H1]; [|destruct (Z.ltb_spec n 65536) as [H2|H2]].
  - exists (to_uchar n), []. unfold to_uchar. rewrite Z.mod_small by lia.
    assert (Z.land n 0x80 = 0 /\ Z.land n 0x7f = n) as [Ha Hb].
    { assert (n ∈ seqZ 0 126) as Hin by (apply elem_of_seqZ; lia).
      revert Hin. generalize n. apply Forall_forall.
      apply (bool_decide_unpack _). vm_compute. reflexivity. }
    rewrite Ha, Hb. unfold declared_length.
    rewrite (proj2 (Z.leb_le _ _)) by lia. repeat split; try lia.
  - exists 126, [Z.land (Z.shiftr n 8) 0xff; Z.land n 0xff].
    split; [reflexivity|]. split; [reflexivity|]. split; [|repeat split; lia].
    unfold declared_length, be_value. simpl.
    rewrite !land_ff, Z.shiftr_div_pow2 by lia. change (2 ^ 8) with 256.
    f_equal. divmod.
  - exists 127, [Z.land (Z.shiftr n 56) 0xff; Z.land (Z.shiftr n 48) 0xff;
                 Z.land (Z.shiftr n 40) 0xff; Z.land (Z.shiftr n 32) 0xff;
                 Z.land (Z.shiftr n 24) 0xff; Z.land (Z.shiftr n 16) 0xff;
                 Z.land (Z.shiftr n 8) 0xff; Z.land n 0xff].
    split; [reflexivity|]. split; [reflexivity|]. split; [|repeat split; lia].
    unfold declared_length, be_value. simpl.
    rewrite !land_ff, !Z.shiftr_div_pow2 by lia.
    change (2 ^ 64) with 18446744073709551616 in Hn.
    change (2 ^ 8) with 256. change (2 ^ 16) with 65536.
    change (2 ^ 24) with 16777216. change (2 ^ 32) with 4294967296.
    change (2 ^ 40) with 1099511627776. change (2 ^ 48) with 281474976710656.
    change (2 ^ 56) with 72057594037927936.
    f_equal. divmod.
Qed.

Lemma frame_header_codes n b1 ext :
  frame_header n = 0x81 :: b1 :: ext ->
  (126 <= n < 65536 -> b1 = 126) /\ (65536 <= n -> b1 = 127).
Proof.
  unfold frame_header.
  destruct (Z.ltb_spec n 126) as [H1|H1]; [|destruct (Z.ltb_spec n 65536) as [H2|H2]];
    intros H; injection H as <- _; split; intros; lia || reflexivity.
Qed.


(** ** Bytes still to arrive *)

Lemma recv_size r : forall n got r',
  recv n r = (inl got, r') -> rx_size r = (n + rx_size r')%nat.
Proof.
  induction r as [|[cs|ec] r IH]; intros n got r' H.
  - destruct n; simpl in H; [|discriminate]. inversion H; subst. reflexivity.
  - destruct n as [|n]; [rewrite recv_0 in H; inversion H; subst; reflexivity|].
    cbn [recv] in H. destruct (decide (S n <= length cs)%nat) as [Hle|Hgt].
    + inversion H; subst. cbn [rx_size]. rewrite length_drop. lia.
    + destruct (recv (S n - length cs) r) as [[g|e] r''] eqn:E; [|discriminate].
      inversion H; subst. apply IH in E. cbn [rx_size]. lia.
  - destruct n as [|n]; [rewrite recv_0 in H; inversion H; subst; reflexivity|].
    simpl in H. discriminate.
Qed.

Lemma bytes_to_arrive_with_rx r c s :
  _socket (this c) = Some s -> bytes_to_arrive (with_rx r c) = rx_size r.
Proof.
  intros Hs. unfold bytes_to_arrive. rewrite (with_rx_socket r c s Hs). reflexivity.
Qed.

Lemma asio_read_size n c got c' :
  asio_read n c = (Ok got, c') ->
  bytes_to_arrive c = (n + bytes_to_arrive c')%nat.
Proof.
  unfold asio_read. destruct (_socket (this c)) as [s|] eqn:Hs; [|discriminate].
  destruct (recv n (rx s)) as [[g|e] r'] eqn:E; intros H; inversion H; subst.
  rewrite (bytes_to_arrive_with_rx r' c s Hs).
  unfold bytes_to_arrive. rewrite Hs. eapply recv_size, E.
Qed.

Lemma read_uint_size n c v c' :
  read_uint n c = (Ok v, c') ->
  bytes_to_arrive c = (n + bytes_to_arrive c')%nat.
Proof.
  unfold read_uint. intros H. apply bind_inv_ok in H as (got & c1 & Hr & Hret).
  inversion Hret; subst. eapply asio_read_size, Hr.
Qed.

Lemma Send_size buf c r c' :
  Send buf c = (r, c') -> bytes_to_arrive c' = bytes_to_arrive c.
Proof.
  unfold Send, bytes_to_arrive.
  destruct (_socket (this c)) as [s|] eqn:Hs.
  - destruct (wr_error s); intros H; inversion H; subst; simpl;
      rewrite ?Hs; try reflexivity;
      destruct (send_harmless _); simpl; rewrite Hs; reflexivity.
  - intros H; inversion H; subst. rewrite Hs. reflexivity.
Qed.

Lemma read_paylen_size code c n c' :
  read_paylen code c = (Ok n, c') ->
  (bytes_to_arrive c' <= bytes_to_arrive c)%nat.
Proof.
  unfold read_paylen. destruct (code =? 126).
  - intros H. apply bind_inv_ok in H as (v & c1 & Hr & Hret).
    inversion Hret; subst. apply read_uint_size in Hr. lia.
  - destruct (code =? 127).
    + intros H. apply bind_inv_ok in H as (v1 & c1 & Hr1 & H).
      apply bind_inv_ok in H as (v2 & c2 & Hr2 & H). cbv zeta in H.
      apply read_uint_size in Hr1. apply read_uint_size in Hr2.
      destruct (_ <? _) in H.
      * apply bind_inv_ok in H as (? & ? & _ & H). discriminate.
      * inversion H; subst. lia.
    + intros H; inversion H; subst. lia.
Qed.

Lemma get_websocket_data_size c blob c' :
  get_websocket_data c = (Ok blob, c') ->
  (bytes_to_arrive c' < bytes_to_arrive c)%nat.
Proof.
  unfold get_websocket_data. intros H.
  apply bind_inv_ok in H as (mpay & c1 & Hr1 & H). cbv zeta in H.
  apply bind_inv_ok in H as (n & c2 & Hr2 & H).
  apply read_uint_size in Hr1. apply read_paylen_size in Hr2.
  destruct (negb _) in H.
  { apply bind_inv_ok in H as (? & ? & _ & H). discriminate. }
  apply bind_inv_ok in H as (mask & c3 & Hr3 & H).
  apply bind_inv_ok in H as (payload & c4 & Hr4 & H).
  apply read_uint_size in Hr3. apply asio_read_size in Hr4.
  destruct (unmask_bulk _ _ _ _ _) in H. inversion H; subst. lia.
Qed.

Lemma pong_size opcode pingd c r c' :
  (if opcode =? 9 then
     let paylen := (Z.of_nat (length pingd) - 1) mod 2 ^ 64 in
     Send [0x8a; to_uchar paylen];;
     if 0 <? paylen then Send (take (Z.to_nat paylen) pingd)
     else mret tt
   else mret tt) c = (r, c') ->
  bytes_to_arrive c' = bytes_to_arrive c.
Proof.
  destruct (opcode =? 9); [|intros H; inversion H; reflexivity].
  cbv zeta. unfold mbind, M_bind.
  destruct (Send _ c) as [[[]| | |] c1] eqn:E1; apply Send_size in E1;
    try (intros H; inversion H; subst; exact E1).
  destruct (0 <? _).
  - intros H. apply Send_size in H. congruence.
  - intros H; inversion H; subst. exact E1.
Qed.

Lemma ping_turn_size opcode c op' c' :
  ping_turn opcode c = (Ok op', c') ->
  (bytes_to_arrive c' + 2 <= bytes_to_arrive c)%nat.
Proof.
  unfold ping_turn. intros H.
  apply bind_inv_ok in H as (pingd & c1 & Hr1 & H).
  apply bind_inv_ok in H as ([] & c2 & Hr2 & H).
  apply bind_inv_ok in H as (fop & c3 & Hr3 & H).
  inversion H; subst.
  apply get_websocket_data_size in Hr1. apply pong_size in Hr2.
  apply read_uint_size in Hr3. lia.
Qed.

Lemma ping_loop_fuel f1 : forall f2 opcode c,
  (bytes_to_arrive c < f1)%nat -> (bytes_to_arrive c < f2)%nat ->
  ping_loop f1 opcode c = ping_loop f2 opcode c.
Proof.
  induction f1 as [|f1 IH]; intros f2 opcode c H1 H2; [lia|].
  destruct f2 as [|f2]; [lia|].
  cbn [ping_loop]. destruct ((opcode =? 9) || (opcode =? 10)); [|reflexivity].
  apply bind_ext. intros op' c1 Ht. apply ping_turn_size in Ht.
  apply IH; lia.
Qed.

(** ** No loop of the codec runs out of fuel *)

(** ** No loop of the codec is cut short *)

Lemma returns_bind {A B} (m : M A) (f : A -> M B) :
  returns m -> (forall a, returns (f a)) -> returns (m ≫= f).
Proof.
  intros Hm Hf c. unfold mbind, M_bind. specialize (Hm c).
  destruct (m c) as [[a| | |] c1]; try discriminate; [apply Hf|contradiction].
Qed.

Lemma returns_ret {A} (a : A) : returns (mret a).
Proof. intros c. discriminate. Qed.

Lemma returns_throw {A} e : returns (@throw A e).
Proof. intros c. discriminate. Qed.

Lemma returns_logger l fmt : returns (logger l fmt).
Proof. intros c. discriminate. Qed.

Lemma returns_asio_read n : returns (asio_read n).
Proof.
  intros c. unfold asio_read. destruct (_socket (this c)); [|discriminate].
  destruct (recv n (rx t)) as [[?|?] ?]; discriminate.
Qed.

Lemma returns_read_uint n : returns (read_uint n).
Proof.
  apply returns_bind; [apply returns_asio_read|intros; apply returns_ret].
Qed.

Lemma returns_Send buf : returns (Send buf).
Proof.
  intros c. unfold Send. destruct (_socket (this c)); [|discriminate].
  destruct (wr_error t); discriminate.
Qed.

Lemma returns_read_paylen code : returns (read_paylen code).
Proof.
  unfold read_paylen. destruct (code =? 126).
  - apply returns_bind; [apply returns_read_uint|intros; apply returns_ret].
  - destruct (code =? 127); [|apply returns_ret].
    apply returns_bind; [apply returns_read_uint|intros v1].
    apply returns_bind; [apply returns_read_uint|intros v2]. cbv zeta.
    destruct (_ <? _); [|apply returns_ret].
    apply returns_bind; [apply returns_logger|intros; apply returns_throw].
Qed.

Lemma returns_get_websocket_data : returns get_websocket_data.
Proof.
  unfold get_websocket_data.
  apply returns_bind; [apply returns_read_uint|intros mpay]. cbv zeta.
  apply returns_bind; [apply returns_read_paylen|intros n].
  destruct (negb _).
  - apply returns_bind; [apply returns_logger|intros; apply returns_throw].
  - apply returns_bind; [apply returns_read_uint|intros mask].
    apply returns_bind; [apply returns_asio_read|intros payload].
    destruct (unmask_bulk _ _ _ _ _). apply returns_ret.
Qed.

Lemma returns_ping_turn opcode : returns (ping_turn opcode).
Proof.
  unfold ping_turn.
  apply returns_bind; [apply returns_get_websocket_data|intros pingd].
  apply returns_bind.
  - destruct (opcode =? 9); [|apply returns_ret]. cbv zeta.
    apply returns_bind; [apply returns_Send|intros _].
    destruct (0 <? _); [apply returns_Send|apply returns_ret].
  - intros _. apply returns_bind; [apply returns_read_uint|intros; apply returns_ret].
Qed.

Lemma ping_loop_total f : forall opcode c,
  (bytes_to_arrive c < f)%nat -> fst (ping_loop f opcode c) <> OutOfFuel.
Proof.
  induction f as [|f IH]; intros opcode c Hf; [lia|].
  cbn [ping_loop]. destruct ((opcode =? 9) || (opcode =? 10)); [|discriminate].
  unfold mbind, M_bind. pose proof (returns_ping_turn opcode c) as Hr.
  destruct (ping_turn opcode c) as [[op'| | |] c1] eqn:Ht; try discriminate.
  - apply ping_turn_size in Ht. apply IH. lia.
  - contradiction.
Qed.

(** [get_websocket_line] always comes back: with a value or an exception
    (or [Undefined] without a socket), never for lack of fuel. *)
Lemma get_websocket_line_total : returns get_websocket_line.
Proof.
  intros c. unfold get_websocket_line, websocket_line, mbind, M_bind.
  pose proof (returns_read_uint 1 c) as Hr.
  destruct (read_uint 1 c) as [[fop| | |] c1] eqn:E; try discriminate; [|contradiction].
  apply read_uint_size in E.
  pose proof (ping_loop_total (bytes_to_arrive c) (Z.land fop 15) c1 ltac:(lia)) as Hp.
  destruct (ping_loop _ _ c1) as [[op| | |] c2]; try discriminate; [|contradiction].
  destruct (op =? 8); [discriminate|].
  destruct (negb _); [discriminate|]. apply returns_get_websocket_data.
Qed.

Lemma websocket_line_fuel f1 f2 c :
  (bytes_to_arrive c <= f1)%nat -> (bytes_to_arrive c <= f2)%nat ->
  websocket_line f1 c = websocket_line f2 c.
Proof.
  intros H1 H2. unfold websocket_line.
  apply bind_ext. intros fop c1 Hr. apply read_uint_size in Hr.
  unfold mbind, M_bind.
  rewrite (ping_loop_fuel f1 f2) by lia. reflexivity.
Qed.

(** ** Control frames *)

Lemma with_sent_with_rx buf r c :
  with_sent buf (with_rx r c) = with_rx r (with_sent buf c).
Proof.
  unfold with_sent, with_rx. destruct (_socket (this c)) as [s|] eqn:E; simpl;
    rewrite ?E; reflexivity.
Qed.

Lemma with_pong_with_rx p r c : with_pong p (with_rx r c) = with_rx r (with_pong p c).
Proof.
  unfold with_pong. cbv zeta. destruct (bool_decide (p = []));
    rewrite ?with_sent_with_rx; reflexivity.
Qed.

Lemma with_pong_socket p c s :
  _socket (this c) = Some s ->
  exists s', _socket (this (with_pong p c)) = Some s' /\ rx s' = rx s /\
             wr_error s' = wr_error s.
Proof.
  intros Hs. unfold with_pong. cbv zeta.
  pose proof (with_sent_socket [0x8a; to_uchar (Z.of_nat (length p))] c s Hs) as H1.
  destruct (bool_decide (p = [])).
  - eexists. split; [exact H1|]. split; reflexivity.
  - eexists. split; [exact (with_sent_socket p _ _ H1)|]. split; reflexivity.
Qed.

(** The answer to a ping whose decoded data is [payload ++ [0]]. *)
Lemma pong_reply c s payload :
  _socket (this c) = Some s -> wr_error s = success ->
  Z.of_nat (length payload) < 2 ^ 64 ->
  (let paylen := (Z.of_nat (length (payload ++ [0])) - 1) mod 2 ^ 64 in
   Send [0x8a; to_uchar paylen];;
   if 0 <? paylen then Send (take (Z.to_nat paylen) (payload ++ [0]))
   else mret tt) c
  = (Ok tt, with_pong payload c).
Proof.
  intros Hs Hw Hlen. cbv zeta.
  rewrite length_app. cbn [length].
  replace ((Z.of_nat (length payload + 1) - 1) mod 2 ^ 64) with (Z.of_nat (length payload))
    by (rewrite Z.mod_small; lia).
  rewrite (bind_ok _ _ _ _ _ (Send_ok c s _ Hs Hw)).
  unfold with_pong. cbv zeta. destruct payload as [|b payload].
  - reflexivity.
  - rewrite bool_decide_eq_false_2 by discriminate.
    replace (0 <? Z.of_nat (length (b :: payload))) with true
      by (symmetry; apply Z.ltb_lt; simpl; lia).
    rewrite Nat2Z.id, take_app_length.
    apply (Send_ok _ _ _ (with_sent_socket _ c s Hs)). exact Hw.
Qed.

Lemma websocket_line_control c s r F fop mpay ext key payload rest n :
  _socket (this c) = Some s ->
  wr_error s = success ->
  pending r = fop :: mpay :: ext ++ key ++ payload ++ rest ->
  Forall is_byte ext -> Forall is_byte key -> Forall is_byte payload ->
  Z.land mpay 0x80 <> 0 ->
  declared_length (Z.land mpay 0x7f) ext = Some n ->
  n <= 2 ^ 40 ->
  length key = 4%nat ->
  Z.of_nat (length payload) = n ->
  Z.land fop 0xf = 9 \/ Z.land fop 0xf = 10 ->
  exists r',
    pending r' = rest /\ (rx_size r' <= rx_size r)%nat /\
    websocket_line (S F) (with_rx r c)
    = websocket_line F
        (if Z.land fop 0xf =? 9 then with_pong (xor_mask key payload) (with_rx r' c)
         else with_rx r' c).
Proof.
  intros Hs Hw Hp Hext Hkey Hpay Hmask Hd Hn Hklen Hplen Hop.
  destruct (read_uint_ok c s r [fop] _ Hs Hp) as (r1 & Hr1 & Hp1).
  destruct (get_websocket_data_frame (with_rx r1 c) (set_rx r1 s) mpay ext key payload rest n)
    as (r' & Hg & Hp'); auto using with_rx_socket.
  rewrite with_rx_with_rx in Hg.
  exists r'. split; [exact Hp'|]. split.
  { pose proof (read_uint_size _ _ _ _ Hr1) as S1.
    pose proof (get_websocket_data_size _ _ _ Hg) as S2.
    rewrite !(bytes_to_arrive_with_rx _ c s Hs) in *. simpl in S1. lia. }
  unfold websocket_line at 1.
  rewrite (bind_ok _ _ _ _ _ Hr1). rewrite le_combine_1.
  cbn [ping_loop].
  replace ((Z.land fop 15 =? 9) || (Z.land fop 15 =? 10)) with true
    by (destruct Hop as [-> | ->]; reflexivity).
  rewrite bind_assoc. unfold ping_turn. rewrite bind_assoc.
  rewrite (bind_ok _ _ _ _ _ Hg). rewrite bind_assoc.
  assert (Z.of_nat (length (xor_mask key payload)) < 2 ^ 64) as Hl64
    by (rewrite xor_mask_length; lia).
  destruct Hop as [Hop | Hop]; rewrite Hop; cbn [Z.eqb Pos.eqb].
  - pose proof (pong_reply (with_rx r' c) (set_rx r' s) (xor_mask key payload)
                  (with_rx_socket r' c s Hs) Hw Hl64) as Hpong.
    rewrite (bind_ok _ _ _ _ _ Hpong).
    unfold websocket_line, mbind, M_bind.
    destruct (read_uint 1 _) as [[?| | |] ?]; reflexivity.
  - rewrite (bind_ok (mret tt) _ (with_rx r' c) tt (with_rx r' c) eq_refl).
    unfold websocket_line, mbind, M_bind.
    destruct (read_uint 1 _) as [[?| | |] ?]; reflexivity.
Qed.

Lemma sent_with_sent buf c s :
  _socket (this c) = Some s -> sent (with_sent buf c) = sent c ++ buf.
Proof.
  intros Hs. unfold sent. rewrite (with_sent_socket buf c s Hs), Hs. simpl.
  rewrite concat_app. simpl. rewrite app_nil_r. reflexivity.
Qed.

Lemma sent_with_rx r c : sent (with_rx r c) = sent c.
Proof.
  unfold sent, with_rx. destruct (_socket (this c)) as [s|] eqn:E; simpl;
    rewrite ?E; reflexivity.
Qed.

Lemma sent_with_pong p c s :
  _socket (this c) = Some s ->
  sent (with_pong p c) = sent c ++ 0x8a :: to_uchar (Z.of_nat (length p)) :: p.
Proof.
  intros Hs. unfold with_pong. cbv zeta.
  pose proof (with_sent_socket [0x8a; to_uchar (Z.of_nat (length p))] c s Hs) as H1.
  destruct p as [|b p].
  - rewrite bool_decide_eq_true_2 by reflexivity.
    rewrite (sent_with_sent _ c s Hs). reflexivity.
  - rewrite bool_decide_eq_false_2 by discriminate.
    rewrite (sent_with_sent _ _ _ H1), (sent_with_sent _ c s Hs).
    rewrite <- app_assoc. reflexivity.
Qed.

Lemma get_websocket_line_control c s fop mpay ext key payload rest n :
  _socket (this c) = Some s ->
  wr_error s = success ->
  pending (rx s) = fop :: mpay :: ext ++ key ++ payload ++ rest ->
  Forall is_byte ext -> Forall is_byte key -> Forall is_byte payload ->
  Z.land mpay 0x80 <> 0 ->
  declared_length (Z.land mpay 0x7f) ext = Some n ->
  n <= 2 ^ 40 ->
  length key = 4%nat ->
  Z.of_nat (length payload) = n ->
  Z.land fop 0xf = 9 \/ Z.land fop 0xf = 10 ->
  exists r',
    pending r' = rest /\
    get_websocket_line c
    = get_websocket_line
        (if Z.land fop 0xf =? 9 then with_pong (xor_mask key payload) (with_rx r' c)
         else with_rx r' c).
Proof.
  intros Hs Hw Hp Hext Hkey Hpay Hmask Hd Hn Hklen Hplen Hop.
  destruct (websocket_line_control c s (rx s) (bytes_to_arrive c) fop mpay ext key
              payload rest n Hs Hw Hp Hext Hkey Hpay Hmask Hd Hn Hklen Hplen Hop)
    as (r' & Hp' & Hsize & Hstep).
  exists r'. split; [exact Hp'|].
  rewrite (with_rx_id c s Hs) in Hstep.
  unfold get_websocket_line at 1.
  rewrite (websocket_line_fuel _ (S (bytes_to_arrive c)) c) by lia.
  rewrite Hstep. unfold get_websocket_line.
  apply websocket_line_fuel; [|lia].
  assert (bytes_to_arrive c = rx_size (rx s)) as ->
    by (unfold bytes_to_arrive; rewrite Hs; reflexivity).
  destruct (Z.land fop 15 =? 9).
  - rewrite with_pong_with_rx.
    destruct (with_pong_socket (xor_mask key payload) c s Hs) as (s' & Hs' & _ & _).
    rewrite (bytes_to_arrive_with_rx r' _ s' Hs'). exact Hsize.
  - rewrite (bytes_to_arrive_with_rx r' c s Hs). exact Hsize.
Qed.

End WebSocketFacts.

(** * Claims about the frame codec *)

Module WebSocketClaims.
Import WebSocket Wire MonadFacts WebSocketFacts Sample.

(** Setting the mask bit leaves the seven length bits as they were. *)
Lemma set_mask_bit b :
  Z.land (Z.lor b 0x80) 0x7f = Z.land b 0x7f /\ Z.land (Z.lor b 0x80) 0x80 <> 0.
Proof.
  rewrite !Z.land_lor_distr_l. split.
  - change (Z.land 128 127) with 0. apply Z.lor_0_r.
  - change (Z.land 128 128) with 128. intros H.
    apply Z.lor_eq_0_iff in H as [_ H]. discriminate.
Qed.

(** Whatever the text and the mask: what [send_websocket] frames comes
    back from [get_websocket_data] with one NUL byte behind it. *)
Lemma round_trip_text key text :
  length key = 4%nat -> Forall is_byte key -> Forall is_byte text ->
  Z.of_nat (length text) <= 2 ^ 40 ->
  round_trip key text = Ok (text ++ [0]).
Proof.
  intros Hklen Hkey Htext Hlen. unfold round_trip.
  rewrite (send_websocket_sends (sample_ctx []) (sample_socket []) text eq_refl eq_refl).
  destruct (frame_header_declares (Z.of_nat (length text)) ltac:(lia))
    as (b1 & ext & Hh & Hm & Hd & H2 & H4 & H10).
  destruct (frame_header_codes _ _ _ Hh) as [Hc4 Hc10].
  rewrite Hh.
  cbn [snd].
  change (sent (with_sent text (with_sent (0x81 :: b1 :: ext) (sample_ctx []))))
    with (concat [0x81 :: b1 :: ext; text]).
  cbn [concat]. rewrite app_nil_r.
  assert (header_length ((0x81 :: b1 :: ext) ++ text) = length (0x81 :: b1 :: ext)) as Hhl.
  { cbn [app header_length length].
    destruct (Z.ltb_spec (Z.of_nat (length text)) 126) as [Hs|Hs].
    - rewrite (H2 Hs) in *. unfold declared_length in Hd.
      destruct (Z.leb_spec (Z.land b1 127) 125) as [Hle|Hgt].
      + rewrite !(proj2 (Z.eqb_neq _ _)) by lia. reflexivity.
      + destruct (Z.land b1 127 =? 126); [discriminate|].
        destruct (Z.land b1 127 =? 127); discriminate.
    - destruct (Z.ltb_spec (Z.of_nat (length text)) 65536) as [Hs2|Hs2].
      + rewrite (Hc4 ltac:(lia)), (H4 ltac:(lia)). reflexivity.
      + rewrite (Hc10 Hs2), (H10 Hs2). reflexivity. }
  unfold client_mask. rewrite Hhl, take_app_length, drop_app_length.
  cbn [drop].
  destruct (set_mask_bit b1) as [Hlow Hhigh].
  destruct (get_websocket_data_frame
              (sample_ctx [Bytes (Z.lor b1 0x80 :: ext ++ key ++ xor_mask key text)])
              (sample_socket [Bytes (Z.lor b1 0x80 :: ext ++ key ++ xor_mask key text)])
              (Z.lor b1 0x80) ext key (xor_mask key text) [] (Z.of_nat (length text)))
    as (r' & Hg & _).
  - reflexivity.
  - simpl. rewrite !app_nil_r. reflexivity.
  - clear -Hh Hlen. unfold frame_header in Hh.
    destruct (_ <? 126); [injection Hh as _ <-; apply Forall_nil_2|].
    destruct (_ <? 65536); injection Hh as _ <-;
      repeat (apply Forall_cons_2;
              [unfold is_byte; rewrite land_ff; apply Z.mod_pos_bound; lia|]);
      apply Forall_nil_2.
  - exact Hkey.
  - apply xor_mask_bytes; assumption.
  - exact Hhigh.
  - rewrite Hlow. exact Hd.
  - exact Hlen.
  - exact Hklen.
  - rewrite xor_mask_length. reflexivity.
  - rewrite Hg. cbn [fst]. rewrite xor_mask_involutive. reflexivity.
Qed.

(** C10: every frame that [get_websocket_data] decodes successfully, of
    declared payload length n, gives a string of n + 1 bytes: the n
    unmasked payload bytes followed by one byte 0x00; and a text frame
    read through [get_websocket_line] is returned in that form, so the
    unit handed on carries one NUL more than the wire payload. *)
Theorem decoded_unit_has_trailing_nul (c : ctx) (s : tcp_socket) :
  _socket (this c) = Some s ->
  Forall is_byte (pending (rx s)) ->
  (forall blob c',
     get_websocket_data c = (Ok blob, c') ->
     exists mpay ext key payload r',
       c' = with_rx r' c /\
       pending (rx s) = mpay :: ext ++ key ++ payload ++ pending r' /\
       declared_length (Z.land mpay 0x7f) ext = Some (Z.of_nat (length payload)) /\
       length key = 4%nat /\
       blob = xor_mask key payload ++ [0] /\
       length blob = S (length payload) /\
       take (length payload) blob = xor_mask key payload /\
       last blob = Some 0) /\
  (forall fop mpay ext key payload rest,
     pending (rx s) = fop :: mpay :: ext ++ key ++ payload ++ rest ->
     Z.land fop 0xf = 1 ->
     Z.land mpay 0x80 <> 0 ->
     declared_length (Z.land mpay 0x7f) ext = Some (Z.of_nat (length payload)) ->
     Z.of_nat (length payload) <= 2 ^ 40 ->
     length key = 4%nat ->
     exists r',
       get_websocket_line c = (Ok (xor_mask key payload ++ [0]), with_rx r' c) /\
       pending r' = rest).
Proof.
  intros Hs Hb. split.
  - intros blob c' H.
    destruct (get_websocket_data_shape c s blob c' Hs Hb H)
      as (mpay & ext & key & payload & n & r' & -> & Hp & Hm & Hd & Hn & Hk & Hl).
    assert (Forall is_byte ext /\ Forall is_byte key /\ Forall is_byte payload)
      as (Hbe & Hbk & Hbp).
    { rewrite Hp in Hb. apply Forall_cons in Hb as [_ Hb].
      apply Forall_app in Hb as [? Hb]. apply Forall_app in Hb as [? Hb].
      apply Forall_app in Hb as [? _]. auto. }
    destruct (get_websocket_data_frame c s mpay ext key payload (pending r') n)
      as (r'' & Hg & Hp''); auto.
    rewrite Hg in H.
    assert (blob = xor_mask key payload ++ [0]) as -> by congruence. clear H.
    exists mpay, ext, key, payload, r'.
    split; [reflexivity|]. split; [exact Hp|]. split; [rewrite Hl; exact Hd|].
    split; [exact Hk|]. split; [reflexivity|].
    split; [rewrite length_app, xor_mask_length; simpl; lia|].
    split; [rewrite take_app_length'; [reflexivity|symmetry; apply xor_mask_length]|].
    apply last_snoc.
  - intros fop mpay ext key payload rest Hp Hop Hm Hd Hn Hk.
    assert (Forall is_byte ext /\ Forall is_byte key /\ Forall is_byte payload)
      as (Hbe & Hbk & Hbp).
    { rewrite Hp in Hb. apply Forall_cons in Hb as [_ Hb].
      apply Forall_cons in Hb as [_ Hb].
      apply Forall_app in Hb as [? Hb]. apply Forall_app in Hb as [? Hb].
      apply Forall_app in Hb as [? _]. auto. }
    eapply get_websocket_line_text; eauto.
Qed.

Lemma decoded_unit_has_trailing_nul_witness :
  exists r',
    get_websocket_line (sample_ctx [Bytes hello_frame])
    = (Ok (bytes "hello" ++ [0]), with_rx r' (sample_ctx [Bytes hello_frame])) /\
    pending r' = [].
Proof.
  destruct (decoded_unit_has_trailing_nul (sample_ctx [Bytes hello_frame])
              (sample_socket [Bytes hello_frame]) eq_refl) as [_ H2].
  { apply (bool_decide_unpack _). vm_compute. reflexivity. }
  apply (H2 0x81 0x85 [] [0x37; 0xfa; 0x21; 0x3d] [0x5f; 0x9f; 0x4d; 0x51; 0x58] []);
    try reflexivity; vm_compute; congruence.
Defined.

(** C4: a frame with length code 127 whose eight length bytes hold,
    big-endian, more than 2^40 makes [get_websocket_data] log a warning
    and throw the silent-termination exception when exactly the length
    has been read: the mask key and the payload are still to arrive and
    nothing has been sized; a declared length of at most 2^40 (the code
    itself up to 125, two bytes big-endian after 126, eight after 127) is
    decoded. *)
Theorem oversize_length_terminates (c : ctx) (s : tcp_socket) (mpay : Z)
    (ext rest : list Z) :
  _socket (this c) = Some s ->
  pending (rx s) = mpay :: ext ++ rest ->
  Forall is_byte ext ->
  (Z.land mpay 0x7f = 127 -> length ext = 8%nat -> 2 ^ 40 < be_value ext ->
   exists r',
     get_websocket_data c = (Throw SilentException, add_log insane_length (with_rx r' c)) /\
     pending r' = rest) /\
  (forall n key payload rest',
     rest = key ++ payload ++ rest' ->
     declared_length (Z.land mpay 0x7f) ext = Some n ->
     n <= 2 ^ 40 ->
     Z.land mpay 0x80 <> 0 ->
     Forall is_byte key -> Forall is_byte payload ->
     length key = 4%nat -> Z.of_nat (length payload) = n ->
     exists r',
       get_websocket_data c = (Ok (xor_mask key payload ++ [0]), with_rx r' c) /\
       pending r' = rest').
Proof.
  intros Hs Hp Hext. split.
  - intros Hcode Hlen Hbig.
    apply (get_websocket_data_insane c s mpay ext rest); assumption.
  - intros n key payload rest' -> Hd Hn Hm Hk Hpay Hkl Hpl.
    apply (get_websocket_data_frame c s mpay ext key payload rest' n); assumption.
Qed.

Lemma oversize_length_terminates_witness :
  (exists r',
     get_websocket_data
       (sample_ctx [Bytes oversize_tail])
     = (Throw SilentException,
        add_log insane_length
          (with_rx r'
             (sample_ctx [Bytes oversize_tail]))) /\
     pending r' = [0x37; 0xfa; 0x21; 0x3d; 0x5f]) /\
  (exists r',
     get_websocket_data
       (sample_ctx [Bytes hello_tail_16])
     = (Ok (bytes "hello" ++ [0]),
        with_rx r'
          (sample_ctx [Bytes hello_tail_16])) /\
     pending r' = []).
Proof.
  split.
  - apply (proj1 (oversize_length_terminates
                    (sample_ctx [Bytes oversize_tail])
                    (sample_socket [Bytes oversize_tail])
                    0xff [0; 0; 1; 0; 0; 0; 0; 1] [0x37; 0xfa; 0x21; 0x3d; 0x5f]
                    eq_refl eq_refl
                    ltac:(apply (bool_decide_unpack _); vm_compute; reflexivity)));
      [reflexivity|reflexivity|vm_compute; reflexivity].
  - apply (proj2 (oversize_length_terminates
                    (sample_ctx [Bytes hello_tail_16])
                    (sample_socket [Bytes hello_tail_16])
                    0xfe [0; 5] [0x37; 0xfa; 0x21; 0x3d; 0x5f; 0x9f; 0x4d; 0x51; 0x58]
                    eq_refl eq_refl
                    ltac:(apply (bool_decide_unpack _); vm_compute; reflexivity))
             5 [0x37; 0xfa; 0x21; 0x3d] [0x5f; 0x9f; 0x4d; 0x51; 0x58] []);
      try reflexivity; try (vm_compute; congruence);
      apply (bool_decide_unpack _); vm_compute; reflexivity.
Defined.

(** C1, as stated, fails: "hello", framed by [send_websocket], masked
    by the client and decoded by [get_websocket_data], does not come back
    as "hello": a NUL byte is appended. *)
Lemma round_trip_hello_counterexample :
  round_trip [0x37; 0xfa; 0x21; 0x3d] (bytes "hello") <> Ok (bytes "hello").
Proof. vm_compute. discriminate. Qed.

(** C1 (amended): for every 4-byte mask, "hello" framed by
    [send_websocket], masked by the client and decoded by
    [get_websocket_data] comes back as the five bytes of "hello" followed
    by one NUL byte (six bytes). *)
Theorem round_trip_hello (key : list Z) :
  length key = 4%nat ->
  Forall is_byte key ->
  round_trip key (bytes "hello") = Ok (bytes "hello" ++ [0]) /\
  (forall blob, round_trip key (bytes "hello") = Ok blob ->
     length blob = 6%nat /\ take 5 blob = bytes "hello" /\ last blob = Some 0).
Proof.
  intros Hlen Hkey.
  assert (round_trip key (bytes "hello") = Ok (bytes "hello" ++ [0])) as Hrt.
  { unfold round_trip.
    change (sent (snd (send_websocket (bytes "hello") (sample_ctx []))))
      with ([0x81; 5] ++ bytes "hello").
    change (client_mask key ([0x81; 5] ++ bytes "hello"))
      with (0x81 :: 0x85 :: [] ++ key ++ xor_mask key (bytes "hello")).
    cbn [drop].
    destruct (get_websocket_data_frame
                (sample_ctx [Bytes (0x85 :: [] ++ key ++ xor_mask key (bytes "hello"))])
                (sample_socket [Bytes (0x85 :: [] ++ key ++ xor_mask key (bytes "hello"))])
                0x85 [] key (xor_mask key (bytes "hello")) [] 5)
      as (r' & Hg & _).
    - reflexivity.
    - simpl. rewrite !app_nil_r. reflexivity.
    - apply Forall_nil_2.
    - exact Hkey.
    - apply xor_mask_bytes; [exact Hkey|].
      apply (bool_decide_unpack _). vm_compute. reflexivity.
    - vm_compute. congruence.
    - reflexivity.
    - vm_compute. congruence.
    - exact Hlen.
    - rewrite xor_mask_length. reflexivity.
    - rewrite Hg. cbn [fst]. rewrite xor_mask_involutive. reflexivity. }
  split; [exact Hrt|].
  intros blob Hb. rewrite Hrt in Hb. injection Hb as <-.
  repeat split.
Qed.

Lemma round_trip_hello_witness :
  round_trip [0x37; 0xfa; 0x21; 0x3d] (bytes "hello") = Ok (bytes "hello" ++ [0]).
Proof.
  apply (round_trip_hello [0x37; 0xfa; 0x21; 0x3d]); [reflexivity|].
  apply (bool_decide_unpack _). vm_compute. reflexivity.
Defined.

(** C8: [send_websocket] writes a header and then the payload, unmasked
    (the mask bit of header byte 1 is clear), with header byte 0 equal to
    0x81; the header declares the payload length, in two bytes for fewer
    than 126 payload bytes, four (code 126, length big-endian on 16 bits)
    below 65536, ten (code 127, length big-endian on 64 bits) from there
    on; for sizes 125, 126 and 65536 the headers are [81 7d],
    [81 7e 00 7e] and [81 7f 00 00 00 00 00 01 00 00]. *)
Theorem send_websocket_length_encoding (c : ctx) (s : tcp_socket) (cmd : list Z) :
  _socket (this c) = Some s ->
  wr_error s = success ->
  Z.of_nat (length cmd) < 2 ^ 64 ->
  exists b1 ext,
    send_websocket cmd c = (Ok tt, with_sent cmd (with_sent (0x81 :: b1 :: ext) c)) /\
    Z.land b1 0x80 = 0 /\
    declared_length (Z.land b1 0x7f) ext = Some (Z.of_nat (length cmd)) /\
    (Z.of_nat (length cmd) < 126 -> ext = []) /\
    (126 <= Z.of_nat (length cmd) < 65536 -> b1 = 126 /\ length ext = 2%nat) /\
    (65536 <= Z.of_nat (length cmd) -> b1 = 127 /\ length ext = 8%nat) /\
    (Z.of_nat (length cmd) = 125 -> 0x81 :: b1 :: ext = [0x81; 125]) /\
    (Z.of_nat (length cmd) = 126 -> 0x81 :: b1 :: ext = [0x81; 126; 0; 126]) /\
    (Z.of_nat (length cmd) = 65536 ->
     0x81 :: b1 :: ext = [0x81; 127; 0; 0; 0; 0; 0; 1; 0; 0]).
Proof.
  intros Hs Hw Hlen.
  destruct (frame_header_declares (Z.of_nat (length cmd)) ltac:(lia))
    as (b1 & ext & Hh & Hm & Hd & H2 & H4 & H10).
  destruct (frame_header_codes _ _ _ Hh) as [Hc4 Hc10].
  exists b1, ext. rewrite (send_websocket_sends c s cmd Hs Hw), Hh.
  split; [reflexivity|]. split; [exact Hm|]. split; [exact Hd|].
  split; [exact H2|]. split; [auto|]. split; [auto|].
  rewrite <- Hh.
  split; [|split]; intros E; rewrite E; reflexivity.
Qed.

Lemma send_websocket_length_encoding_witness :
  sends (snd (send_websocket (replicate (Z.to_nat 125) 0x61) (sample_ctx [])))
    = [[0x81; 125]; replicate (Z.to_nat 125) 0x61] /\
  sends (snd (send_websocket (replicate (Z.to_nat 126) 0x61) (sample_ctx [])))
    = [[0x81; 126; 0; 126]; replicate (Z.to_nat 126) 0x61] /\
  sends (snd (send_websocket (replicate (Z.to_nat 65536) 0x61) (sample_ctx [])))
    = [[0x81; 127; 0; 0; 0; 0; 0; 1; 0; 0]; replicate (Z.to_nat 65536) 0x61].
Proof.
  assert (forall n : Z, 0 <= n < 2 ^ 64 ->
            exists b1 ext,
              sends (snd (send_websocket (replicate (Z.to_nat n) 0x61) (sample_ctx [])))
              = [0x81 :: b1 :: ext; replicate (Z.to_nat n) 0x61] /\
              (n = 125 -> 0x81 :: b1 :: ext = [0x81; 125]) /\
              (n = 126 -> 0x81 :: b1 :: ext = [0x81; 126; 0; 126]) /\
              (n = 65536 -> 0x81 :: b1 :: ext = [0x81; 127; 0; 0; 0; 0; 0; 1; 0; 0]))
    as H.
  { intros n Hn.
    destruct (send_websocket_length_encoding (sample_ctx []) (sample_socket [])
                (replicate (Z.to_nat n) 0x61) eq_refl eq_refl)
      as (b1 & ext & Hsend & _ & _ & _ & _ & _ & H125 & H126 & H65536).
    { rewrite length_replicate, Z2Nat.id by lia. lia. }
    rewrite length_replicate, Z2Nat.id in * by lia.
    exists b1, ext. rewrite Hsend. split; [reflexivity|]. auto. }
  split; [|split].
  - destruct (H 125) as (b1 & ext & -> & H1 & _); [lia|].
    rewrite H1 by reflexivity. reflexivity.
  - destruct (H 126) as (b1 & ext & -> & _ & H1 & _); [lia|].
    rewrite H1 by reflexivity. reflexivity.
  - destruct (H 65536) as (b1 & ext & -> & _ & _ & H1); [lia|].
    rewrite H1 by reflexivity. reflexivity.
Defined.

End WebSocketClaims.

(** * The handshake *)

Module HandshakeClaims.
Import WebSocket Wire MonadFacts WebSocketFacts Sample Handshake.

Lemma b64_emit_done fuel : forall val valb out,
  valb + 6 <= 6 * Z.of_nat fuel -> fst (b64_emit fuel val valb out) < 0.
Proof.
  induction fuel as [|fuel IH]; intros val valb out H; simpl.
  - lia.
  - destruct (Z.leb_spec 0 valb); [apply IH; lia|simpl; lia].
Qed.

Lemma b64_step_done st c :
  let '(_, valb, _) := b64_step st c in valb < 0.
Proof.
  destruct st as [[val valb] out]. unfold b64_step.
  pose proof (b64_emit_done (Z.to_nat (valb + 8 + 6)) ((Z.shiftl val 8 + c) mod 2 ^ 32)
                (valb + 8) out) as H.
  destruct (b64_emit _ _ _ _) as [valb' out']. simpl in H. apply H. lia.
Qed.

Lemma b64_pad_done fuel : forall out,
  (4 - Z.of_nat (length out) mod 4) mod 4 <= Z.of_nat fuel ->
  Z.of_nat (length (b64_pad fuel out)) mod 4 = 0.
Proof.
  induction fuel as [|fuel IH]; intros out H; simpl.
  - divmod.
  - destruct (Z.eqb_spec (Z.of_nat (length out) mod 4) 0) as [E|E]; simpl; [exact E|].
    apply IH. rewrite length_app. simpl length. rewrite Nat2Z.inj_add.
    change (Z.of_nat 1) with 1. divmod.
Qed.

Lemma base64_encode_padded buf len :
  Z.of_nat (length (base64_encode buf len)) mod 4 = 0.
Proof.
  unfold base64_encode. destruct (foldl _ _ _) as [[val valb] out].
  apply b64_pad_done. change (Z.of_nat 3) with 3. divmod.
Qed.



End HandshakeClaims.

(** * Further properties of the registry *)

Module RegistryProps.
Import Registry RegistryFacts Sample Wire WebSocket MonadFacts WebSocketFacts Reference.

Lemma stats_row_live f g p rc hdr a ss :
  heap p !! a = Some ss ->
  stats_row f g p (Some (rc, hdr)) a
  = Some ((if negb hdr then rc ++ connection_header ++ [10] else rc)
          ++ connection_stats f g ss ++ [10], true).
Proof. intros Hss. unfold stats_row. cbn [mbind option_bind]. rewrite Hss. reflexivity. Qed.

Lemma stats_rows f g p l : forall rc,
  (forall a, a ∈ l -> is_Some (heap p !! a)) ->
  foldl (stats_row f g p) (Some (rc, true)) l
  = Some (rc ++ concat (map (fun a => from_option (connection_stats f g) [] (heap p !! a)
                                      ++ [10]) l), true).
Proof.
  induction l as [|a l IH]; intros rc Hl.
  - simpl. rewrite app_nil_r. reflexivity.
  - destruct (Hl a ltac:(left)) as [ss Hss].
    cbn [foldl map concat]. rewrite (stats_row_live f g p rc true a ss Hss). cbn [negb].
    rewrite Hss. cbn [from_option].
    rewrite IH by (intros a' Ha'; apply Hl; right; exact Ha').
    rewrite <- !app_assoc. reflexivity.
Qed.

(** X1: when every registered pointer is to a live object,
    [display_stats] reports the header line once, then one line per
    registered connection, each ended by a line feed, the connections in
    the increasing order of their addresses; with nothing registered the
    report is empty. *)
Theorem display_stats_report (strftime_gm fmt_8d : Z -> list Z) (p : process) :
  (forall a, a ∈ _sock_list p -> is_Some (heap p !! a)) ->
  exists order,
    order ≡ₚ elements (_sock_list p) /\
    StronglySorted Z.le order /\
    display_stats strftime_gm fmt_8d p
    = Ok (match order with
          | [] => []
          | _ => connection_header ++ [10] ++
                 concat (map (fun a => from_option (connection_stats strftime_gm fmt_8d) []
                                         (heap p !! a) ++ [10]) order)
          end).
Proof.
  intros Hlive. exists (merge_sort Z.le (elements (_sock_list p))).
  split; [apply merge_sort_Permutation|].
  split; [apply StronglySorted_merge_sort; apply _|].
  unfold display_stats.
  assert (forall a, a ∈ merge_sort Z.le (elements (_sock_list p)) -> is_Some (heap p !! a))
    as Hall.
  { intros a Ha. apply Hlive. rewrite merge_sort_Permutation in Ha.
    apply elem_of_elements in Ha. exact Ha. }
  destruct (merge_sort Z.le (elements (_sock_list p))) as [|a l]; [reflexivity|].
  destruct (Hall a ltac:(left)) as [ss Hss].
  cbn [foldl map concat]. rewrite (stats_row_live _ _ p [] false a ss Hss). cbn [negb].
  rewrite Hss. cbn [from_option].
  rewrite stats_rows by (intros a' Ha'; apply Hall; right; exact Ha').
  rewrite <- !app_assoc. reflexivity.
Qed.

Lemma display_stats_report_witness :
  exists order,
    order ≡ₚ elements (_sock_list two_open) /\
    StronglySorted Z.le order /\
    display_stats fixed_date fixed_tid two_open
    = Ok (match order with
          | [] => []
          | _ => connection_header ++ [10] ++
                 concat (map (fun a => from_option (connection_stats fixed_date fixed_tid) []
                                         (heap two_open !! a) ++ [10]) order)
          end).
Proof.
  apply (display_stats_report fixed_date fixed_tid two_open).
  intros a Ha. apply elem_of_dom.
  assert (registered_iff_live two_open) as Hreg.
  { apply (run_registered
             (lifetimes [(96, 5, blank, idle); (32, 6, blank, idle)] []) start
             (fst (run (lifetimes [(96, 5, blank, idle); (32, 6, blank, idle)] []) start))).
    - reflexivity.
    - unfold two_open. destruct (run _ start); reflexivity. }
  rewrite <- Hreg. exact Ha.
Defined.

(** X2: the destructor of a connected object completes whatever
    [shutdown] and [close] report: the object leaves the registry and its
    storage is released; the log gains the two debug lines, and an error
    line exactly when closing failed with something other than
    [not_connected] or [bad_descriptor].  On an object that never got a
    socket the destructor dereferences the null [_socket]. *)
Theorem destructor_swallows_close_errors (a : Z) (p : process) (ss : ServerSocket) :
  heap p !! a = Some ss ->
  (forall s, _socket ss = Some s ->
     delete_ServerSocket a p
     = (Ok tt,
        {| heap := delete a (heap p);
           _sock_list := _sock_list p ∖ {[a]};
           plog := plog p ++
                   [(Debug, "ServerSocket::~ServerSocket()"%string);
                    (Debug, "ServerSocket::SetCloseAndDelete()"%string)] ++
                   match close_error s with
                   | Some e =>
                       if bool_decide (e ≠ not_connected) && bool_decide (e ≠ bad_descriptor)
                       then [closing_error] else []
                   | None => []
                   end |})) /\
  (_socket ss = None -> fst (delete_ServerSocket a p) = Undefined).
Proof.
  intros Ha. split.
  - intros s Hs. unfold delete_ServerSocket, call. rewrite Ha.
    unfold destructor_body, SetCloseAndDelete.
    unfold mbind, M_bind, modify, logger, get_this, on_this, add_log. simpl.
    rewrite Hs. destruct (close_error s) as [e|]; simpl.
    + destruct (bool_decide (e ≠ not_connected) && bool_decide (e ≠ bad_descriptor)); simpl;
        unfold rem_sock; simpl; rewrite delete_insert_eq, <- ?app_assoc; reflexivity.
    + unfold rem_sock; simpl. rewrite delete_insert_eq, <- ?app_assoc. reflexivity.
  - intros Hs. unfold delete_ServerSocket, call. rewrite Ha.
    unfold destructor_body, SetCloseAndDelete.
    unfold mbind, M_bind, modify, logger, get_this, on_this, add_log. simpl.
    rewrite Hs. reflexivity.
Qed.

Lemma destructor_swallows_close_errors_witness :
  delete_ServerSocket 64 (one_object (set_socket (Some failing_close) blank))
  = (Ok tt,
     {| heap := delete 64 {[ 64 := set_socket (Some failing_close) blank ]};
        _sock_list := {[ 64 ]} ∖ {[ 64 ]};
        plog := [(Debug, "ServerSocket::~ServerSocket()"%string);
                 (Debug, "ServerSocket::SetCloseAndDelete()"%string);
                 closing_error] |}).
Proof.
  rewrite (proj1 (destructor_swallows_close_errors 64
                    (one_object (set_socket (Some failing_close) blank))
                    (set_socket (Some failing_close) blank)
                    (lookup_singleton_eq _ _))
             failing_close eq_refl).
  reflexivity.
Defined.

End RegistryProps.

(** * Further properties of the scanner and of the read loop *)

Module ReadLoopProps.
Import Scanner ScannerFacts ScannerClaims Connection ConnectionFacts MonadFacts Sample Wire
       WebSocketFacts Registry RegistryFacts Reference.

Lemma scan_spec bs : forall tm i k,
  scan tm i bs = ((i + S k)%nat, true) <->
  (exists c, bs !! k = Some c /\
             (c = 10 \/ c = 4 \/ (c <= 0xf0 /\ (tm = true \/ IAC ∈ take k bs)))) /\
  (forall j, (j < k)%nat ->
     ~ exists c, bs !! j = Some c /\
                 (c = 10 \/ c = 4 \/ (c <= 0xf0 /\ (tm = true \/ IAC ∈ take j bs)))).
Proof.
  induction bs as [|c bs IH]; intros tm i k.
  - simpl. split.
    + intros H. injection H as _ H. discriminate.
    + intros [(c & Hc & _) _]. discriminate.
  - cbn [scan].
    set (tm' := if c =? IAC then true else tm).
    assert (Hends : (c =? 10) || (c =? 4) || (tm' && (c <=? 240)) = true <->
                    (c = 10 \/ c = 4 \/ (c <= 0xf0 /\ (tm = true \/ IAC ∈ take 0 (c :: bs))))).
    { subst tm'. unfold IAC. rewrite !orb_true_iff, andb_true_iff, !Z.eqb_eq, Z.leb_le.
      cbn [take]. rewrite elem_of_nil.
      destruct (Z.eqb_spec c 255) as [->|Hne]; [|tauto].
      split; [intros [[?|?]|[_ ?]]; lia|intros [?|[?|[? _]]]; lia]. }
    destruct ((c =? 10) || (c =? 4) || (tm' && (c <=? 240))) eqn:E.
    + split.
      * intros H. assert (k = 0%nat) as -> by (injection H as H; lia).
        split; [|intros j Hj; lia].
        exists c. split; [reflexivity|]. apply Hends. reflexivity.
      * intros [_ Hfirst]. destruct k as [|k]; [f_equal; lia|].
        exfalso. apply (Hfirst 0%nat); [lia|].
        exists c. split; [reflexivity|]. apply Hends. reflexivity.
    + assert (Hnot : ~ (c = 10 \/ c = 4 \/
                        (c <= 0xf0 /\ (tm = true \/ IAC ∈ take 0 (c :: bs))))).
      { intros H. apply Hends in H. discriminate. }
      assert (Hflag : forall j, (tm' = true \/ IAC ∈ take j bs) <->
                                (tm = true \/ IAC ∈ take (S j) (c :: bs))).
      { intros j. cbn [take]. rewrite elem_of_cons. subst tm'. unfold IAC.
        destruct (Z.eqb_spec c 255) as [->|Hne]; [tauto|].
        split; [tauto|]. intros [?|[?|?]]; [tauto|congruence|tauto]. }
      destruct k as [|k].
      * split.
        -- intros H. pose proof (scan_match_gt tm' (S i) bs) as Hb. rewrite H in Hb.
           specialize (Hb eq_refl). simpl in Hb. lia.
        -- intros [(c0 & Hc0 & H) _]. injection Hc0 as <-. tauto.
      * replace (i + S (S k))%nat with (S i + S k)%nat by lia.
        rewrite (IH tm' (S i) k). cbn [lookup list_lookup].
        split.
        -- intros [(c0 & Hc0 & H) Hfirst]. split.
           ++ exists c0. split; [exact Hc0|]. rewrite <- Hflag. exact H.
           ++ intros [|j] Hj.
              ** intros (c1 & Hc1 & H1). injection Hc1 as <-. tauto.
              ** intros (c1 & Hc1 & H1). apply (Hfirst j); [lia|].
                 exists c1. split; [exact Hc1|]. rewrite Hflag. exact H1.
        -- intros [(c0 & Hc0 & H) Hfirst]. split.
           ++ exists c0. split; [exact Hc0|]. rewrite Hflag. exact H.
           ++ intros j Hj (c1 & Hc1 & H1). apply (Hfirst (S j)); [lia|].
              exists c1. split; [exact Hc1|]. rewrite <- Hflag. exact H1.
Qed.

Lemma scan_found_pos tm i bs :
  snd (scan tm i bs) = true -> exists k, scan tm i bs = ((i + S k)%nat, true).
Proof.
  intros H. pose proof (scan_match_gt tm i bs H) as Hgt.
  exists (fst (scan tm i bs) - S i)%nat.
  destruct (scan tm i bs) as [p f]. simpl in *. subst f. f_equal. lia.
Qed.


Lemma scan_none_spec bs : forall tm i,
  snd (scan tm i bs) = false <->
  (forall k, ~ exists c, bs !! k = Some c /\
             (c = 10 \/ c = 4 \/ (c <= 0xf0 /\ (tm = true \/ IAC ∈ take k bs)))).
Proof.
  intros tm i. split.
  - intros Hnone k (c & Hc & H).
    pose proof (take_drop_middle bs k c Hc) as Hbs.
    assert (E1 : snd (scan tm i (take k bs)) = false).
    { destruct (snd (scan tm i (take k bs))) eqn:E1; [|reflexivity].
      pose proof (scan_prefix tm i (take k bs) E1
                    (drop (fst (scan tm i (take k bs)) - i) (take k bs) ++ c :: drop (S k) bs))
        as Hq.
      rewrite app_assoc, take_drop, Hbs in Hq. rewrite Hq, E1 in Hnone. discriminate. }
    rewrite <- Hbs, (scan_app tm i (take k bs) _ E1) in Hnone. cbn [scan] in Hnone.
    assert ((c =? 10) || (c =? 4) ||
            ((if c =? IAC then true else flag_after tm (take k bs)) && (c <=? 240)) = true)
      as Hyes.
    { rewrite !orb_true_iff, andb_true_iff, !Z.eqb_eq, Z.leb_le.
      destruct H as [?|[?|[Hle [->|Hin]]]]; [tauto|tauto| |].
      - right. split; [|exact Hle]. rewrite flag_after_true.
        destruct (c =? IAC); reflexivity.
      - right. split; [|exact Hle]. rewrite (flag_after_iac _ _ Hin).
        destruct (c =? IAC); reflexivity. }
    rewrite Hyes in Hnone. discriminate.
  - intros Hnone. destruct (snd (scan tm i bs)) eqn:E; [exfalso|reflexivity].
    destruct (scan_found_pos tm i bs E) as (k & Hk).
    apply (scan_spec bs tm i k) in Hk as [Hk _]. exact (Hnone k Hk).
Qed.

(** X4: [match_eol_or_escape] stops behind the first byte that ends
    a unit, a line feed, an EOT, or a byte of at most 0xF0 that has an
    IAC before it in the range scanned, and reports a match there; when
    the range holds no such byte it runs to the end of the range and
    reports no match. *)
Theorem scanner_first_terminator (bs : list Z) :
  (forall k, match_eol_or_escape bs = (S k, true) <->
             ends_unit bs k /\ forall j, (j < k)%nat -> ~ ends_unit bs j) /\
  (match_eol_or_escape bs = (length bs, false) <-> forall k, ~ ends_unit bs k).
Proof.
  assert (Hiff : forall k, ends_unit bs k <->
            exists c, bs !! k = Some c /\
              (c = 10 \/ c = 4 \/ (c <= 0xf0 /\ (false = true \/ IAC ∈ take k bs)))).
  { intros k. unfold ends_unit. destruct (bs !! k) as [c|]; split.
    - intros H. exists c. split; [reflexivity|tauto].
    - intros (c' & Hc & H). injection Hc as <-.
      destruct H as [?|[?|[? [?|?]]]]; [tauto|tauto|discriminate|tauto].
    - intros [].
    - intros (c' & Hc & _). discriminate. }
  split.
  - intros k. unfold match_eol_or_escape.
    rewrite (scan_spec bs false 0 k). rewrite Hiff.
    split; intros [H1 H2]; (split; [exact H1|]); intros j Hj; specialize (H2 j Hj).
    + rewrite Hiff. exact H2.
    + rewrite <- Hiff. exact H2.
  - unfold match_eol_or_escape. split.
    + intros H k Hk. apply Hiff in Hk. revert k Hk.
      apply (scan_none_spec bs false 0). rewrite H. reflexivity.
    + intros H.
      assert (snd (scan false 0 bs) = false) as E.
      { apply scan_none_spec. intros k Hk. apply (H k), Hiff, Hk. }
      pose proof (scan_no_match_end false 0 bs E) as Hend.
      destruct (scan false 0 bs) as [p f]. simpl in *. subst. reflexivity.
Qed.

Lemma scanner_first_terminator_witness :
  match_eol_or_escape (bytes "a" ++ [0xff; 0xf4] ++ bytes "b" ++ [10]) = (4%nat, true) /\
  match_eol_or_escape (bytes "ab" ++ [0xff; 0xf4]) = (4%nat, false).
Proof.
  split.
  - apply (proj1 (scanner_first_terminator _)). split.
    + apply (bool_decide_unpack _). vm_compute. reflexivity.
    + intros [|[|[|j]]] Hj; [| | |lia]; apply (bool_decide_unpack _); vm_compute; reflexivity.
  - apply (proj2 (scanner_first_terminator (bytes "ab" ++ [0xff; 0xf4]))).
    intros [|[|[|[|k]]]]; apply (bool_decide_unpack _); vm_compute; reflexivity.
Defined.

Lemma scan_plain bs : forall i,
  Forall plain bs -> scan false i bs = ((i + length bs)%nat, false).
Proof.
  induction bs as [|c bs IH]; intros i Hp.
  - simpl. f_equal. lia.
  - apply Forall_cons in Hp as [(H1 & H2 & H3) Hp]. cbn [scan]. unfold IAC.
    rewrite (proj2 (Z.eqb_neq c 255) H3), (proj2 (Z.eqb_neq c 10) H1),
            (proj2 (Z.eqb_neq c 4) H2).
    cbn [orb andb]. rewrite (IH (S i) Hp). simpl. f_equal. lia.
Qed.

Lemma scan_line pre post i :
  Forall plain pre ->
  scan false i (pre ++ 10 :: post) = ((i + S (length pre))%nat, true).
Proof.
  intros Hp.
  rewrite (scan_app false i pre (10 :: post)) by (rewrite scan_plain by exact Hp; reflexivity).
  cbn [scan]. change (10 =? IAC) with false. change (10 =? 10) with true.
  cbn [orb]. f_equal. lia.
Qed.

Lemma plain_no_lf bs : Forall plain bs -> 10 ∉ bs.
Proof.
  intros Hp Hin. rewrite Forall_forall in Hp. destruct (Hp 10 Hin) as [H _]. congruence.
Qed.

Lemma list_find_first_lf line rest :
  10 ∉ line ->
  list_find (fun c : Z => c = 10) (line ++ 10 :: rest) = Some (length line, 10).
Proof.
  induction line as [|c line IH]; intros Hn.
  - reflexivity.
  - apply not_elem_of_cons in Hn as [Hc Hn].
    cbn [app list_find]. destruct (decide (c = 10)) as [->|_]; [congruence|].
    rewrite (IH Hn). reflexivity.
Qed.

Lemma getline_line line rest :
  10 ∉ line -> getline (line ++ 10 :: rest) = (line, rest).
Proof.
  intros Hn. unfold getline. rewrite (list_find_first_lf line rest Hn).
  rewrite take_app_length.
  change (line ++ 10 :: rest) with (line ++ [10] ++ rest).
  rewrite app_assoc. replace (S (length line)) with (length (line ++ [10]))
    by (rewrite length_app; simpl; lia).
  rewrite drop_app_length. reflexivity.
Qed.

Lemma getline_none b : 10 ∉ b -> getline b = (b, []).
Proof.
  unfold getline. intros Hn.
  destruct (list_find _ b) as [[k x]|] eqn:E; [|reflexivity].
  apply list_find_Some in E as (Hk & -> & _).
  exfalso. apply Hn. eapply list_elem_of_lookup_2, Hk.
Qed.

(** [read_until] on a stream whose first unit is a line of plain text:
    it comes back with the whole line in the buffer, whatever the
    chunks. *)
Lemma read_until_line r : forall b sp line rest,
  b ++ pending r = line ++ 10 :: rest ->
  Forall plain line ->
  (sp <= length b)%nat -> (sp <= length line)%nat ->
  exists k r' brest,
    read_until r b sp = (inl k, r', line ++ 10 :: brest) /\
    brest ++ pending r' = rest.
Proof.
  induction r as [|a r IH]; intros b sp line rest HS Hp Hsb Hsl.
  - (* nothing more to come: the line feed is in the buffer *)
    simpl in HS. rewrite app_nil_r in HS. subst b.
    cbn [read_until]. rewrite drop_app_le by exact Hsl.
    unfold match_eol_or_escape. rewrite scan_line by (apply Forall_drop; exact Hp).
    eexists _, [], rest. split; [reflexivity|]. simpl. apply app_nil_r.
  - apply app_eq_inv in HS as [(k & Hb & Hk)|(k & Hl & Hk)].
    + destruct k as [|x k].
      * (* the buffer holds exactly the line *)
        rewrite app_nil_r in Hb. subst b. simpl in Hk.
        destruct a as [bs|ec]; [|discriminate].
        cbn [read_until]. unfold match_eol_or_escape.
        rewrite scan_plain by (apply Forall_drop; exact Hp). cbn iota.
        apply (IH (line ++ bs) _ line rest).
        -- rewrite <- app_assoc. f_equal. exact (eq_sym Hk).
        -- exact Hp.
        -- rewrite length_app, length_drop. lia.
        -- rewrite length_drop. lia.
      * (* the line feed is already in the buffer *)
        injection Hk as <- Hrest. subst b.
        assert (read_until (a :: r) (line ++ 10 :: k) sp =
                (inl (sp + (0 + S (length (drop sp line))))%nat, a :: r, line ++ 10 :: k)) as ->.
        { destruct a; cbn [read_until]; rewrite drop_app_le by exact Hsl;
            unfold match_eol_or_escape; rewrite scan_line by (apply Forall_drop; exact Hp);
            reflexivity. }
        eexists _, _, k. split; [reflexivity|]. exact (eq_sym Hrest).
    + (* the buffer is a part of the line *)
      subst line. apply Forall_app in Hp as [Hpb Hpk].
      destruct k as [|x k].
      * rewrite app_nil_r in *. simpl in Hk.
        destruct a as [bs|ec]; [|discriminate].
        cbn [read_until]. unfold match_eol_or_escape.
        rewrite scan_plain by (apply Forall_drop; exact Hpb). cbn iota.
        apply (IH (b ++ bs) _ b rest).
        -- rewrite <- app_assoc. f_equal. exact Hk.
        -- exact Hpb.
        -- rewrite length_app, length_drop. lia.
        -- rewrite length_drop. lia.
      * destruct a as [bs|ec]; [|discriminate].
        cbn [read_until]. unfold match_eol_or_escape.
        rewrite scan_plain by (apply Forall_drop; exact Hpb). cbn iota.
        apply (IH (b ++ bs) _ (b ++ x :: k) rest).
        -- rewrite <- !app_assoc. f_equal. simpl in Hk. rewrite Hk. reflexivity.
        -- apply Forall_app. split; assumption.
        -- rewrite length_app, length_drop. lia.
        -- rewrite length_app, length_drop. simpl. lia.
Qed.

Lemma sends_status st c : sends (on_this (set_status st) c) = sends c.
Proof. reflexivity. Qed.

Lemma sends_with_rx r c : sends (with_rx r c) = sends c.
Proof.
  unfold sends, with_rx. destruct (_socket (this c)) eqn:E; simpl; rewrite ?E; reflexivity.
Qed.

Lemma sends_with_sent buf c s :
  _socket (this c) = Some s -> sends (with_sent buf c) = sends c ++ [buf].
Proof. intros Hs. unfold sends, with_sent. rewrite Hs. reflexivity. Qed.

(** One turn of the loop when [read_until] has come back with a unit. *)
Lemma loop_body_unit `{Consumer} b c s k r' b' line b'' :
  _socket (this c) = Some s ->
  read_until (rx s) b 0 = (inl k, r', b') ->
  getline b' = (line, b'') ->
  loop_body b c =
  match OnLine (chomp_cr line)
          (on_this (set_status " run ") (with_rx r' (on_this (set_status "iwait") c))) with
  | (Ok _, c) => (Continue, b'', c)
  | (Throw (system_error ec), c) => let '(fl, c) := catch_system_error ec c in (fl, b'', c)
  | (Throw e, c) => (Escapes e, b'', c)
  | (Undefined, c) => (Stuck, b'', c)
  | (OutOfFuel, c) => (Fuel, b'', c)
  end.
Proof.
  intros Hs Hr Hg. unfold loop_body.
  change (_socket (this (on_this (set_status "iwait") c))) with (_socket (this c)).
  rewrite Hs, Hr. cbv beta iota. rewrite Hg. reflexivity.
Qed.

(** [read_until] on a stream that runs dry before anything ends a unit. *)
Lemma read_until_dry r : forall b sp,
  Forall plain (b ++ pending r) -> (sp <= length b)%nat ->
  read_until r b sp = (inr (ending r).1, (ending r).2, b ++ pending r).
Proof.
  induction r as [|[bs|ec] r IH]; intros b sp Hp Hs.
  - simpl in *. rewrite app_nil_r in *. unfold match_eol_or_escape.
    rewrite scan_plain by (apply Forall_drop; exact Hp). reflexivity.
  - cbn [read_until pending ending]. unfold match_eol_or_escape.
    assert (Forall plain b) as Hb by (apply Forall_app in Hp as [? _]; assumption).
    rewrite scan_plain by (apply Forall_drop; exact Hb). cbn iota.
    cbn [pending] in Hp. rewrite app_assoc in Hp.
    rewrite (IH (b ++ bs)); [|exact Hp|rewrite length_app, length_drop; lia].
    rewrite <- app_assoc. reflexivity.
  - cbn [read_until pending ending]. unfold match_eol_or_escape.
    simpl in Hp. rewrite app_nil_r in *.
    rewrite scan_plain by (apply Forall_drop; exact Hp). reflexivity.
Qed.

Lemma all_bytes_ending r : all_bytes r = pending r ++ all_bytes (ending r).2.
Proof.
  induction r as [|[bs|ec] r IH]; cbn [all_bytes pending ending]; [reflexivity| |reflexivity].
  rewrite IH, app_assoc. reflexivity.
Qed.

Lemma no_faults_ending r : faults r = [] -> ending r = (eof, []).
Proof.
  induction r as [|[bs|ec] r IH]; cbn [faults ending]; [reflexivity|exact IH|discriminate].
Qed.

Lemma faults_ending r ec fs :
  faults r = ec :: fs -> (ending r).1 = ec /\ faults (ending r).2 = fs.
Proof.
  induction r as [|[bs|ec'] r IH]; cbn [faults ending]; [discriminate|exact IH|].
  intros H. injection H as H1 H2. subst. auto.
Qed.

(** What a [read_until] that found a unit has taken off the stream. *)
Lemma read_until_taken r : forall b sp k r' b',
  read_until r b sp = (inl k, r', b') ->
  b' ++ all_bytes r' = b ++ all_bytes r /\ faults r' = faults r.
Proof.
  induction r as [|[bs|ec] r IH]; intros b sp k r' b' H; cbn [read_until] in H.
  - destruct (match_eol_or_escape (drop sp b)) as [i found].
    destruct found; inversion H; subst. auto.
  - destruct (match_eol_or_escape (drop sp b)) as [i found].
    destruct found.
    + inversion H; subst. auto.
    + apply IH in H as [H1 H2]. cbn [all_bytes faults].
      rewrite H1, <- app_assoc. auto.
  - destruct (match_eol_or_escape (drop sp b)) as [i found].
    destruct found; inversion H; subst. auto.
Qed.

Lemma text_stream_bytes lines tail :
  Forall (Forall plain) lines -> Forall plain tail ->
  Forall (fun c => c <> 4 /\ c <> 0xff) (text_stream lines tail).
Proof.
  intros Hl Ht. unfold text_stream. apply Forall_app. split.
  - induction Hl as [|l ls Hpl _ IH]; [apply Forall_nil_2|].
    cbn [map concat]. apply Forall_app. split; [|exact IH].
    apply Forall_app. split.
    + eapply Forall_impl; [exact Hpl|]. intros c (_ & H4 & H255). auto.
    + apply Forall_singleton. split; discriminate.
  - eapply Forall_impl; [exact Ht|]. intros c (_ & H4 & H255). auto.
Qed.

Lemma plain_prefix pre post lines tail :
  pre ++ post = text_stream lines tail ->
  Forall (Forall plain) lines -> Forall plain tail ->
  10 ∉ pre -> Forall plain pre.
Proof.
  intros HS Hl Ht Hn.
  pose proof (text_stream_bytes lines tail Hl Ht) as Hb. rewrite <- HS in Hb.
  apply Forall_app in Hb as [Hb _].
  apply Forall_forall. intros c Hc. rewrite Forall_forall in Hb.
  destruct (Hb c Hc) as [H4 H255]. split; [|auto]. intros ->. contradiction.
Qed.

Lemma loop_body_error `{Consumer} b c s ec r' b' :
  _socket (this c) = Some s ->
  read_until (rx s) b 0 = (inr ec, r', b') ->
  loop_body b c
  = (if benign ec then Break else Continue, b',
     if benign ec then with_rx r' (on_this (set_status "iwait") c)
     else add_log reading_error (with_rx r' (on_this (set_status "iwait") c))).
Proof.
  intros Hs Hr. unfold loop_body.
  change (_socket (this (on_this (set_status "iwait") c))) with (_socket (this c)).
  rewrite Hs, Hr. cbv beta iota. rewrite catch_system_error_cases.
  destruct (benign ec); reflexivity.
Qed.

Lemma logged_with_rx r c : logged (with_rx r c) = logged c.
Proof. unfold with_rx. destruct (_socket (this c)); reflexivity. Qed.

Lemma logged_with_sent buf c : logged (with_sent buf c) = logged c.
Proof. unfold with_sent. destruct (_socket (this c)); reflexivity. Qed.

Lemma loop_echo_text fuel : forall lines tail r b c s,
  _socket (this c) = Some s -> rx s = r -> wr_error s = success ->
  Forall (fun ec => benign ec = false) (faults r) ->
  b ++ all_bytes r = text_stream lines tail ->
  Forall (Forall plain) lines -> Forall plain tail ->
  (rx_weight r + length b < fuel)%nat ->
  exists c' s',
    @loop echo fuel b c = (Ok tail, c') /\
    sends c' = sends c ++ map chomp_cr lines /\
    logged c' = logged c ++ map (fun _ => reading_error) (faults r) /\
    _socket (this c') = Some s' /\ wr_error s' = success.
Proof.
  induction fuel as [|fuel IH]; intros lines tail r b c s Hs Hrx Hw Hf HS Hl Ht Hfuel; [lia|].
  pose proof (all_bytes_ending r) as Hall.
  cbn [loop].
  destruct (decide (10 ∈ b ++ pending r)) as [Hlf|Hnolf].
  - (* a line is complete before the stream breaks *)
    destruct lines as [|l ls].
    { exfalso. unfold text_stream in HS. cbn [map concat app] in HS.
      apply (plain_no_lf _ Ht). rewrite <- HS, Hall, app_assoc.
      apply elem_of_app. left. exact Hlf. }
    apply Forall_cons in Hl as [Hpl Hl].
    assert (exists k, b ++ pending r = l ++ 10 :: k) as [k Hk].
    { unfold text_stream in HS. cbn [map concat] in HS. rewrite <- !app_assoc in HS.
      cbn [app] in HS. rewrite Hall, app_assoc in HS.
      apply app_eq_inv in HS as [(k' & H1 & H2)|(k' & H1 & H2)].
      - destruct k' as [|x k'].
        + rewrite app_nil_r in H1. rewrite H1 in Hlf. destruct (plain_no_lf _ Hpl Hlf).
        + injection H2 as -> _. exists k'. exact H1.
      - exfalso. apply (plain_no_lf _ Hpl). rewrite H1. apply elem_of_app. left. exact Hlf. }
    destruct (read_until_line r b 0 l k Hk Hpl ltac:(lia) ltac:(lia))
      as (n & r' & brest & Hr & Hrest).
    pose proof (read_until_weight _ _ _ _ _ _ Hr) as (Hwt & _ & _).
    destruct (read_until_taken _ _ _ _ _ _ Hr) as [Htaken Hfaults].
    rewrite (@loop_body_unit echo b c s n r' (l ++ 10 :: brest) l brest Hs);
      [|rewrite Hrx; exact Hr|apply getline_line, plain_no_lf, Hpl].
    set (c1 := on_this (set_status " run ") (with_rx r' (on_this (set_status "iwait") c))).
    assert (_socket (this c1) = Some (set_rx r' s)) as Hs1.
    { subst c1. cbn [this on_this _socket set_status]. apply with_rx_socket. exact Hs. }
    change (@OnLine echo (chomp_cr l) c1) with (Send (chomp_cr l) c1).
    rewrite (Send_ok c1 _ (chomp_cr l) Hs1 Hw).
    destruct (IH ls tail r' brest (with_sent (chomp_cr l) c1)
                (set_tx (tx (set_rx r' s) ++ [chomp_cr l]) (set_rx r' s)))
      as (c' & s' & Hloop & Hsends & Hlog & Hs' & Hw').
    + apply with_sent_socket. exact Hs1.
    + reflexivity.
    + exact Hw.
    + rewrite Hfaults. exact Hf.
    + unfold text_stream in *. cbn [map concat] in HS. rewrite <- !app_assoc in HS.
      cbn [app] in HS. rewrite <- Htaken in HS. rewrite <- app_assoc in HS.
      cbn [app] in HS. apply app_inv_head in HS. injection HS as HS. exact HS.
    + exact Hl.
    + exact Ht.
    + rewrite length_app in Hwt. simpl in Hwt. lia.
    + exists c', s'. split; [exact Hloop|].
      split; [|split; [|split; assumption]].
      * rewrite Hsends, (sends_with_sent _ _ _ Hs1). subst c1.
        rewrite sends_status, sends_with_rx, sends_status.
        rewrite <- app_assoc. reflexivity.
      * rewrite Hlog, Hfaults, logged_with_sent. subst c1.
        cbn [logged on_this]. rewrite logged_with_rx. reflexivity.
  - (* the stream breaks first *)
    assert (Forall plain (b ++ pending r)) as Hplain.
    { apply (plain_prefix (b ++ pending r) (all_bytes (ending r).2) lines tail);
        [rewrite <- app_assoc, <- Hall; exact HS|exact Hl|exact Ht|exact Hnolf]. }
    pose proof (read_until_dry r b 0 Hplain ltac:(lia)) as Hr.
    pose proof (read_until_weight _ _ _ _ _ _ Hr) as (_ & Hwt & _).
    rewrite (@loop_body_error echo b c s _ _ _ Hs ltac:(rewrite Hrx; exact Hr)).
    destruct (faults r) as [|ec fs] eqn:Efaults.
    + (* the peer has closed *)
      rewrite (no_faults_ending r Efaults) in *. cbn [fst snd all_bytes] in *.
      change (benign eof) with true. cbv iota.
      rewrite app_nil_r in Hall. rewrite Hall in HS.
      assert (lines = []) as ->.
      { destruct lines as [|l ls]; [reflexivity|]. exfalso. apply Hnolf. rewrite HS.
        unfold text_stream. cbn [map concat]. rewrite <- !app_assoc.
        apply elem_of_app. right. left. }
      unfold text_stream in HS. cbn [map concat app] in HS. rewrite HS.
      eexists _, _. split; [reflexivity|].
      split; [rewrite sends_with_rx, sends_status, app_nil_r; reflexivity|].
      split; [|split; [apply with_rx_socket; exact Hs|exact Hw]].
      rewrite logged_with_rx, app_nil_r. reflexivity.
    + (* an error the loop logs and goes on from *)
      destruct (faults_ending r ec fs Efaults) as [Hec Hfs].
      apply Forall_cons in Hf as [Hben Hf].
      rewrite Hec in *. rewrite Hben. cbv iota.
      set (c1 := add_log reading_error
                   (with_rx (ending r).2 (on_this (set_status "iwait") c))).
      assert (_socket (this c1) = Some (set_rx (ending r).2 s)) as Hs1.
      { subst c1. cbn [this add_log]. apply with_rx_socket. exact Hs. }
      destruct (IH lines tail (ending r).2 (b ++ pending r) c1 (set_rx (ending r).2 s))
        as (c' & s' & Hloop & Hsends & Hlog & Hs' & Hw').
      * exact Hs1.
      * reflexivity.
      * exact Hw.
      * rewrite Hfs. exact Hf.
      * rewrite <- app_assoc, <- Hall. exact HS.
      * exact Hl.
      * exact Ht.
      * specialize (Hwt ec eq_refl Hben). lia.
      * exists c', s'. split; [exact Hloop|].
        split; [|split; [|split; assumption]].
        -- rewrite Hsends. subst c1.
           change (sends (add_log ?e ?x)) with (sends x).
           rewrite sends_with_rx, sends_status. reflexivity.
        -- rewrite Hlog, Hfs. subst c1. cbn [logged add_log map].
           rewrite logged_with_rx. cbn [logged on_this].
           rewrite <- app_assoc. reflexivity.
Qed.

(** X5: a peer sends lines of plain text, each ended by a line feed,
    and possibly some text without a line feed at the end, and closes.
    However TCP cuts the stream into chunks, and whatever transport
    errors other than end of stream, connection reset and not connected
    come between them, [handle_connection] hands the consumer every line
    in order, without its line feed and without one carriage return
    before it, empty lines included, and after the loop what was left
    unterminated, if it is not empty; every such error is logged once
    and nothing else is.  The consumer here sends back what it is
    handed, so the units show as the buffers written. *)
Theorem lines_delivered_whatever_the_chunks (tid : Z) (c : ctx) (s : tcp_socket)
    (lines : list (list Z)) (tail : list Z) :
  _socket (this c) = Some s ->
  wr_error s = success ->
  Forall (fun ec => benign ec = false) (faults (rx s)) ->
  all_bytes (rx s) = text_stream lines tail ->
  Forall (Forall plain) lines ->
  Forall plain tail ->
  fst (@handle_connection echo tid c) = Ok tt /\
  sends (snd (@handle_connection echo tid c))
  = tx s ++ map chomp_cr lines ++
    (if bool_decide (chomp_cr tail = []) then [] else [chomp_cr tail]) /\
  logged (snd (@handle_connection echo tid c))
  = logged c ++ [(Debug, "ServerSocket::handle_connection()"%string)] ++
    map (fun _ => reading_error) (faults (rx s)) ++
    [(Debug, "ServerSocket::exiting handle_connection()"%string)].
Proof.
  intros Hs Hw Hf HS Hl Ht.
  unfold handle_connection, mbind, M_bind, modify, logger, get_this. cbn beta iota.
  change (@OnConnection echo) with (@mret M _ unit tt). unfold mret, M_ret.
  set (c0 := add_log _ (on_this (set_tid tid) c)).
  assert (_socket (this c0) = Some s) as Hs0 by exact Hs.
  rewrite Hs0.
  destruct (loop_echo_text (S (rx_weight (rx s))) lines tail (rx s) [] c0 s)
    as (c' & s' & Hloop & Hsends & Hlog & Hs' & Hw');
    [exact Hs0|reflexivity|exact Hw|exact Hf|exact HS|exact Hl|exact Ht|simpl; lia|].
  rewrite Hloop. rewrite (getline_none tail (plain_no_lf _ Ht)).
  assert (sends c0 = tx s) as Hc0 by (unfold sends; rewrite Hs0; reflexivity).
  assert (logged c0 = logged c ++ [(Debug, "ServerSocket::handle_connection()"%string)])
    as Hl0 by reflexivity.
  destruct (decide (chomp_cr tail = [])) as [E|E].
  - rewrite (bool_decide_eq_false_2 (chomp_cr tail <> [])) by tauto.
    rewrite (bool_decide_eq_true_2 _ E). cbn [fst snd].
    split; [reflexivity|]. change (sends (add_log ?e ?x)) with (sends x).
    split; [rewrite Hsends, Hc0, app_nil_r; reflexivity|].
    cbn [logged add_log]. rewrite Hlog, Hl0, <- !app_assoc. reflexivity.
  - rewrite (bool_decide_eq_true_2 (chomp_cr tail <> [])) by exact E.
    rewrite (bool_decide_eq_false_2 _ E).
    change (@OnLine echo (chomp_cr tail) c') with (Send (chomp_cr tail) c').
    rewrite (Send_ok c' s' _ Hs' Hw'). cbn [fst snd].
    split; [reflexivity|]. change (sends (add_log ?e ?x)) with (sends x).
    split; [rewrite (sends_with_sent _ _ _ Hs'), Hsends, Hc0, <- app_assoc; reflexivity|].
    cbn [logged add_log]. rewrite logged_with_sent, Hlog, Hl0, <- !app_assoc. reflexivity.
Qed.

Lemma lines_delivered_whatever_the_chunks_witness :
  sends (snd (@handle_connection echo 7 (sample_ctx text_session)))
  = [bytes "hello"; []; bytes "world"; bytes "bye"] /\
  logged (snd (@handle_connection echo 7 (sample_ctx text_session)))
  = [(Debug, "ServerSocket::handle_connection()"%string); reading_error;
     (Debug, "ServerSocket::exiting handle_connection()"%string)].
Proof.
  destruct (lines_delivered_whatever_the_chunks 7
              (sample_ctx text_session) (sample_socket text_session)
              [bytes "hello" ++ [13]; []; bytes "world"] (bytes "bye")
              eq_refl eq_refl
              ltac:(apply (bool_decide_unpack _); vm_compute; reflexivity)
              eq_refl
              ltac:(apply (bool_decide_unpack _); vm_compute; reflexivity)
              ltac:(apply (bool_decide_unpack _); vm_compute; reflexivity))
    as (_ & Hsends & Hlog).
  split; [rewrite Hsends|rewrite Hlog]; reflexivity.
Defined.

Lemma read_until_next_chunk b bs r :
  snd (match_eol_or_escape b) = false ->
  snd (match_eol_or_escape bs) = true ->
  read_until (Bytes bs :: r) b 0
  = (inl (length b + fst (match_eol_or_escape bs))%nat, r, b ++ bs).
Proof.
  intros Hb Hbs. cbn [read_until]. rewrite drop_0.
  pose proof (scan_no_match_end false 0 b Hb) as Hend. unfold match_eol_or_escape in *.
  destruct (scan false 0 b) as [i f]. simpl in Hb, Hend. subst f i. cbn iota.
  assert (drop (length b) (b ++ bs) = bs) as Hd by apply drop_app_length.
  destruct (scan false 0 bs) as [j f] eqn:E. simpl in Hbs. subst f.
  destruct r as [|a r]; cbn [read_until]; unfold match_eol_or_escape;
    rewrite Nat.add_0_l, Hd, E; reflexivity.
Qed.

(** X6: a chunk that holds an EOT or a telnet command and no line
    feed is not kept waiting for a line feed: when nothing in the buffer
    ends a unit and the next chunk does, one turn of the loop hands the
    consumer the whole buffer with the whole chunk behind it, the bytes
    behind the control byte too, before anything more is received, and
    leaves the buffer empty. *)
Theorem control_byte_forwarded_at_once `{Consumer} (b bs : list Z) (c c2 : ctx)
    (s : tcp_socket) (r : list arrival) :
  _socket (this c) = Some s ->
  rx s = Bytes bs :: r ->
  snd (match_eol_or_escape b) = false ->
  snd (match_eol_or_escape bs) = true ->
  10 ∉ b ++ bs ->
  OnLine (chomp_cr (b ++ bs))
    (on_this (set_status " run ") (with_rx r (on_this (set_status "iwait") c)))
  = (Ok tt, c2) ->
  loop_body b c = (Continue, [], c2).
Proof.
  intros Hs Hrx Hb Hbs Hlf Hon. unfold loop_body.
  change (_socket (this (on_this (set_status "iwait") c))) with (_socket (this c)).
  rewrite Hs, Hrx, (read_until_next_chunk b bs r Hb Hbs). cbv beta iota.
  rewrite (getline_none _ Hlf), Hon. reflexivity.
Qed.

Lemma control_byte_forwarded_at_once_witness :
  @loop_body echo (bytes "ab") (sample_ctx [Bytes (bytes "c" ++ [4] ++ bytes "d"); Bytes [10]])
  = (Continue, [],
     with_sent (bytes "abc" ++ [4] ++ bytes "d")
       (on_this (set_status " run ") (sample_ctx [Bytes [10]]))).
Proof.
  apply (@control_byte_forwarded_at_once echo (bytes "ab") (bytes "c" ++ [4] ++ bytes "d")
           (sample_ctx [Bytes (bytes "c" ++ [4] ++ bytes "d"); Bytes [10]]) _
           (sample_socket [Bytes (bytes "c" ++ [4] ++ bytes "d"); Bytes [10]]) [Bytes [10]]).
  - reflexivity.
  - reflexivity.
  - reflexivity.
  - reflexivity.
  - apply (bool_decide_unpack _). vm_compute. reflexivity.
  - reflexivity.
Defined.

Lemma handle_connection_escape `{Consumer} tid c c0 s line rest e :
  OnConnection (add_log (Debug, "ServerSocket::handle_connection()"%string)
                  (on_this (set_tid tid) c)) = (Ok tt, c0) ->
  _socket (this c0) = Some s ->
  pending (rx s) = line ++ 10 :: rest ->
  Forall plain line ->
  (forall c1, fst (OnLine (chomp_cr line) c1) = Throw e) ->
  (forall ec, e <> system_error ec) ->
  exists c2, handle_connection tid c = (Throw e, c2).
Proof.
  intros Hconn Hs Hp Hpl Hthrow Hne.
  unfold handle_connection.
  rewrite (bind_ok (modify _) _ c tt (on_this (set_tid tid) c) eq_refl).
  rewrite (bind_ok (logger _ _) _ _ tt _ eq_refl).
  rewrite (bind_ok _ _ _ _ _ Hconn).
  rewrite (bind_ok get_this _ c0 (this c0) c0 eq_refl). rewrite Hs. cbv zeta.
  destruct (read_until_line (rx s) [] 0 line rest Hp Hpl ltac:(simpl; lia) ltac:(lia))
    as (k & r' & brest & Hr & _).
  assert (exists c2, loop (S (rx_weight (rx s))) [] c0 = (Throw e, c2)) as [c2 Hloop].
  { cbn [loop].
    rewrite (loop_body_unit [] c0 s k r' (line ++ 10 :: brest) line brest Hs Hr
               (getline_line _ _ (plain_no_lf _ Hpl))).
    specialize (Hthrow (on_this (set_status " run ")
                          (with_rx r' (on_this (set_status "iwait") c0)))).
    destruct (OnLine (chomp_cr line) _) as [ro c2]. simpl in Hthrow. subst ro.
    exists c2. destruct e as [|ec|]; [reflexivity|destruct (Hne ec eq_refl)|reflexivity]. }
  exists c2. apply bind_throw. exact Hloop.
Qed.

(** X7: [delete this] is the last statement of [handle_connection]:
    the connection leaves the registry and its storage is released
    exactly when [handle_connection] returns.  An exception other than
    a [system_error] that [OnLine] throws on the first line is caught
    nowhere: it ends [handle_connection], and the object stays
    registered and allocated. *)
Theorem serve_deletes_only_on_return `{Consumer} (a tid : Z) (p : process) :
  (forall r p',
     serve a tid p = (r, p') ->
     (r = Ok tt -> _sock_list p' = _sock_list p ∖ {[a]} /\ heap p' !! a = None) /\
     (r <> Ok tt -> _sock_list p' = _sock_list p /\ dom (heap p') = dom (heap p))) /\
  (forall ss c0 s line rest e,
     heap p !! a = Some ss ->
     OnConnection (add_log (Debug, "ServerSocket::handle_connection()"%string)
                     (on_this (set_tid tid) {| this := ss; logged := plog p |}))
     = (Ok tt, c0) ->
     _socket (this c0) = Some s ->
     pending (rx s) = line ++ 10 :: rest ->
     Forall plain line ->
     (forall c1, fst (OnLine (chomp_cr line) c1) = Throw e) ->
     (forall ec, e <> system_error ec) ->
     fst (serve a tid p) = Throw e /\
     _sock_list (snd (serve a tid p)) = _sock_list p /\
     is_Some (heap (snd (serve a tid p)) !! a)).
Proof.
  split.
  - intros r p'. unfold serve. intros Hserve.
    destruct (call a (handle_connection tid) p) as [r1 p1] eqn:Hcall.
    pose proof (call_heap _ _ _ _ _ Hcall) as [Hl1 Hd1].
    destruct r1 as [[]|e| |].
    + unfold delete_ServerSocket in Hserve.
      destruct (call a destructor_body p1) as [r2 p2] eqn:Hdel.
      pose proof (call_heap _ _ _ _ _ Hdel) as [Hl2 Hd2].
      destruct r2 as [[]|e| |]; inversion Hserve; subst; clear Hserve.
      * split; [|intros Hne; contradiction]. intros _. cbn [_sock_list heap rem_sock].
        split; [congruence|apply lookup_delete_eq].
      * split; [discriminate|]. intros _. split; congruence.
      * split; [discriminate|]. intros _. split; congruence.
      * split; [discriminate|]. intros _. split; congruence.
    + inversion Hserve; subst. split; [discriminate|]. intros _. split; assumption.
    + inversion Hserve; subst. split; [discriminate|]. intros _. split; assumption.
    + inversion Hserve; subst. split; [discriminate|]. intros _. split; assumption.
  - intros ss c0 s line rest e Ha Hconn Hs Hp Hpl Hthrow Hne.
    destruct (handle_connection_escape tid _ c0 s line rest e Hconn Hs Hp Hpl Hthrow Hne)
      as [c2 Hh].
    unfold serve, call. rewrite Ha, Hh. cbn [fst snd _sock_list heap].
    split; [reflexivity|]. split; [reflexivity|].
    rewrite lookup_insert_eq. eauto.
Qed.

Lemma serve_deletes_only_on_return_witness :
  fst (@serve hangup 64 7 (one_object (this (sample_ctx [Bytes (bytes "quit" ++ [10])]))))
  = Throw SilentException /\
  _sock_list (snd (@serve hangup 64 7
                     (one_object (this (sample_ctx [Bytes (bytes "quit" ++ [10])])))))
  = {[ 64 ]}.
Proof.
  destruct (proj2 (@serve_deletes_only_on_return hangup 64 7
                     (one_object (this (sample_ctx [Bytes (bytes "quit" ++ [10])]))))
              (this (sample_ctx [Bytes (bytes "quit" ++ [10])]))
              (add_log (Debug, "ServerSocket::handle_connection()"%string)
                 (on_this (set_tid 7) (sample_ctx [Bytes (bytes "quit" ++ [10])])))
              (sample_socket [Bytes (bytes "quit" ++ [10])])
              (bytes "quit") [] SilentException)
    as (H1 & H2 & _).
  - apply lookup_singleton_eq.
  - reflexivity.
  - reflexivity.
  - reflexivity.
  - apply (bool_decide_unpack _). vm_compute. reflexivity.
  - intros c1. reflexivity.
  - intros ec. discriminate.
  - split; [exact H1|exact H2].
Defined.

End ReadLoopProps.

(** * Further properties of the frame codec *)

Module FrameProps.
Import MonadFacts Sample Wire WebSocket WebSocketFacts WebSocketClaims Reference.

Lemma get_websocket_line_first c s r fop rest :
  _socket (this c) = Some s ->
  pending r = fop :: rest ->
  Z.land fop 0xf <> 9 -> Z.land fop 0xf <> 10 ->
  exists r',
    pending r' = rest /\
    get_websocket_line (with_rx r c)
    = (if Z.land fop 0xf =? 8 then
         logger Info "Received WebSocket close";; throw SilentException
       else if negb (Z.land fop 0xf =? 1) then
         logger Warn "Not expecting binary websocket data; opcode=%d";;
         throw SilentException
       else get_websocket_data) (with_rx r' c).
Proof.
  intros Hs Hp H9 H10. unfold get_websocket_line, websocket_line.
  destruct (read_uint_ok c s r [fop] _ Hs Hp) as (r1 & Hr1 & Hp1).
  exists r1. split; [exact Hp1|].
  rewrite (bind_ok _ _ _ _ _ Hr1). rewrite le_combine_1.
  rewrite ping_loop_other by assumption.
  rewrite (bind_ok (mret (Z.land fop 15)) _ (with_rx r1 c) _ (with_rx r1 c) eq_refl).
  reflexivity.
Qed.

(** X8: [get_websocket_line] returns text frames only.  A close frame
    (opcode 8) is logged at info level and ends the call with
    [SilentException]; a frame of any other opcode that is neither text
    nor ping nor pong (continuation, binary, the reserved ones) is logged
    as a warning and ends it the same way.  In both cases only the first
    byte of the frame has been read, and the FIN and reserved bits of
    that byte play no part. *)
Theorem close_and_unsupported_opcodes (c : ctx) (s : tcp_socket) (fop : Z)
    (rest : list Z) :
  _socket (this c) = Some s ->
  pending (rx s) = fop :: rest ->
  (Z.land fop 0xf = 8 ->
   exists r',
     get_websocket_line c
     = (Throw SilentException,
        add_log (Info, "Received WebSocket close"%string) (with_rx r' c)) /\
     pending r' = rest) /\
  (Z.land fop 0xf <> 1 -> Z.land fop 0xf <> 8 ->
   Z.land fop 0xf <> 9 -> Z.land fop 0xf <> 10 ->
   exists r',
     get_websocket_line c
     = (Throw SilentException,
        add_log (Warn, "Not expecting binary websocket data; opcode=%d"%string)
          (with_rx r' c)) /\
     pending r' = rest).
Proof.
  intros Hs Hp. split.
  - intros H8.
    destruct (get_websocket_line_first c s (rx s) fop rest Hs Hp) as (r' & Hp' & Hg);
      [lia|lia|].
    rewrite (with_rx_id c s Hs) in Hg. rewrite Hg.
    rewrite H8. exists r'. split; [reflexivity|exact Hp'].
  - intros H1 H8 H9 H10.
    destruct (get_websocket_line_first c s (rx s) fop rest Hs Hp) as (r' & Hp' & Hg);
      [lia|lia|].
    rewrite (with_rx_id c s Hs) in Hg. rewrite Hg.
    rewrite (proj2 (Z.eqb_neq _ _) H8), (proj2 (Z.eqb_neq _ _) H1).
    exists r'. split; [reflexivity|exact Hp'].
Qed.

Lemma close_and_unsupported_opcodes_witness :
  (exists r',
     get_websocket_line (sample_ctx [Bytes [0x88; 0x80; 1; 2; 3; 4]])
     = (Throw SilentException,
        add_log (Info, "Received WebSocket close"%string)
          (with_rx r' (sample_ctx [Bytes [0x88; 0x80; 1; 2; 3; 4]]))) /\
     pending r' = [0x80; 1; 2; 3; 4]) /\
  (exists r',
     get_websocket_line (sample_ctx [Bytes [0x02; 0x80; 1; 2; 3; 4]])
     = (Throw SilentException,
        add_log (Warn, "Not expecting binary websocket data; opcode=%d"%string)
          (with_rx r' (sample_ctx [Bytes [0x02; 0x80; 1; 2; 3; 4]]))) /\
     pending r' = [0x80; 1; 2; 3; 4]).
Proof.
  split.
  - apply (proj1 (close_and_unsupported_opcodes
                    (sample_ctx [Bytes [0x88; 0x80; 1; 2; 3; 4]])
                    (sample_socket [Bytes [0x88; 0x80; 1; 2; 3; 4]])
                    0x88 [0x80; 1; 2; 3; 4] eq_refl eq_refl)).
    reflexivity.
  - apply (proj2 (close_and_unsupported_opcodes
                    (sample_ctx [Bytes [0x02; 0x80; 1; 2; 3; 4]])
                    (sample_socket [Bytes [0x02; 0x80; 1; 2; 3; 4]])
                    0x02 [0x80; 1; 2; 3; 4] eq_refl eq_refl)); discriminate.
Defined.

Lemma sent_frame text :
  sent (snd (send_websocket text (sample_ctx [])))
  = frame_header (Z.of_nat (length text)) ++ text.
Proof.
  rewrite (send_websocket_sends (sample_ctx []) (sample_socket []) text eq_refl eq_refl).
  cbn [snd]. unfold sent. simpl. rewrite app_nil_r. reflexivity.
Qed.

Lemma frame_header_bytes n b1 ext :
  frame_header n = 0x81 :: b1 :: ext -> Forall is_byte ext.
Proof.
  unfold frame_header. intros Hh.
  destruct (_ <? 126); [injection Hh as _ <-; apply Forall_nil_2|].
  destruct (_ <? 65536); injection Hh as _ <-;
    repeat (apply Forall_cons_2;
            [unfold is_byte; rewrite land_ff; apply Z.mod_pos_bound; lia|]);
    apply Forall_nil_2.
Qed.

Lemma header_length_frame n b1 ext text :
  0 <= n < 2 ^ 64 ->
  frame_header n = 0x81 :: b1 :: ext ->
  header_length (frame_header n ++ text) = length (frame_header n).
Proof.
  intros Hn Hh.
  destruct (frame_header_declares n Hn) as (b1' & ext' & Hh' & Hm & Hd & H2 & H4 & H10).
  rewrite Hh in Hh'. injection Hh' as <- <-.
  destruct (frame_header_codes _ _ _ Hh) as [Hc4 Hc10].
  rewrite Hh. cbn [app header_length length].
  destruct (Z.ltb_spec n 126) as [Hs|Hs].
  - rewrite (H2 Hs) in *. unfold declared_length in Hd.
    destruct (Z.leb_spec (Z.land b1 127) 125) as [Hle|Hgt].
    + rewrite !(proj2 (Z.eqb_neq _ _)) by lia. reflexivity.
    + destruct (Z.land b1 127 =? 126); [discriminate|].
      destruct (Z.land b1 127 =? 127); discriminate.
  - destruct (Z.ltb_spec n 65536) as [Hs2|Hs2].
    + rewrite (Hc4 ltac:(lia)), (H4 ltac:(lia)). reflexivity.
    + rewrite (Hc10 Hs2), (H10 Hs2). reflexivity.
Qed.

(** The shape of a client's frame. *)
Lemma client_frame_shape key text :
  Z.of_nat (length text) < 2 ^ 64 ->
  exists b1 ext,
    frame_header (Z.of_nat (length text)) = 0x81 :: b1 :: ext /\
    client_frame key text = 0x81 :: Z.lor b1 0x80 :: ext ++ key ++ xor_mask key text /\
    Forall is_byte ext /\
    declared_length (Z.land b1 0x7f) ext = Some (Z.of_nat (length text)).
Proof.
  intros Hlen.
  destruct (frame_header_declares (Z.of_nat (length text)) ltac:(lia))
    as (b1 & ext & Hh & Hm & Hd & _).
  exists b1, ext. split; [exact Hh|].
  split; [|split; [exact (frame_header_bytes _ _ _ Hh)|exact Hd]].
  unfold client_frame. rewrite sent_frame. unfold client_mask.
  rewrite (header_length_frame (Z.of_nat (length text)) b1 ext text ltac:(lia) Hh).
  rewrite take_app_length, drop_app_length, Hh. reflexivity.
Qed.

Lemma client_frame_decoded c s r key text rest :
  _socket (this c) = Some s ->
  pending r = client_frame key text ++ rest ->
  sendable (key, text) ->
  exists r',
    get_websocket_line (with_rx r c) = (Ok (text ++ [0]), with_rx r' c) /\
    pending r' = rest.
Proof.
  intros Hs Hp (Hklen & Hkey & Htext & Hlen). cbn [fst snd] in *.
  destruct (client_frame_shape key text ltac:(lia)) as (b1 & ext & Hh & Hcf & Hext & Hd).
  destruct (set_mask_bit b1) as [Hlow Hhigh].
  rewrite Hcf in Hp. cbn [app] in Hp. rewrite <- !app_assoc in Hp.
  destruct (get_websocket_line_text_from c s r 0x81 (Z.lor b1 0x80) ext key
              (xor_mask key text) rest (Z.of_nat (length text)))
    as (r' & Hg & Hr'); auto.
  - apply xor_mask_bytes; assumption.
  - rewrite Hlow. exact Hd.
  - rewrite xor_mask_length. reflexivity.
  - exists r'. rewrite Hg, xor_mask_involutive by assumption. auto.
Qed.

Lemma read_units_from msgs : forall c s r rest,
  _socket (this c) = Some s ->
  pending r = concat (map (fun m => client_frame m.1 m.2) msgs) ++ rest ->
  Forall sendable msgs ->
  exists r',
    read_units (length msgs) (with_rx r c)
    = (Ok (map (fun m => m.2 ++ [0]) msgs), with_rx r' c) /\
    pending r' = rest.
Proof.
  induction msgs as [|[key text] msgs IH]; intros c s r rest Hs Hp Hall.
  - exists r. split; [reflexivity|exact Hp].
  - apply Forall_cons in Hall as [Hm Hall].
    cbn [map concat fst snd] in Hp. rewrite <- app_assoc in Hp.
    destruct (client_frame_decoded c s r key text _ Hs Hp Hm) as (r1 & Hg & Hp1).
    destruct (IH c s r1 rest Hs Hp1 Hall) as (r' & Hu & Hp').
    exists r'. split; [|exact Hp'].
    cbn [read_units length map].
    rewrite (bind_ok _ _ _ _ _ Hg), (bind_ok _ _ _ _ _ Hu). reflexivity.
Qed.

Lemma control_frame_skipped c s ping key payload rest :
  _socket (this c) = Some s ->
  wr_error s = success ->
  pending (rx s) = control_frame (ping, key, payload) ++ rest ->
  controlling (ping, key, payload) ->
  exists c1 s1,
    get_websocket_line c = get_websocket_line c1 /\
    _socket (this c1) = Some s1 /\ wr_error s1 = success /\
    pending (rx s1) = rest /\
    sent c1 = sent c ++ (if ping then 0x8a :: Z.of_nat (length payload) :: payload else []).
Proof.
  intros Hs Hw Hp (Hklen & Hkey & Hpay & Hlen). cbn [fst snd] in *.
  unfold control_frame in Hp. cbn [app] in Hp. rewrite <- app_assoc in Hp.
  destruct (set_mask_bit (Z.of_nat (length payload))) as [Hlow Hhigh].
  assert (Z.land (Z.of_nat (length payload)) 0x7f = Z.of_nat (length payload)) as Hcode.
  { change 0x7f with (Z.ones 7). rewrite Z.land_ones by lia. apply Z.mod_small.
    change (2 ^ 7) with 128. lia. }
  destruct (get_websocket_line_control c s (if ping then 0x89 else 0x8a)
              (Z.lor (Z.of_nat (length payload)) 0x80) [] key (xor_mask key payload)
              rest (Z.of_nat (length payload)) Hs Hw Hp)
    as (r' & Hp' & Hg).
  - apply Forall_nil_2.
  - exact Hkey.
  - apply xor_mask_bytes; assumption.
  - exact Hhigh.
  - rewrite Hlow, Hcode. unfold declared_length.
    rewrite (proj2 (Z.leb_le _ _)) by lia. reflexivity.
  - lia.
  - exact Hklen.
  - rewrite xor_mask_length. reflexivity.
  - destruct ping; [left|right]; reflexivity.
  - rewrite xor_mask_involutive in Hg by assumption.
    pose proof (with_rx_socket r' c s Hs) as Hs1.
    destruct ping.
    + change (Z.land 137 15 =? 9) with true in Hg. cbv iota in Hg.
      destruct (with_pong_socket payload _ _ Hs1) as (s' & Hs' & Hrx & Hw').
      exists (with_pong payload (with_rx r' c)), s'.
      split; [exact Hg|]. split; [exact Hs'|]. split; [rewrite Hw'; exact Hw|].
      split; [rewrite Hrx; exact Hp'|].
      rewrite (sent_with_pong _ _ _ Hs1), sent_with_rx.
      unfold to_uchar. rewrite Z.mod_small by lia. reflexivity.
    + change (Z.land 138 15 =? 9) with false in Hg. cbv iota in Hg.
      exists (with_rx r' c), (set_rx r' s).
      split; [exact Hg|]. split; [exact Hs1|]. split; [exact Hw|].
      split; [exact Hp'|]. rewrite sent_with_rx, app_nil_r. reflexivity.
Qed.

(** X9: any number of pings and pongs may come before a text frame:
    [get_websocket_line] answers every ping, in order, with a pong that
    carries the ping's payload, writes nothing for a pong, and returns
    the text of the first text frame with its NUL, having read exactly
    the frames up to and including that one. *)
Theorem control_frames_before_text (c : ctx) (s : tcp_socket)
    (ks : list (bool * list Z * list Z)) (key text rest : list Z) :
  _socket (this c) = Some s ->
  wr_error s = success ->
  pending (rx s) = concat (map control_frame ks) ++ client_frame key text ++ rest ->
  Forall controlling ks ->
  sendable (key, text) ->
  exists c',
    get_websocket_line c = (Ok (text ++ [0]), c') /\
    sent c' = sent c ++ pongs ks /\
    unread c' = rest.
Proof.
  revert c s. induction ks as [|[[ping k] payload] ks IH]; intros c s Hs Hw Hp Hall Hmsg.
  - cbn [map concat app] in Hp.
    destruct (client_frame_decoded c s (rx s) key text rest Hs Hp Hmsg) as (r' & Hg & Hp').
    rewrite (with_rx_id c s Hs) in Hg.
    exists (with_rx r' c). split; [exact Hg|].
    split; [rewrite sent_with_rx; unfold pongs; simpl; rewrite app_nil_r; reflexivity|].
    unfold unread. rewrite (with_rx_socket r' c s Hs). exact Hp'.
  - apply Forall_cons in Hall as [Hk Hall].
    cbn [map concat] in Hp. rewrite <- app_assoc in Hp.
    destruct (control_frame_skipped c s ping k payload _ Hs Hw Hp Hk)
      as (c1 & s1 & Hg & Hs1 & Hw1 & Hp1 & Hsent1).
    destruct (IH c1 s1 Hs1 Hw1 Hp1 Hall Hmsg) as (c' & Hg' & Hsent' & Hun).
    exists c'. split; [rewrite Hg; exact Hg'|]. split; [|exact Hun].
    rewrite Hsent', Hsent1, <- app_assoc. reflexivity.
Qed.

Lemma control_frames_before_text_witness :
  exists c',
    get_websocket_line (sample_ctx control_session) = (Ok (bytes "hello" ++ [0]), c') /\
    sent c' = [0x8a; 2] ++ bytes "hi" /\
    unread c' = [].
Proof.
  destruct (control_frames_before_text
              (sample_ctx control_session) (sample_socket control_session)
              [(true, [0x37; 0xfa; 0x21; 0x3d], bytes "hi"); (false, [1; 2; 3; 4], [])]
              [9; 8; 7; 6] (bytes "hello") [])
    as (c' & Hg & Hsent & Hun).
  - reflexivity.
  - reflexivity.
  - vm_compute. reflexivity.
  - apply (bool_decide_unpack _). vm_compute. reflexivity.
  - apply (bool_decide_unpack _). vm_compute. reflexivity.
  - exists c'. split; [exact Hg|]. split; [exact Hsent|exact Hun].
Defined.

(** X10: text frames sent one behind the other are returned one per
    call of [get_websocket_line], in the order sent, each with the NUL
    the decoder appends, whatever the masks and however the stream is
    cut into chunks; what follows the last frame read is left unread. *)
Theorem frames_decode_in_order (c : ctx) (s : tcp_socket)
    (msgs : list (list Z * list Z)) (rest : list Z) :
  _socket (this c) = Some s ->
  pending (rx s) = concat (map (fun m => client_frame m.1 m.2) msgs) ++ rest ->
  Forall sendable msgs ->
  exists r',
    read_units (length msgs) c = (Ok (map (fun m => m.2 ++ [0]) msgs), with_rx r' c) /\
    pending r' = rest.
Proof.
  intros Hs Hp Hall.
  pose proof (read_units_from msgs c s (rx s) rest Hs Hp Hall) as H.
  rewrite (with_rx_id c s Hs) in H. exact H.
Qed.

Lemma frames_decode_in_order_witness :
  exists r',
    read_units 2 (sample_ctx two_texts)
    = (Ok [bytes "hi" ++ [0]; bytes "yo" ++ [0]], with_rx r' (sample_ctx two_texts)) /\
    pending r' = [0x88].
Proof.
  apply (frames_decode_in_order (sample_ctx two_texts) (sample_socket two_texts)
           [([0x37; 0xfa; 0x21; 0x3d], bytes "hi"); ([1; 2; 3; 4], bytes "yo")] [0x88]).
  - reflexivity.
  - vm_compute. reflexivity.
  - apply (bool_decide_unpack _). vm_compute. reflexivity.
Defined.

(** X11: a frame whose mask bit is clear is refused: once the header
    and the length have been read, [get_websocket_data] logs a warning
    and throws [SilentException], and the payload stays unread.  The
    frames [send_websocket] writes are such frames: fed back to
    [get_websocket_line] they are refused. *)
Theorem unmasked_frames_are_refused (c : ctx) (s : tcp_socket) :
  _socket (this c) = Some s ->
  (forall mpay ext rest n,
     pending (rx s) = mpay :: ext ++ rest ->
     Forall is_byte ext ->
     Z.land mpay 0x80 = 0 ->
     declared_length (Z.land mpay 0x7f) ext = Some n ->
     n <= 2 ^ 40 ->
     exists r',
       get_websocket_data c
       = (Throw SilentException, add_log unmasked_data (with_rx r' c)) /\
       pending r' = rest) /\
  (forall text rest,
     pending (rx s) = sent (snd (send_websocket text (sample_ctx []))) ++ rest ->
     Z.of_nat (length text) <= 2 ^ 40 ->
     exists r',
       get_websocket_line c
       = (Throw SilentException, add_log unmasked_data (with_rx r' c)) /\
       pending r' = text ++ rest).
Proof.
  intros Hs. split.
  - intros mpay ext rest n Hp Hext Hm Hd Hn.
    exact (get_websocket_data_unmasked c s mpay ext rest n Hs Hp Hext Hm Hd Hn).
  - intros text rest Hp Hlen. rewrite sent_frame in Hp.
    destruct (frame_header_declares (Z.of_nat (length text)) ltac:(lia))
      as (b1 & ext & Hh & Hm & Hd & _).
    rewrite Hh in Hp. cbn [app] in Hp. rewrite <- app_assoc in Hp.
    destruct (get_websocket_line_first c s (rx s) 0x81 _ Hs Hp) as (r1 & Hp1 & Hg1);
      [discriminate|discriminate|].
    rewrite (with_rx_id c s Hs) in Hg1. rewrite Hg1.
    change (Z.land 129 15) with 1. cbn [Z.eqb Pos.eqb negb].
    pose proof (frame_header_bytes _ _ _ Hh) as Hext.
    destruct (get_websocket_data_unmasked (with_rx r1 c) (set_rx r1 s) b1 ext
                (text ++ rest) (Z.of_nat (length text)))
      as (r' & Hg & Hp'); auto using with_rx_socket.
    exists r'. rewrite Hg, with_rx_with_rx. auto.
Qed.

Lemma unmasked_frames_are_refused_witness :
  exists r',
    get_websocket_line
      (sample_ctx [Bytes (sent (snd (send_websocket (bytes "hello") (sample_ctx []))))])
    = (Throw SilentException,
       add_log unmasked_data
         (with_rx r'
            (sample_ctx
               [Bytes (sent (snd (send_websocket (bytes "hello") (sample_ctx []))))]))) /\
    pending r' = bytes "hello" ++ [].
Proof.
  apply (proj2 (unmasked_frames_are_refused
                  (sample_ctx
                     [Bytes (sent (snd (send_websocket (bytes "hello") (sample_ctx []))))])
                  (sample_socket
                     [Bytes (sent (snd (send_websocket (bytes "hello") (sample_ctx []))))])
                  eq_refl) (bytes "hello") []).
  - reflexivity.
  - vm_compute. discriminate.
Defined.

Lemma recv_short r : forall n,
  (length (pending r) < n)%nat -> recv n r = (inr (ending r).1, (ending r).2).
Proof.
  induction r as [|[bs|ec] r IH]; intros n Hn.
  - destruct n; [simpl in Hn; lia|reflexivity].
  - cbn [pending] in Hn. rewrite length_app in Hn.
    destruct n as [|n]; [lia|]. cbn [recv ending].
    destruct (decide (S n <= length bs)%nat); [lia|].
    rewrite IH by lia. reflexivity.
  - destruct n; [simpl in Hn; lia|reflexivity].
Qed.

Lemma recv_ending r : forall n got r',
  recv n r = (inl got, r') -> ending r' = ending r.
Proof.
  induction r as [|[bs|ec] r IH]; intros n got r' H.
  - destruct n; inversion H; reflexivity.
  - destruct n as [|n]; [inversion H; reflexivity|]. cbn [recv] in H.
    destruct (decide (S n <= length bs)%nat).
    + inversion H; subst. reflexivity.
    + destruct (recv (S n - length bs) r) as [[g|e] r1] eqn:E; inversion H; subst.
      cbn [ending]. eapply IH, E.
  - destruct n; inversion H; reflexivity.
Qed.

Lemma asio_read_short c s r n :
  _socket (this c) = Some s ->
  (length (pending r) < n)%nat ->
  asio_read n (with_rx r c)
  = (Throw (system_error (ending r).1), with_rx (ending r).2 c).
Proof.
  intros Hs Hn. unfold asio_read. rewrite (with_rx_socket r c s Hs). simpl.
  rewrite (recv_short r n Hn), with_rx_with_rx. reflexivity.
Qed.

Lemma read_uint_short c s r n :
  _socket (this c) = Some s ->
  (length (pending r) < n)%nat ->
  read_uint n (with_rx r c)
  = (Throw (system_error (ending r).1), with_rx (ending r).2 c).
Proof.
  intros Hs Hn. unfold read_uint. apply bind_throw, (asio_read_short c s); assumption.
Qed.

Lemma asio_read_more c s r bs rest :
  _socket (this c) = Some s ->
  pending r = bs ++ rest ->
  exists r', asio_read (length bs) (with_rx r c) = (Ok bs, with_rx r' c) /\
             pending r' = rest /\ ending r' = ending r.
Proof.
  intros Hs Hp. unfold asio_read. rewrite (with_rx_socket r c s Hs). simpl.
  destruct (recv_pending r (length bs) bs rest Hp eq_refl) as (r' & Hr & Hp').
  rewrite Hr. exists r'. rewrite with_rx_with_rx.
  split; [reflexivity|]. split; [exact Hp'|]. exact (recv_ending _ _ _ _ Hr).
Qed.

Lemma read_uint_more c s r bs rest :
  _socket (this c) = Some s ->
  pending r = bs ++ rest ->
  exists r', read_uint (length bs) (with_rx r c) = (Ok (le_combine bs), with_rx r' c) /\
             pending r' = rest /\ ending r' = ending r.
Proof.
  intros Hs Hp. destruct (asio_read_more c s r bs rest Hs Hp) as (r' & Hr & Hp' & He).
  exists r'. split; [|auto]. unfold read_uint.
  rewrite (bind_ok _ _ _ _ _ Hr). reflexivity.
Qed.

(** The length field complete: as [read_paylen_ok], with the ending. *)
Lemma read_paylen_more c s r code ext rest n :
  _socket (this c) = Some s ->
  pending r = ext ++ rest ->
  Forall is_byte ext ->
  0 <= code <= 127 ->
  declared_length code ext = Some n ->
  n <= 2 ^ 40 ->
  exists r', read_paylen code (with_rx r c) = (Ok n, with_rx r' c) /\
             pending r' = rest /\ ending r' = ending r.
Proof.
  intros Hs Hp Hb Hcode Hd Hn.
  destruct (read_paylen_ok c s r code ext rest n Hs Hp Hb Hcode Hd Hn) as (r0 & Hok & _).
  unfold read_paylen, declared_length in *.
  destruct (Z.leb_spec code 125) as [H125|H125].
  - case_bool_decide as He; [|discriminate]. subst ext.
    rewrite !(proj2 (Z.eqb_neq _ _)) in * by lia.
    injection Hd as <-.
    exists r. split; [reflexivity|]. split; [exact Hp|reflexivity].
  - destruct (Z.eqb_spec code 126) as [->|H126].
    + case_bool_decide as He; [|discriminate].
      destruct ext as [|b0 [|b1 [|? ?]]]; try discriminate.
      destruct (read_uint_more c s r [b0; b1] rest Hs Hp) as (r' & Hr & Hp' & He').
      cbn [length] in Hr.
      rewrite (bind_ok _ _ _ _ _ Hr) in *.
      exists r'. split; [|auto].
      cbv [mret M_ret] in *. f_equal. congruence.
    + destruct (Z.eqb_spec code 127) as [->|H127]; [|lia].
      case_bool_decide as He; [|discriminate].
      destruct ext as [|b0 [|b1 [|b2 [|b3 [|b4 [|b5 [|b6 [|b7 [|? ?]]]]]]]]];
        try discriminate.
      change [b0; b1; b2; b3; b4; b5; b6; b7] with ([b0; b1; b2; b3] ++ [b4; b5; b6; b7]) in *.
      rewrite <- app_assoc in Hp.
      destruct (read_uint_more c s r [b0; b1; b2; b3] _ Hs Hp) as (r1 & Hr1 & Hp1 & He1).
      destruct (read_uint_more c s r1 [b4; b5; b6; b7] _ Hs Hp1) as (r2 & Hr2 & Hp2 & He2).
      cbn [length] in Hr1, Hr2.
      rewrite (bind_ok _ _ _ _ _ Hr1) in *. rewrite (bind_ok _ _ _ _ _ Hr2) in *.
      cbv zeta in *.
      destruct (Z.shiftl 1 40 <? _).
      * unfold mbind, M_bind, logger, throw in Hok. discriminate.
      * exists r2. split; [|split; [exact Hp2|congruence]].
        cbv [mret M_ret] in *. f_equal. congruence.
Qed.

(** The length field cut short. *)
Lemma read_paylen_short c s r code ext n m :
  _socket (this c) = Some s ->
  pending r = take m ext ->
  (m < length ext)%nat ->
  declared_length code ext = Some n ->
  read_paylen code (with_rx r c)
  = (Throw (system_error (ending r).1), with_rx (ending r).2 c).
Proof.
  intros Hs Hp Hm Hd. unfold read_paylen, declared_length in *.
  destruct (Z.leb_spec code 125) as [H125|H125].
  - case_bool_decide as He; [|discriminate]. subst ext. simpl in Hm. lia.
  - destruct (Z.eqb_spec code 126) as [->|H126].
    + case_bool_decide as He; [|discriminate].
      apply bind_throw, (read_uint_short c s); [exact Hs|].
      rewrite Hp, length_take. lia.
    + destruct (Z.eqb_spec code 127) as [->|H127]; [|discriminate].
      case_bool_decide as He; [|discriminate].
      destruct (decide (m < 4)%nat) as [Hlt|Hge].
      * apply bind_throw, (read_uint_short c s); [exact Hs|].
        rewrite Hp, length_take. lia.
      * assert (pending r = take 4 ext ++ take (m - 4) (drop 4 ext)) as Hp4.
        { rewrite Hp. rewrite <- (take_drop 4 ext) at 1.
          rewrite take_app_ge by (rewrite length_take; lia).
          rewrite length_take. replace (4 `min` length ext)%nat with 4%nat by lia.
          reflexivity. }
        destruct (read_uint_more c s r (take 4 ext) _ Hs Hp4) as (r1 & Hr1 & Hp1 & He1).
        rewrite length_take in Hr1.
        replace (4 `min` length ext)%nat with 4%nat in Hr1 by lia.
        rewrite (bind_ok _ _ _ _ _ Hr1). rewrite <- He1.
        apply bind_throw, (read_uint_short c s); [exact Hs|].
        rewrite Hp1, length_take, length_drop. lia.
Qed.

(** X12: when the stream breaks off inside a frame, because the peer
    closed or the transport failed, before the header, the length, the
    mask key or the payload is complete, [get_websocket_data] throws
    the transport's error as a [system_error], [eof] when the peer
    closed: nothing is logged, no part of the payload is returned, and
    everything up to the break has been read. *)
Theorem truncated_frame_fails (c : ctx) (s : tcp_socket) (mpay : Z)
    (ext key payload : list Z) (cut : nat) :
  _socket (this c) = Some s ->
  pending (rx s) = take cut (mpay :: ext ++ key ++ payload) ->
  (cut < length (mpay :: ext ++ key ++ payload))%nat ->
  Forall is_byte ext ->
  Z.land mpay 0x80 <> 0 ->
  declared_length (Z.land mpay 0x7f) ext = Some (Z.of_nat (length payload)) ->
  Z.of_nat (length payload) <= 2 ^ 40 ->
  length key = 4%nat ->
  get_websocket_data c
  = (Throw (system_error (ending (rx s)).1), with_rx (ending (rx s)).2 c).
Proof.
  intros Hs Hp Hcut Hext Hmask Hd Hn Hklen.
  replace (get_websocket_data c) with (get_websocket_data (with_rx (rx s) c))
    by (rewrite (with_rx_id c s Hs); reflexivity).
  unfold get_websocket_data.
  destruct cut as [|cut].
  { apply bind_throw, (read_uint_short c s); [exact Hs|]. rewrite Hp. simpl. lia. }
  cbn [take length] in Hp, Hcut.
  change (mpay :: take cut (ext ++ key ++ payload))
    with ([mpay] ++ take cut (ext ++ key ++ payload)) in Hp.
  destruct (read_uint_more c s (rx s) [mpay] _ Hs Hp) as (r1 & Hr1 & Hp1 & He1).
  rewrite (bind_ok _ _ _ _ _ Hr1). rewrite le_combine_1. cbv zeta.
  rewrite <- He1.
  destruct (decide (cut < length ext)%nat) as [Hin|Hout].
  { rewrite take_app_le in Hp1 by lia.
    apply bind_throw.
    exact (read_paylen_short c s r1 _ ext _ cut Hs Hp1 Hin Hd). }
  rewrite take_app_ge in Hp1 by lia.
  destruct (read_paylen_more c s r1 _ ext _ _ Hs Hp1 Hext (land_7f_range mpay) Hd Hn)
    as (r2 & Hr2 & Hp2 & He2).
  rewrite (bind_ok _ _ _ _ _ Hr2).
  rewrite (proj2 (Z.eqb_neq _ _) Hmask). cbn [negb].
  rewrite <- He2. rewrite !length_app in Hcut.
  destruct (decide (cut - length ext < 4)%nat) as [Hin|Hout'].
  { apply bind_throw, (read_uint_short c s); [exact Hs|].
    rewrite Hp2, length_take. lia. }
  rewrite take_app_ge in Hp2 by lia. rewrite Hklen in Hp2.
  destruct (read_uint_more c s r2 key _ Hs Hp2) as (r3 & Hr3 & Hp3 & He3).
  rewrite Hklen in Hr3. rewrite (bind_ok _ _ _ _ _ Hr3).
  rewrite <- He3.
  apply bind_throw, (asio_read_short c s); [exact Hs|].
  rewrite Hp3, length_take, Nat2Z.id. lia.
Qed.

Lemma truncated_frame_fails_witness :
  get_websocket_data (sample_ctx [Bytes (take 7 (tail hello_frame))])
  = (Throw (system_error eof), with_rx [] (sample_ctx [Bytes (take 7 (tail hello_frame))])).
Proof.
  apply (truncated_frame_fails (sample_ctx [Bytes (take 7 (tail hello_frame))])
           (sample_socket [Bytes (take 7 (tail hello_frame))])
           0x85 [] [0x37; 0xfa; 0x21; 0x3d] [0x5f; 0x9f; 0x4d; 0x51; 0x58] 7).
  - reflexivity.
  - reflexivity.
  - simpl. lia.
  - apply Forall_nil_2.
  - vm_compute. discriminate.
  - reflexivity.
  - vm_compute. discriminate.
  - reflexivity.
Defined.

End FrameProps.

(** * The claim about control frames *)

Module ControlFrameClaims.
Import MonadFacts Sample Wire WebSocket WebSocketFacts WebSocketClaims Reference FrameProps.

(** ** Reading writes nothing *)

Lemma sent_add_log e c : sent (add_log e c) = sent c.
Proof. reflexivity. Qed.











(** ** What has been read when a call returns *)









(** ** The control frames at the head of the stream *)











End ControlFrameClaims.

(** * Further properties of the handshake *)

Module HandshakeProps.
Import MonadFacts Sample Wire WebSocket WebSocketFacts Handshake HandshakeClaims Reference.

(** ** Base64 *)

Lemma land_3f w : Z.land w 0x3F = w mod 64.
Proof. change 0x3F with (Z.ones 6). rewrite Z.land_ones by lia. reflexivity. Qed.

Ltac sextets :=
  rewrite ?land_3f, ?Z.shiftr_0_r, ?Z.shiftr_div_pow2, ?Z.shiftl_mul_pow2 by lia;
  change (2 ^ 8) with 256; change (2 ^ 2) with 4; change (2 ^ 4) with 16;
  change (2 ^ 6) with 64; change (2 ^ 32) with 4294967296;
  unfold is_byte in *; Z.to_euclidean_division_equations; lia.

Lemma sextet_1 val a :
  is_byte a -> Z.land (Z.shiftr ((Z.shiftl val 8 + a) mod 2 ^ 32) 2) 0x3F = a / 4.
Proof. intros Ha. sextets. Qed.

Lemma sextet_2 val a b :
  is_byte a -> is_byte b -> val mod 256 = a ->
  Z.land (Z.shiftr ((Z.shiftl val 8 + b) mod 2 ^ 32) 4) 0x3F = a mod 4 * 16 + b / 16.
Proof. intros Ha Hb Hv. sextets. Qed.

Lemma sextet_3 val b c :
  is_byte b -> is_byte c -> val mod 256 = b ->
  Z.land (Z.shiftr ((Z.shiftl val 8 + c) mod 2 ^ 32) 6) 0x3F = b mod 16 * 4 + c / 64.
Proof. intros Hb Hc Hv. sextets. Qed.

Lemma sextet_4 val c :
  is_byte c -> Z.land (Z.shiftr ((Z.shiftl val 8 + c) mod 2 ^ 32) 0) 0x3F = c mod 64.
Proof. intros Hc. sextets. Qed.

Lemma sextet_2_last val a :
  is_byte a -> val mod 256 = a ->
  Z.land (Z.shiftr (Z.shiftl val 8 mod 2 ^ 32) 4) 0x3F = a mod 4 * 16.
Proof. intros Ha Hv. sextets. Qed.

Lemma sextet_3_last val b :
  is_byte b -> val mod 256 = b ->
  Z.land (Z.shiftr (Z.shiftl val 8 mod 2 ^ 32) 6) 0x3F = b mod 16 * 4.
Proof. intros Hb Hv. sextets. Qed.

Lemma low_byte val a :
  is_byte a -> ((Z.shiftl val 8 + a) mod 2 ^ 32) mod 256 = a.
Proof. intros Ha. sextets. Qed.

Lemma b64_step_first val out a :
  is_byte a ->
  b64_step (val, -6, out) a
  = ((Z.shiftl val 8 + a) mod 2 ^ 32, -4, out ++ [b64_char (a / 4)]).
Proof.
  intros Ha. unfold b64_step. change (-6 + 8) with 2. change (Z.to_nat (2 + 6)) with 8%nat.
  cbn [b64_emit]. change (0 <=? 2) with true. change (2 - 6) with (-4).
  change (0 <=? -4) with false. cbv iota.
  rewrite (sextet_1 val a Ha). reflexivity.
Qed.

Lemma b64_step_second val out a b :
  is_byte a -> is_byte b -> val mod 256 = a ->
  b64_step (val, -4, out) b
  = ((Z.shiftl val 8 + b) mod 2 ^ 32, -2, out ++ [b64_char (a mod 4 * 16 + b / 16)]).
Proof.
  intros Ha Hb Hv. unfold b64_step. change (-4 + 8) with 4.
  change (Z.to_nat (4 + 6)) with 10%nat.
  cbn [b64_emit]. change (0 <=? 4) with true. change (4 - 6) with (-2).
  change (0 <=? -2) with false. cbv iota.
  rewrite (sextet_2 val a b Ha Hb Hv). reflexivity.
Qed.

Lemma b64_step_third val out b c :
  is_byte b -> is_byte c -> val mod 256 = b ->
  b64_step (val, -2, out) c
  = ((Z.shiftl val 8 + c) mod 2 ^ 32, -6,
     (out ++ [b64_char (b mod 16 * 4 + c / 64)]) ++ [b64_char (c mod 64)]).
Proof.
  intros Hb Hc Hv. unfold b64_step. change (-2 + 8) with 6.
  change (Z.to_nat (6 + 6)) with 12%nat.
  cbn [b64_emit]. change (0 <=? 6) with true. change (6 - 6) with 0.
  change (0 <=? 0) with true. change (0 - 6) with (-6).
  change (0 <=? -6) with false. cbv iota.
  rewrite (sextet_3 val b c Hb Hc Hv), (sextet_4 val c Hc). reflexivity.
Qed.

Lemma list_ind3 {A} (P : list A -> Prop) :
  P [] -> (forall a, P [a]) -> (forall a b, P [a; b]) ->
  (forall a b c l, P l -> P (a :: b :: c :: l)) ->
  forall l, P l.
Proof.
  intros H0 H1 H2 H3 l.
  assert (P l /\ (forall a, P (a :: l)) /\ (forall a b, P (a :: b :: l))) as [H _].
  { induction l as [|x l (IH0 & IH1 & IH2)]; [auto|].
    split; [apply IH1|]. split; [intros a; apply IH2|]. intros a b. apply H3, IH0. }
  exact H.
Qed.

Lemma b64_pad_0 out :
  Z.of_nat (length out) mod 4 = 0 -> b64_pad 3 out = out.
Proof. intros H. cbn [b64_pad]. rewrite H. reflexivity. Qed.

Lemma b64_pad_1 out :
  Z.of_nat (length out) mod 4 = 3 -> b64_pad 3 out = out ++ bytes "=".
Proof.
  intros H. cbn [b64_pad]. rewrite H. cbn [Z.eqb negb].
  rewrite length_app, Nat2Z.inj_add. change (Z.of_nat (length (bytes "="))) with 1.
  replace ((Z.of_nat (length out) + 1) mod 4) with 0 by divmod. reflexivity.
Qed.

Lemma b64_pad_2 out :
  Z.of_nat (length out) mod 4 = 2 -> b64_pad 3 out = out ++ bytes "==".
Proof.
  intros H. cbn [b64_pad]. rewrite H. cbn [Z.eqb negb].
  rewrite length_app, Nat2Z.inj_add. change (Z.of_nat (length (bytes "="))) with 1.
  replace ((Z.of_nat (length out) + 1) mod 4) with 3 by divmod. cbn [Z.eqb negb].
  rewrite !length_app, !Nat2Z.inj_add. change (Z.of_nat (length (bytes "="))) with 1.
  replace ((Z.of_nat (length out) + 1 + 1) mod 4) with 0 by divmod. cbn [Z.eqb negb].
  rewrite <- app_assoc. reflexivity.
Qed.

Lemma base64_groups buf : forall val out,
  Forall is_byte buf ->
  Z.of_nat (length out) mod 4 = 0 ->
  (let '(val, valb, out) := foldl b64_step (val, -6, out) buf in
   b64_pad 3
     (if -6 <? valb
      then out ++ [b64_char (Z.land (Z.shiftr (Z.shiftl val 8 mod 2 ^ 32) (valb + 8)) 0x3F)]
      else out))
  = out ++ rfc4648 buf.
Proof.
  induction buf as [|a|a b|a b c buf IH] using list_ind3; intros val out Hb Hout.
  - cbn [foldl rfc4648]. change (-6 <? -6) with false. cbv iota.
    rewrite app_nil_r. apply b64_pad_0, Hout.
  - apply Forall_cons in Hb as [Ha _].
    cbn [foldl rfc4648]. rewrite (b64_step_first val out a Ha).
    change (-6 <? -4) with true. cbv iota. change (-4 + 8) with 4.
    rewrite (sextet_2_last _ a Ha (low_byte val a Ha)).
    rewrite b64_pad_2 by (rewrite !length_app, !Nat2Z.inj_add; simpl length; divmod).
    rewrite <- !app_assoc. reflexivity.
  - apply Forall_cons in Hb as [Ha Hb]. apply Forall_cons in Hb as [Hb _].
    cbn [foldl rfc4648]. rewrite (b64_step_first val out a Ha).
    rewrite (b64_step_second _ _ a b Ha Hb (low_byte val a Ha)).
    change (-6 <? -2) with true. cbv iota. change (-2 + 8) with 6.
    rewrite (sextet_3_last _ b Hb (low_byte _ b Hb)).
    rewrite b64_pad_1 by (rewrite !length_app, !Nat2Z.inj_add; simpl length; divmod).
    rewrite <- !app_assoc. reflexivity.
  - apply Forall_cons in Hb as [Ha Hb]. apply Forall_cons in Hb as [Hb Hc].
    apply Forall_cons in Hc as [Hc Hrest].
    cbn [foldl rfc4648]. rewrite (b64_step_first val out a Ha).
    rewrite (b64_step_second _ _ a b Ha Hb (low_byte val a Ha)).
    rewrite (b64_step_third _ _ b c Hb Hc (low_byte _ b Hb)).
    rewrite IH; [|exact Hrest|rewrite !length_app, !Nat2Z.inj_add; simpl length; divmod].
    rewrite <- !app_assoc. reflexivity.
Qed.

(** X13: [base64_encode] computes the Base64 encoding of RFC 4648 of
    the first [len] bytes of its buffer: four characters of the alphabet
    for every three bytes, and for one or two bytes left over two or
    three characters and padding up to four. *)
Theorem base64_encode_is_rfc4648 (buf : list Z) (len : Z) :
  Forall is_byte buf ->
  len <= Z.of_nat (length buf) ->
  base64_encode buf len = rfc4648 (take (Z.to_nat len) buf).
Proof.
  intros Hb Hlen. unfold base64_encode.
  pose proof (base64_groups (take (Z.to_nat len) buf) 0 [] (Forall_take _ _ _ Hb) eq_refl) as H.
  destruct (foldl b64_step (0, -6, []) (take (Z.to_nat len) buf)) as [[val valb] out].
  exact H.
Qed.

Lemma base64_encode_is_rfc4648_witness :
  base64_encode (bytes "foobar") 5 = rfc4648 (bytes "fooba") /\
  rfc4648 (bytes "fooba") = bytes "Zm9vYmE=".
Proof.
  split; [|reflexivity].
  apply (base64_encode_is_rfc4648 (bytes "foobar") 5).
  - apply (bool_decide_unpack _). vm_compute. reflexivity.
  - vm_compute. discriminate.
Defined.

Lemma rfc4648_length buf :
  Z.of_nat (length (rfc4648 buf)) = 4 * ((Z.of_nat (length buf) + 2) / 3).
Proof.
  induction buf as [|a|a b|a b c buf IH] using list_ind3.
  - reflexivity.
  - reflexivity.
  - reflexivity.
  - cbn [rfc4648 length app]. rewrite !Nat2Z.inj_succ, IH. divmod.
Qed.

Lemma b64_char_alphabet k : 0 <= k < 64 -> b64_char k ∈ b64_table.
Proof.
  intros Hk. unfold b64_char.
  destruct (b64_table !! Z.to_nat k) as [x|] eqn:E.
  - simpl. eapply list_elem_of_lookup_2, E.
  - apply lookup_ge_None in E. change (length b64_table) with 64%nat in E. lia.
Qed.

Lemma rfc4648_alphabet buf :
  Forall is_byte buf ->
  Forall (fun ch => ch ∈ b64_table \/ ch = 61) (rfc4648 buf).
Proof.
  induction buf as [|a|a b|a b c buf IH] using list_ind3; intros Hb.
  - apply Forall_nil_2.
  - apply Forall_cons in Hb as [Ha _]. unfold is_byte in *. cbn [rfc4648 app].
    repeat apply Forall_cons_2; try apply Forall_nil_2;
      try (right; reflexivity); left; apply b64_char_alphabet; divmod.
  - apply Forall_cons in Hb as [Ha Hb]. apply Forall_cons in Hb as [Hb _].
    unfold is_byte in *. cbn [rfc4648 app].
    repeat apply Forall_cons_2; try apply Forall_nil_2;
      try (right; reflexivity); left; apply b64_char_alphabet; divmod.
  - apply Forall_cons in Hb as [Ha Hb]. apply Forall_cons in Hb as [Hb Hc].
    apply Forall_cons in Hc as [Hc Hrest].
    unfold is_byte in *. cbn [rfc4648 app].
    repeat apply Forall_cons_2; try (apply IH; exact Hrest);
      left; apply b64_char_alphabet; divmod.
Qed.

(** X14: for [len] bytes [base64_encode] returns 4 * ceil(len / 3)
    characters, each of them a character of the alphabet or the padding
    character. *)
Theorem base64_encode_length_and_alphabet (buf : list Z) (len : Z) :
  Forall is_byte buf ->
  0 <= len <= Z.of_nat (length buf) ->
  Z.of_nat (length (base64_encode buf len)) = 4 * ((len + 2) / 3) /\
  Forall (fun ch => ch ∈ b64_table \/ ch = 61) (base64_encode buf len).
Proof.
  intros Hb Hlen.
  assert (base64_encode buf len = rfc4648 (take (Z.to_nat len) buf)) as ->.
  { unfold base64_encode.
    pose proof (base64_groups (take (Z.to_nat len) buf) 0 [] (Forall_take _ _ _ Hb) eq_refl)
      as H.
    destruct (foldl b64_step (0, -6, []) (take (Z.to_nat len) buf)) as [[val valb] out].
    exact H. }
  split.
  - rewrite rfc4648_length, length_take. f_equal. f_equal. lia.
  - apply rfc4648_alphabet, Forall_take, Hb.
Qed.

Lemma base64_encode_length_and_alphabet_witness :
  Z.of_nat (length (base64_encode (SHA1.SHA1 (bytes "abc")) 20)) = 28.
Proof.
  apply (proj1 (base64_encode_length_and_alphabet (SHA1.SHA1 (bytes "abc")) 20
                  ltac:(apply (bool_decide_unpack _); vm_compute; reflexivity)
                  ltac:(vm_compute; split; discriminate))).
Defined.

(** ** The request *)

(** X15: a first line that does not start with the four characters
    of the GET method and a blank is answered with the 501 response and
    [SilentException]; the line counts as the first line, and nothing
    else of the object changes. *)
Theorem handshake_rejects_non_get `{Consumer} (c : ctx) (s : tcp_socket) (line : list Z) :
  _got_first_line (this c) = false ->
  take 4 line <> bytes "GET " ->
  _socket (this c) = Some s ->
  wr_error s = success ->
  HandshakeLine line c
  = (Throw SilentException,
     with_sent not_implemented_501 (on_this (set_got_first_line true) c)).
Proof.
  intros Hfirst Hget Hs Hw. unfold HandshakeLine.
  rewrite (bind_ok get_this _ c (this c) c eq_refl). rewrite Hfirst. cbn [negb].
  rewrite (bind_ok (modify _) _ c tt (on_this (set_got_first_line true) c) eq_refl).
  unfold compare_eq. rewrite drop_0.
  rewrite (bool_decide_eq_false_2 _ Hget). cbn [negb].
  rewrite (bind_ok _ _ _ _ _ (Send_ok (on_this (set_got_first_line true) c) s _ Hs Hw)).
  reflexivity.
Qed.

Lemma handshake_rejects_non_get_witness :
  @HandshakeLine Connection.echo (bytes "POST /ws HTTP/1.1") (sample_ctx [])
  = (Throw SilentException,
     with_sent not_implemented_501 (on_this (set_got_first_line true) (sample_ctx []))).
Proof.
  apply (@handshake_rejects_non_get Connection.echo (sample_ctx []) (sample_socket [])
           (bytes "POST /ws HTTP/1.1")).
  - reflexivity.
  - vm_compute. discriminate.
  - reflexivity.
  - reflexivity.
Defined.

Lemma find_space_found url rest :
  32 ∉ url ->
  find (bytes "GET " ++ url ++ 32 :: rest) 32 4 = Z.of_nat (4 + length url).
Proof.
  intros Hn. unfold find.
  change (drop 4 (bytes "GET " ++ url ++ 32 :: rest)) with (url ++ 32 :: rest).
  assert (list_find (fun c : Z => c = 32) (url ++ 32 :: rest) = Some (length url, 32)) as ->.
  { clear -Hn. induction url as [|c url IH]; [reflexivity|].
    apply not_elem_of_cons in Hn as [Hc Hn].
    cbn [app list_find]. destruct (decide (c = 32)) as [->|_]; [congruence|].
    rewrite (IH Hn). reflexivity. }
  reflexivity.
Qed.

Lemma find_space_none url :
  32 ∉ url -> find (bytes "GET " ++ url) 32 4 = npos.
Proof.
  intros Hn. unfold find.
  change (drop 4 (bytes "GET " ++ url)) with url.
  destruct (list_find _ url) as [[k x]|] eqn:E; [|reflexivity].
  apply list_find_Some in E as (Hk & -> & _).
  exfalso. apply Hn. eapply list_elem_of_lookup_2, Hk.
Qed.

(** The GET line of a request, with the version behind the URL. *)
Lemma request_line `{Consumer} (c : ctx) (url rest : list Z) :
  _got_first_line (this c) = false ->
  32 ∉ url ->
  Z.of_nat (length (bytes "GET " ++ url ++ 32 :: rest)) < 2 ^ 64 ->
  HandshakeLine (bytes "GET " ++ url ++ 32 :: rest) c
  = (Ok tt, on_this (set_url url) (on_this (set_got_first_line true) c)).
Proof.
  intros Hfirst Hn Hlen. unfold HandshakeLine.
  rewrite (bind_ok get_this _ c (this c) c eq_refl). rewrite Hfirst. cbn [negb].
  rewrite (bind_ok (modify _) _ c tt (on_this (set_got_first_line true) c) eq_refl).
  assert (compare_eq (bytes "GET " ++ url ++ 32 :: rest) 0 4 (bytes "GET ") = true) as ->
    by (apply bool_decide_eq_true_2; reflexivity).
  cbn [negb]. unfold modify. do 3 f_equal.
  unfold substr. rewrite find_space_found by exact Hn.
  change (drop 4 (bytes "GET " ++ url ++ 32 :: rest)) with (url ++ 32 :: rest).
  rewrite !length_app in *. change (length (bytes "GET ")) with 4%nat in *.
  cbn [length] in *.
  replace ((Z.of_nat (4 + length url) - 4) mod 2 ^ 64) with (Z.of_nat (length url)).
  2:{ replace (Z.of_nat (4 + length url) - 4) with (Z.of_nat (length url)) by lia.
      symmetry. apply Z.mod_small. lia. }
  rewrite Z.min_l by lia. rewrite Nat2Z.id. apply take_app_length.
Qed.

(** X16: from a first line that starts with the GET method,
    [HandshakeLine] keeps as [_url] what stands between the method and
    the next blank, and everything behind the method when no blank
    follows; nothing is sent. *)
Theorem handshake_extracts_url `{Consumer} (c : ctx) (line url rest : list Z) :
  _got_first_line (this c) = false ->
  32 ∉ url ->
  line = bytes "GET " ++ url ++ 32 :: rest \/ line = bytes "GET " ++ url ->
  Z.of_nat (length line) < 2 ^ 64 ->
  HandshakeLine line c
  = (Ok tt, on_this (set_url url) (on_this (set_got_first_line true) c)).
Proof.
  intros Hfirst Hn Hline Hlen. unfold HandshakeLine.
  rewrite (bind_ok get_this _ c (this c) c eq_refl). rewrite Hfirst. cbn [negb].
  rewrite (bind_ok (modify _) _ c tt (on_this (set_got_first_line true) c) eq_refl).
  assert (compare_eq line 0 4 (bytes "GET ") = true) as ->.
  { unfold compare_eq. apply bool_decide_eq_true_2. destruct Hline as [-> | ->]; reflexivity. }
  cbn [negb]. unfold modify. do 3 f_equal.
  unfold substr. destruct Hline as [-> | ->].
  - rewrite find_space_found by exact Hn.
    change (drop 4 (bytes "GET " ++ url ++ 32 :: rest)) with (url ++ 32 :: rest).
    rewrite !length_app in *. change (length (bytes "GET ")) with 4%nat in *.
    cbn [length] in *.
    replace ((Z.of_nat (4 + length url) - 4) mod 2 ^ 64) with (Z.of_nat (length url)).
    2:{ replace (Z.of_nat (4 + length url) - 4) with (Z.of_nat (length url)) by lia.
        symmetry. apply Z.mod_small. lia. }
    rewrite Z.min_l by lia. rewrite Nat2Z.id. apply take_app_length.
  - rewrite find_space_none by exact Hn.
    change (drop 4 (bytes "GET " ++ url)) with url.
    rewrite !length_app in *. change (length (bytes "GET ")) with 4%nat in *.
    unfold npos. change ((2 ^ 64 - 1 - 4) mod 2 ^ 64) with (2 ^ 64 - 5).
    rewrite Z.min_r by lia.
    replace (Z.to_nat (Z.of_nat (4 + length url) - Z.of_nat 4)) with (length url) by lia.
    apply firstn_all.
Qed.

Lemma handshake_extracts_url_witness :
  @HandshakeLine Connection.echo (bytes "GET /ws") (sample_ctx [])
  = (Ok tt, on_this (set_url (bytes "/ws")) (on_this (set_got_first_line true) (sample_ctx []))).
Proof.
  apply (@handshake_extracts_url Connection.echo (sample_ctx []) (bytes "GET /ws")
           (bytes "/ws") []).
  - reflexivity.
  - apply (bool_decide_unpack _). vm_compute. reflexivity.
  - right. reflexivity.
  - vm_compute. reflexivity.
Defined.

Lemma upgrade_not_key l : is_upgrade_line l -> ~ is_key_line l.
Proof.
  unfold is_upgrade_line, is_key_line. intros Hu Hk.
  apply (f_equal (hd 0)) in Hu. apply (f_equal (hd 0)) in Hk.
  destruct l as [|x l]; [discriminate Hu|].
  change (hd 0 (take (length upg) (x :: l))) with x in Hu.
  change (hd 0 (take (length key) (x :: l))) with x in Hk.
  rewrite Hu in Hk. discriminate Hk.
Qed.

Lemma substr_rest l :
  is_key_line l -> Z.of_nat (length l) < 2 ^ 64 ->
  substr l (length key) npos = drop (length key) l.
Proof.
  intros Hk Hlen. unfold substr.
  assert (length key <= length l)%nat as Hle.
  { unfold is_key_line in Hk. apply (f_equal length) in Hk.
    rewrite length_take in Hk. lia. }
  unfold npos. rewrite Z.min_r by lia.
  apply take_ge. rewrite length_drop. lia.
Qed.

Lemma header_line_step `{Consumer} l c :
  _got_first_line (this c) = true ->
  _got_http_header (this c) = false ->
  header_line l ->
  HandshakeLine l c
  = (Ok tt,
     if decide (is_upgrade_line l) then on_this (set_got_websock_header true) c
     else if decide (is_key_line l) then on_this (set_webkey (drop (length key) l)) c
     else c).
Proof.
  intros Hfirst Hhttp [Hne Hlen]. unfold HandshakeLine.
  rewrite (bind_ok get_this _ c (this c) c eq_refl). rewrite Hfirst, Hhttp. cbn [negb andb].
  rewrite (bool_decide_eq_false_2 (length l = 0%nat))
    by (destruct l; [contradiction|discriminate]).
  rewrite (bind_ok (mret tt) _ c tt c eq_refl).
  rewrite (bind_ok get_this _ c (this c) c eq_refl). rewrite Hhttp. cbn [negb].
  unfold compare_eq. rewrite drop_0.
  destruct (decide (is_upgrade_line l)) as [Hu|Hu].
  - rewrite (bool_decide_eq_true_2 _ Hu). reflexivity.
  - rewrite (bool_decide_eq_false_2 _ Hu).
    destruct (decide (is_key_line l)) as [Hk|Hk].
    + rewrite (bool_decide_eq_true_2 _ Hk). rewrite (substr_rest l Hk Hlen). reflexivity.
    + rewrite (bool_decide_eq_false_2 _ Hk). reflexivity.
Qed.

Lemma feed_headers `{Consumer} hs : forall c,
  _got_first_line (this c) = true ->
  _got_http_header (this c) = false ->
  Forall header_line hs ->
  feed hs c = (Ok tt, on_this (noted hs) c).
Proof.
  induction hs as [|l hs IH]; intros c Hfirst Hhttp Hall.
  - cbn [feed]. unfold mret, M_ret. f_equal.
    destruct c as [ss lg]. unfold on_this, noted, offered_key. cbn.
    rewrite orb_false_r. destruct ss; reflexivity.
  - apply Forall_cons in Hall as [Hl Hall]. cbn [feed].
    rewrite (bind_ok _ _ _ _ _ (header_line_step l c Hfirst Hhttp Hl)).
    rewrite IH; [|destruct (decide _); [|destruct (decide _)]; assumption ..|exact Hall].
    f_equal. destruct c as [ss lg]. unfold on_this, noted, offered_key.
    cbn [this logged foldl].
    destruct (decide (is_upgrade_line l)) as [Hu|Hu].
    + destruct (decide (is_key_line l)) as [Hk|_]; [destruct (upgrade_not_key l Hu Hk)|].
      rewrite (bool_decide_eq_true_2 (Exists is_upgrade_line (l :: hs)))
        by (apply Exists_cons; left; exact Hu).
      rewrite orb_true_r. destruct ss; reflexivity.
    + assert (bool_decide (Exists is_upgrade_line (l :: hs))
              = bool_decide (Exists is_upgrade_line hs)) as ->.
      { apply bool_decide_ext. rewrite Exists_cons. tauto. }
      destruct (decide (is_key_line l)); destruct ss; reflexivity.
Qed.

Lemma feed_app `{Consumer} l1 : forall l2 c c1,
  feed l1 c = (Ok tt, c1) -> feed (l1 ++ l2) c = feed l2 c1.
Proof.
  induction l1 as [|l l1 IH]; intros l2 c c1 H1.
  - cbn in H1. injection H1 as <-. reflexivity.
  - cbn [feed app] in *. unfold mbind, M_bind in *.
    destruct (HandshakeLine l c) as [[[]| | |] c0]; try discriminate.
    apply IH, H1.
Qed.

(** The empty line that ends the header, for a consumer whose
    [OnConnection] lets the request through. *)
Lemma header_end `{Consumer} c :
  (forall c0, OnConnection c0 = (Ok tt, c0)) ->
  _got_first_line (this c) = true ->
  _got_http_header (this c) = false ->
  HandshakeLine [] c
  = if _got_websock_header (this c)
    then (Send (switching_protocols_101
                  (base64_encode (SHA1.SHA1 (_webkey (this c) ++ GUID)) 20));;
          modify (set_do_frame_io true))
           (on_this (fun ss => set_webkey (_webkey ss ++ GUID) ss)
              (on_this (set_got_http_header true) c))
    else (Throw SilentException, on_this (set_got_http_header true) c).
Proof.
  intros Hquiet Hfirst Hhttp. unfold HandshakeLine.
  rewrite (bind_ok get_this _ c (this c) c eq_refl). rewrite Hfirst, Hhttp. cbn [negb andb].
  rewrite (bool_decide_eq_true_2 (length (@nil Z) = 0%nat)) by reflexivity.
  set (c0 := on_this (set_got_http_header true) c).
  rewrite (bind_ok (modify _) _ c tt c0 eq_refl).
  rewrite (bind_ok get_this _ c0 (this c0) c0 eq_refl).
  change (_got_http_header (this c0)) with true. cbn [negb].
  rewrite (bind_ok _ _ _ _ _ (Hquiet c0)).
  rewrite (bind_ok get_this _ c0 (this c0) c0 eq_refl).
  change (_got_websock_header (this c0)) with (_got_websock_header (this c)).
  destruct (_got_websock_header (this c)); cbn [negb]; [|reflexivity].
  set (c2 := on_this (fun ss => set_webkey (_webkey ss ++ GUID) ss) c0).
  rewrite (bind_ok (modify _) _ c0 tt c2 eq_refl).
  rewrite (bind_ok get_this _ c2 (this c2) c2 eq_refl). reflexivity.
Qed.

Lemma request_fed `{Consumer} c url version hs :
  (forall c0, OnConnection c0 = (Ok tt, c0)) ->
  _got_first_line (this c) = false ->
  _got_http_header (this c) = false ->
  32 ∉ url ->
  Z.of_nat (length (bytes "GET " ++ url ++ 32 :: version)) < 2 ^ 64 ->
  Forall header_line hs ->
  feed ((bytes "GET " ++ url ++ 32 :: version) :: hs ++ [[]]) c
  = HandshakeLine []
      (on_this (noted hs) (on_this (set_url url) (on_this (set_got_first_line true) c))).
Proof.
  intros Hquiet Hfirst Hhttp Hurl Hlen Hall.
  cbn [feed].
  rewrite (bind_ok _ _ _ _ _
             (request_line c url version Hfirst Hurl Hlen)).
  set (c1 := on_this (set_url url) (on_this (set_got_first_line true) c)).
  rewrite (feed_app hs [[]] c1 _ (feed_headers hs c1 eq_refl Hhttp Hall)).
  cbn [feed]. unfold mbind, M_bind.
  destruct (HandshakeLine [] (on_this (noted hs) c1)) as [[[]| | |] c3]; reflexivity.
Qed.

(** X17: a request is accepted on its header lines, whatever their
    order and whatever other lines stand between them: when, after the
    GET line, some header line starts with the upgrade header, the empty
    line that ends the header is answered with the 101 response, whose
    accept value is computed from what follows the key header on the
    last line that starts with it (from the GUID alone when no line
    does); the connection then works in frames, and [_url] is the URL
    of the GET line.  The consumer's [OnConnection] lets the request
    through. *)
Theorem upgrade_request_is_accepted `{Consumer} (c : ctx) (s : tcp_socket)
    (url version : list Z) (hs : list (list Z)) :
  (forall c0, OnConnection c0 = (Ok tt, c0)) ->
  _got_first_line (this c) = false ->
  _got_http_header (this c) = false ->
  _socket (this c) = Some s ->
  wr_error s = success ->
  32 ∉ url ->
  Z.of_nat (length (bytes "GET " ++ url ++ 32 :: version)) < 2 ^ 64 ->
  Forall header_line hs ->
  Exists is_upgrade_line hs ->
  exists c',
    feed ((bytes "GET " ++ url ++ 32 :: version) :: hs ++ [[]]) c = (Ok tt, c') /\
    sends c'
    = tx s ++ [switching_protocols_101
                 (base64_encode
                    (SHA1.SHA1 (offered_key (_webkey (this c)) hs ++ GUID)) 20)] /\
    _do_frame_io (this c') = true /\
    _url (this c') = url.
Proof.
  intros Hquiet Hfirst Hhttp Hs Hw Hurl Hlen Hall Hup.
  rewrite (request_fed c url version hs Hquiet Hfirst Hhttp Hurl Hlen Hall).
  set (c2 := on_this (noted hs) (on_this (set_url url) (on_this (set_got_first_line true) c))).
  rewrite (header_end c2 Hquiet eq_refl Hhttp).
  assert (_got_websock_header (this c2) = true) as ->.
  { subst c2. cbn. rewrite (bool_decide_eq_true_2 _ Hup). apply orb_true_r. }
  set (c3 := on_this (fun ss => set_webkey (_webkey ss ++ GUID) ss)
               (on_this (set_got_http_header true) c2)).
  assert (_socket (this c3) = Some s) as Hs3 by exact Hs.
  rewrite (bind_ok _ _ _ _ _ (Send_ok c3 s _ Hs3 Hw)).
  unfold modify, with_sent. rewrite Hs3.
  eexists. split; [reflexivity|].
  split; [|split; reflexivity]. reflexivity.
Qed.

Lemma upgrade_request_is_accepted_witness :
  exists c',
    @feed Connection.echo
      ((bytes "GET " ++ bytes "/ws" ++ 32 :: bytes "HTTP/1.1") :: upgrade_headers ++ [[]])
      (sample_ctx [])
    = (Ok tt, c') /\
    sends c'
    = [] ++ [switching_protocols_101
               (base64_encode (SHA1.SHA1 (offered_key [] upgrade_headers ++ GUID)) 20)] /\
    _do_frame_io (this c') = true /\
    _url (this c') = bytes "/ws".
Proof.
  apply (@upgrade_request_is_accepted Connection.echo (sample_ctx []) (sample_socket [])
           (bytes "/ws") (bytes "HTTP/1.1") upgrade_headers).
  - intros c0. reflexivity.
  - reflexivity.
  - reflexivity.
  - reflexivity.
  - reflexivity.
  - apply (bool_decide_unpack _). vm_compute. reflexivity.
  - vm_compute. reflexivity.
  - apply (bool_decide_unpack _). vm_compute. reflexivity.
  - apply (bool_decide_unpack _). vm_compute. reflexivity.
Defined.

(** X18: a request none of whose header lines starts with the
    upgrade header is not upgraded: at the empty line that ends the
    header, after [OnConnection] has returned, [HandshakeLine] throws
    [SilentException]; nothing has been sent or logged, and the
    connection does not go over to frames. *)
Theorem request_without_upgrade_is_closed `{Consumer} (c : ctx)
    (url version : list Z) (hs : list (list Z)) :
  (forall c0, OnConnection c0 = (Ok tt, c0)) ->
  _got_first_line (this c) = false ->
  _got_http_header (this c) = false ->
  _got_websock_header (this c) = false ->
  32 ∉ url ->
  Z.of_nat (length (bytes "GET " ++ url ++ 32 :: version)) < 2 ^ 64 ->
  Forall header_line hs ->
  ~ Exists is_upgrade_line hs ->
  exists c',
    feed ((bytes "GET " ++ url ++ 32 :: version) :: hs ++ [[]]) c
    = (Throw SilentException, c') /\
    sends c' = sends c /\
    logged c' = logged c /\
    _do_frame_io (this c') = _do_frame_io (this c).
Proof.
  intros Hquiet Hfirst Hhttp Hws Hurl Hlen Hall Hup.
  rewrite (request_fed c url version hs Hquiet Hfirst Hhttp Hurl Hlen Hall).
  set (c2 := on_this (noted hs) (on_this (set_url url) (on_this (set_got_first_line true) c))).
  rewrite (header_end c2 Hquiet eq_refl Hhttp).
  assert (_got_websock_header (this c2) = false) as ->.
  { subst c2. cbn. rewrite Hws, (bool_decide_eq_false_2 _ Hup). reflexivity. }
  eexists. split; [reflexivity|]. split; [|split]; reflexivity.
Qed.

Lemma request_without_upgrade_is_closed_witness :
  exists c',
    @feed Connection.echo
      ((bytes "GET " ++ bytes "/" ++ 32 :: bytes "HTTP/1.1") :: other_headers ++ [[]])
      (sample_ctx [])
    = (Throw SilentException, c') /\
    sends c' = sends (sample_ctx []) /\
    logged c' = logged (sample_ctx []) /\
    _do_frame_io (this c') = _do_frame_io (this (sample_ctx [])).
Proof.
  apply (@request_without_upgrade_is_closed Connection.echo (sample_ctx [])
           (bytes "/") (bytes "HTTP/1.1") other_headers).
  - intros c0. reflexivity.
  - reflexivity.
  - reflexivity.
  - reflexivity.
  - apply (bool_decide_unpack _). vm_compute. reflexivity.
  - vm_compute. reflexivity.
  - apply (bool_decide_unpack _). vm_compute. reflexivity.
  - apply (bool_decide_unpack _). vm_compute. reflexivity.
Defined.

(** ** Writes that fail *)

Lemma Send_fails c s buf :
  _socket (this c) = Some s -> wr_error s <> success ->
  Send buf c
  = (Ok tt, {| this := this c; logged := logged c ++ write_failure (wr_error s) |}).
Proof.
  intros Hs Hw. unfold Send. rewrite Hs. unfold write_failure, peer_gone_error.
  destruct c as [ss lg]. cbn [this logged].
  destruct (wr_error s) eqn:E; try contradiction;
    try (rewrite decide_True by set_solver; cbn; rewrite app_nil_r; reflexivity).
  all: rewrite decide_False by set_solver; reflexivity.
Qed.

(** X3: a write that fails is not noticed by the handshake.  [Send]
    comes back without throwing and nothing is written; one warning is
    logged, or none when the error is one of not connected, broken pipe,
    bad descriptor and connection reset.  So a first line that is not a
    GET line still ends in [SilentException], and a complete request for
    the upgrade still puts the connection into frame mode, although the
    101 response never left. *)
Theorem handshake_write_errors_unnoticed `{Consumer} (c : ctx) (s : tcp_socket) :
  _socket (this c) = Some s ->
  wr_error s <> success ->
  _got_first_line (this c) = false ->
  _got_http_header (this c) = false ->
  (forall line,
     take 4 line <> bytes "GET " ->
     HandshakeLine line c
     = (Throw SilentException,
        {| this := set_got_first_line true (this c);
           logged := logged c ++ write_failure (wr_error s) |})) /\
  (forall url version hs,
     (forall c0, OnConnection c0 = (Ok tt, c0)) ->
     32 ∉ url ->
     Z.of_nat (length (bytes "GET " ++ url ++ 32 :: version)) < 2 ^ 64 ->
     Forall header_line hs ->
     Exists is_upgrade_line hs ->
     exists c',
       feed ((bytes "GET " ++ url ++ 32 :: version) :: hs ++ [[]]) c = (Ok tt, c') /\
       sends c' = tx s /\
       logged c' = logged c ++ write_failure (wr_error s) /\
       _do_frame_io (this c') = true /\
       _url (this c') = url).
Proof.
  intros Hs Hw Hfirst Hhttp. split.
  - intros line Hget. unfold HandshakeLine.
    rewrite (bind_ok get_this _ c (this c) c eq_refl). rewrite Hfirst. cbn [negb].
    rewrite (bind_ok (modify _) _ c tt (on_this (set_got_first_line true) c) eq_refl).
    unfold compare_eq. rewrite drop_0.
    rewrite (bool_decide_eq_false_2 _ Hget). cbn [negb].
    rewrite (bind_ok _ _ _ _ _
               (Send_fails (on_this (set_got_first_line true) c) s _ Hs Hw)).
    reflexivity.
  - intros url version hs Hquiet Hurl Hlen Hall Hup.
    rewrite (request_fed c url version hs Hquiet Hfirst Hhttp Hurl Hlen Hall).
    set (c2 := on_this (noted hs) (on_this (set_url url) (on_this (set_got_first_line true) c))).
    rewrite (header_end c2 Hquiet eq_refl Hhttp).
    assert (_got_websock_header (this c2) = true) as ->.
    { subst c2. cbn. rewrite (bool_decide_eq_true_2 _ Hup). apply orb_true_r. }
    set (c3 := on_this (fun ss => set_webkey (_webkey ss ++ GUID) ss)
                 (on_this (set_got_http_header true) c2)).
    assert (_socket (this c3) = Some s) as Hs3 by exact Hs.
    rewrite (bind_ok _ _ _ _ _ (Send_fails c3 s _ Hs3 Hw)).
    unfold modify. eexists. split; [reflexivity|].
    split; [unfold sends; cbn; rewrite Hs; reflexivity|].
    split; [reflexivity|]. split; reflexivity.
Qed.

Lemma handshake_write_errors_unnoticed_witness :
  @HandshakeLine Connection.echo (bytes "POST /ws HTTP/1.1")
    {| this := set_socket (Some failing_write) blank; logged := [] |}
  = (Throw SilentException,
     {| this := set_got_first_line true (set_socket (Some failing_write) blank);
        logged := [send_warning] |}) /\
  exists c',
    @feed Connection.echo
      ((bytes "GET " ++ bytes "/ws" ++ 32 :: bytes "HTTP/1.1") :: upgrade_headers ++ [[]])
      {| this := set_socket (Some peer_gone) blank; logged := [] |}
    = (Ok tt, c') /\
    sends c' = [] /\
    logged c' = [] /\
    _do_frame_io (this c') = true /\
    _url (this c') = bytes "/ws".
Proof.
  split.
  - apply (proj1 (@handshake_write_errors_unnoticed Connection.echo
                    {| this := set_socket (Some failing_write) blank; logged := [] |}
                    failing_write eq_refl ltac:(discriminate) eq_refl eq_refl)).
    vm_compute. discriminate.
  - apply (proj2 (@handshake_write_errors_unnoticed Connection.echo
                    {| this := set_socket (Some peer_gone) blank; logged := [] |}
                    peer_gone eq_refl ltac:(discriminate) eq_refl eq_refl)
             (bytes "/ws") (bytes "HTTP/1.1") upgrade_headers).
    + intros c0. reflexivity.
    + apply (bool_decide_unpack _). vm_compute. reflexivity.
    + vm_compute. reflexivity.
    + apply (bool_decide_unpack _). vm_compute. reflexivity.
    + apply (bool_decide_unpack _). vm_compute. reflexivity.
Defined.

End HandshakeProps.
